(** * APM models scraper: a shallow embedding of the extraction,
      download, validation and orchestration code of
      [apm_models_scraper_enhanced.py], and the properties of its
      specification.

    Python [str] values are modelled as [string]; a character is a code
    point below 256 (the Latin-1 block of Unicode), and the character
    classes below are CPython's Unicode tables restricted to that block.
    Dictionaries used as records ([model_data]) become records whose
    fields are optional (a missing key is [None]); the attribute
    dictionary is a [gmap]; the set of seen URLs is a [gset]. *)

From Stdlib Require Import Ascii String ZArith QArith DecimalString Lia.
From stdpp Require Import gmap strings list.

Open Scope string_scope.

(* ===================================================================== *)
(** ** Python string primitives                                           *)
(* ===================================================================== *)

Module Py.

Definition code (c : ascii) : N := N_of_ascii c.

Definition between (lo hi : N) (c : ascii) : bool :=
  ((lo <=? code c) && (code c <=? hi))%N.

Definition code_is (n : N) (c : ascii) : bool := (code c =? n)%N.

(** [str.isspace] on one character; also the class [\s] of [re] and the
    characters removed by [str.strip()]. *)
Definition isspace (c : ascii) : bool :=
  between 9 13 c || between 28 32 c || code_is 133 c || code_is 160 c.

(** The class [\d] of [re] on a [str] pattern: decimal digits. *)
Definition isdecimal (c : ascii) : bool := between 48 57 c.

(** [str.isalnum] on one character (alphabetic, decimal, digit or
    numeric): what [\w] matches besides the underscore. *)
Definition isalnum (c : ascii) : bool :=
  between 48 57 c || between 65 90 c || between 97 122 c
  || code_is 170 c || code_is 178 c || code_is 179 c || code_is 181 c || code_is 185 c || code_is 186 c
  || between 188 190 c
  || between 192 214 c || between 216 246 c || between 248 255 c.

(** The class [\w] of [re] on a [str] pattern. *)
Definition isword (c : ascii) : bool := isalnum c || code_is 95 c.

(** Characters below 128. *)
Definition isascii (c : ascii) : bool := (code c <? 128)%N.

(** ASCII letters ([str.isascii() and str.isalpha()]). *)
Definition isasciialpha (c : ascii) : bool :=
  between 65 90 c || between 97 122 c.

(** [str.isupper] on one character. *)
Definition isupper (c : ascii) : bool :=
  between 65 90 c || between 192 214 c || between 216 222 c.

(** [str.islower] on one character. *)
Definition islower (c : ascii) : bool :=
  between 97 122 c || code_is 170 c || code_is 181 c || code_is 186 c
  || between 223 246 c || between 248 255 c.

(** [str.isdigit] on one character. *)
Definition isdigit (c : ascii) : bool :=
  between 48 57 c || code_is 178 c || code_is 179 c || code_is 185 c.

Definition lower_char (c : ascii) : ascii :=
  if isupper c then ascii_of_N (code c + 32) else c.

Definition chars (s : string) : list ascii := list_ascii_of_string s.
Definition str (l : list ascii) : string := string_of_list_ascii l.

(** [s.lower()] *)
Definition lower (s : string) : string := str (map lower_char (chars s)).

Fixpoint lstrip_by (p : ascii -> bool) (l : list ascii) : list ascii :=
  match l with
  | [] => []
  | c :: t => if p c then lstrip_by p t else l
  end.

Definition strip_by (p : ascii -> bool) (l : list ascii) : list ascii :=
  rev (lstrip_by p (rev (lstrip_by p l))).

(** [s.strip()] *)
Definition strip (s : string) : string := str (strip_by isspace (chars s)).

(** [s.strip(cs)]: strips the characters that occur in [cs]. *)
Definition strip_chars (cs : string) (s : string) : string :=
  str (strip_by (fun c => bool_decide (c ∈ chars cs)) (chars s)).

(** [strip_prefix p l] is [Some t] when [l = p ++ t]. *)
Fixpoint strip_prefix (p l : list ascii) : option (list ascii) :=
  match p, l with
  | [], _ => Some l
  | _ :: _, [] => None
  | a :: p', b :: l' => if Ascii.eqb a b then strip_prefix p' l' else None
  end.

(** [s.startswith(p)] *)
Definition startswith (p s : string) : bool :=
  match strip_prefix (chars p) (chars s) with Some _ => true | None => false end.

Fixpoint contains_chars (p l : list ascii) : bool :=
  match strip_prefix p l with
  | Some _ => true
  | None => match l with [] => false | _ :: t => contains_chars p t end
  end.

(** [p in s] for two strings. *)
Definition contains (p s : string) : bool := contains_chars (chars p) (chars s).

(** [l[:k]] for a list and a Python integer: a negative bound counts
    from the end. *)
Definition slice_to {A} (l : list A) (k : Z) : list A :=
  if (0 <=? k)%Z then take (Z.to_nat k) l
  else take (length l - Z.to_nat (- k)) l.

(** [str(n)] for a non-negative integer. *)
Definition str_of_nat (n : nat) : string := NilZero.string_of_uint (Nat.to_uint n).

(** Truthiness of an optional string as returned by [dict.get]:
    a missing key ([None]) and the empty string are false. *)
Definition truthy (o : option string) : bool :=
  match o with
  | Some s => negb (String.eqb s "")
  | None => false
  end.

End Py.

(* ===================================================================== *)
(** ** The fragment of [re] used by the scraper                           *)
(* ===================================================================== *)

Module Re.

(** Items of a bracketed character set. *)
Inductive item : Type :=
| W                (* \w *)
| S_               (* \s *)
| D                (* \d *)
| C (c : ascii).   (* a literal character *)

Definition item_matches (i : item) (c : ascii) : bool :=
  match i with
  | W => Py.isword c
  | S_ => Py.isspace c
  | D => Py.isdecimal c
  | C a => Ascii.eqb a c
  end.

(** A character set [[...]] or, when [negated], [[^...]]. *)
Record cset : Type := CSet { negated : bool; items : list item }.

Definition in_cset (cs : cset) (c : ascii) : bool :=
  xorb (negated cs) (existsb (fun i => item_matches i c) (items cs)).

(** Patterns.  Every pattern consumes at least one character, as all
    patterns of the source do.  [Plus] is the greedy [X+] for a
    one-character class [X], the only repetition in the source. *)
Inductive regex : Type :=
| Chr (c : ascii)
| One (cs : cset)
| Plus (cs : cset)
| Seq (r1 r2 : regex)
| Alt (r1 r2 : regex)
| Group (r : regex).

(** The literal string [c :: s]. *)
Fixpoint lit_chars (c : ascii) (s : list ascii) : regex :=
  match s with
  | [] => Chr c
  | c' :: s' => Seq (Chr c) (lit_chars c' s')
  end.

Definition lit (s : string) : regex :=
  match Py.chars s with
  | [] => One (CSet false [])      (* the source has no empty literal *)
  | c :: t => lit_chars c t
  end.

(** Length of the longest prefix of [s] inside the class. *)
Fixpoint run_length (cs : cset) (s : list ascii) : nat :=
  match s with
  | [] => 0
  | c :: t => if in_cset cs c then S (run_length cs t) else 0
  end.

(** Remainders after dropping [k], [k-1], ..., [1] characters. *)
Fixpoint longest_first (k : nat) (s : list ascii) : list (list ascii * list string) :=
  match k with
  | 0 => []
  | S k' => (drop k s, []) :: longest_first k' s
  end.

(** [matches r s]: all the ways [r] matches a prefix of [s], in the
    order a backtracking matcher tries them.  Each success is the
    unmatched remainder and the texts of the groups closed so far, in
    order (the groups of the source's patterns are not nested). *)
Fixpoint matches (r : regex) (s : list ascii) : list (list ascii * list string) :=
  match r with
  | Chr c =>
      match s with
      | c' :: t => if Ascii.eqb c c' then [(t, [])] else []
      | [] => []
      end
  | One cs =>
      match s with
      | c' :: t => if in_cset cs c' then [(t, [])] else []
      | [] => []
      end
  | Plus cs => longest_first (run_length cs s) s
  | Seq r1 r2 =>
      flat_map (fun '(mid, g1) =>
                  map (fun '(rest, g2) => (rest, (g1 ++ g2)%list)) (matches r2 mid))
               (matches r1 s)
  | Alt r1 r2 => matches r1 s ++ matches r2 s
  | Group r1 =>
      map (fun '(rest, g) => (rest, (g ++ [Py.str (take (length s - length rest) s)])%list))
          (matches r1 s)
  end.

(** [re.search(r, s)]: the first success at the leftmost position that
    has one; the result is the list of group texts ([group(1)] first). *)
Fixpoint search_chars (r : regex) (s : list ascii) : option (list string) :=
  match matches r s with
  | (_, g) :: _ => Some g
  | [] => match s with
          | [] => None
          | _ :: t => search_chars r t
          end
  end.

Definition search (r : regex) (s : string) : option (list string) :=
  search_chars r (Py.chars s).

(** [m.group(n)] for [n >= 1]. *)
Definition group (n : nat) (g : list string) : string := nth (n - 1) g "".

(** [re.sub(r, repl, s)] on characters: scans left to right, replaces
    every leftmost match by [repl] and resumes after it; [skip] counts
    the characters of the current match still to pass over. *)
Fixpoint sub_chars (r : regex) (repl : list ascii) (s : list ascii) (skip : nat) : list ascii :=
  match s with
  | [] => []
  | c :: t =>
      match skip with
      | S k => sub_chars r repl t k
      | 0 =>
          match matches r s with
          | (rest, _) :: _ => (repl ++ sub_chars r repl t (length t - length rest))%list
          | [] => c :: sub_chars r repl t 0
          end
      end
  end.

Definition sub (r : regex) (repl s : string) : string :=
  Py.str (sub_chars r (Py.chars repl) (Py.chars s) 0).

End Re.

(* ===================================================================== *)
(** ** ModelRecord.slugify_name                                           *)
(* ===================================================================== *)

(** The pattern [[^\w\s-]]. *)
Definition special_chars : Re.regex :=
  Re.One (Re.CSet true [Re.W; Re.S_; Re.C "-"]).

(** The pattern [[-\s]+]. *)
Definition separators : Re.regex :=
  Re.Plus (Re.CSet false [Re.C "-"; Re.S_]).

Definition slugify_name (name : string) : string :=
  let slug := Re.sub special_chars "" (Py.lower name) in
  let slug := Re.sub separators "_" slug in
  let slug := Py.strip_chars "_" slug in
  slug.

(* ===================================================================== *)
(** ** [urllib.parse.urlparse(url).path]                                  *)
(* ===================================================================== *)

(** The path component as [urlparse] splits it off the generic syntax
    [scheme://netloc/path;params?query#fragment], with what [urlsplit]
    does before: it strips control characters and blanks from the left,
    removes tab, carriage return and line feed, and raises [ValueError]
    on a network location whose brackets do not pair or do not hold an
    IPv6 or IPvFuture address (CPython 3.11.4 and later). *)
Module Url.

(** [break p l]: the characters before the first one satisfying [p],
    and the rest from that character on. *)
Fixpoint break (p : ascii -> bool) (l : list ascii) : list ascii * list ascii :=
  match l with
  | [] => ([], [])
  | c :: t => if p c then ([], l) else let '(a, b) := break p t in (c :: a, b)
  end.

Definition is_char (a : ascii) (c : ascii) : bool := Ascii.eqb a c.

(** [a in s] for one character. *)
Definition has (a : ascii) (l : list ascii) : bool := existsb (is_char a) l.

Definition is_nil (l : list ascii) : bool :=
  match l with [] => true | _ :: _ => false end.

(** [s.partition(sep)]: the part before the first [sep], whether there
    is one, and the part after it. *)
Definition partition (sep : ascii) (l : list ascii) : list ascii * bool * list ascii :=
  match break (is_char sep) l with
  | (before, _ :: after) => (before, true, after)
  | (before, []) => (before, false, [])
  end.

(** [s.rpartition(sep)[2]]: the part after the last [sep]. *)
Definition after_last (sep : ascii) (l : list ascii) : list ascii :=
  rev (fst (break (is_char sep) (rev l))).

(** [s.split(sep)] *)
Fixpoint split_on (sep : ascii) (l : list ascii) : list (list ascii) :=
  match l with
  | [] => [[]]
  | c :: t =>
      if is_char sep c then [] :: split_on sep t
      else match split_on sep t with
           | part :: parts => (c :: part) :: parts
           | [] => [[c]]
           end
  end.

(** *** [ipaddress]: which strings are addresses *)

Definition decimal_value (l : list ascii) : N :=
  fold_left (fun n c => (n * 10 + (Py.code c - 48))%N) l 0%N.

(** [IPv4Address._parse_octet] *)
Definition octet_ok (octet : list ascii) : bool :=
  match octet with
  | [] => false
  | c :: t =>
      forallb Py.isdecimal octet && Nat.leb (length octet) 3
      && (negb (is_char "0" c) || is_nil t)
      && (decimal_value octet <=? 255)%N
  end.

Definition ipv4_ok (ip_str : list ascii) : bool :=
  let octets := split_on "." ip_str in
  Nat.eqb (length octets) 4 && forallb octet_ok octets.

Definition hexdigit (c : ascii) : bool :=
  Py.isdecimal c || Py.between 65 70 c || Py.between 97 102 c.

(** [IPv6Address._parse_hextet] *)
Definition hextet_ok (hextet : list ascii) : bool :=
  negb (is_nil hextet) && forallb hexdigit hextet && Nat.leb (length hextet) 4.

(** The indices from [i] on of the empty parts. *)
Fixpoint empty_at (i : nat) (parts : list (list ascii)) : list nat :=
  match parts with
  | [] => []
  | p :: rest => (if is_nil p then [i] else []) ++ empty_at (S i) rest
  end.

(** [IPv6Address._ip_int_from_string], as far as it accepts or refuses. *)
Definition ip6_int_ok (ip_str : list ascii) : bool :=
  if is_nil ip_str then false else
  let parts := split_on ":" ip_str in
  if Nat.ltb (length parts) 3 then false else
  let last_part := List.last parts [] in
  let parts :=
    if has "." last_part
    then if ipv4_ok last_part
         then Some (removelast parts ++ [["0"%char]; ["0"%char]])%list
                    (* the two hextets of the IPv4 suffix *)
         else None
    else Some parts in
  match parts with
  | None => false
  | Some parts =>
      let n := length parts in
      if Nat.ltb 9 n then false else
      let first_empty := is_nil (List.hd [] parts) in
      let last_empty := is_nil (List.last parts []) in
      match empty_at 1 (removelast (List.tl parts)) with
      | _ :: _ :: _ => false                 (* more than one [::] *)
      | [skip_index] =>
          let parts_hi := skip_index in
          let parts_lo := n - skip_index - 1 in
          let parts_hi' := if first_empty then parts_hi - 1 else parts_hi in
          let parts_lo' := if last_empty then parts_lo - 1 else parts_lo in
          if first_empty && negb (Nat.eqb parts_hi' 0) then false
          else if last_empty && negb (Nat.eqb parts_lo' 0) then false
          else if Nat.ltb 7 (parts_hi' + parts_lo') then false
          else forallb hextet_ok (take parts_hi' parts)
               && forallb hextet_ok (drop (n - parts_lo') parts)
      | [] =>
          Nat.eqb n 8 && negb first_empty && negb last_empty && forallb hextet_ok parts
      end
  end.

(** [IPv6Address(address)] does not raise: the scope id after [%], when
    there is one, is not empty and has no [%]. *)
Definition ipv6_ok (address : list ascii) : bool :=
  let '(addr, sep, scope_id) := partition "%" address in
  (negb sep || (negb (is_nil scope_id) && negb (has "%" scope_id))) && ip6_int_ok addr.

(** [re.match(r"\Av[a-fA-F0-9]+\..+\Z", hostname)] *)
Definition ipvfuture_ok (hostname : list ascii) : bool :=
  match hostname with
  | "v"%char :: t =>
      match break (fun c => negb (hexdigit c)) t with
      | (_ :: _, "."%char :: _ :: _) => true
      | _ => false
      end
  | _ => false
  end.

(** [_check_bracketed_host] does not raise. *)
Definition bracketed_host_ok (hostname : list ascii) : bool :=
  match hostname with
  | "v"%char :: _ => ipvfuture_ok hostname
  | _ => ipv6_ok hostname
  end.

(** [_check_bracketed_netloc] does not raise. *)
Definition bracketed_netloc_ok (netloc : list ascii) : bool :=
  let hostname_and_port := after_last "@" netloc in
  let '(before_bracket, have_open_br, bracketed) := partition "[" hostname_and_port in
  if have_open_br then
    if negb (is_nil before_bracket) then false else
    let '(hostname, _, port) := partition "]" bracketed in
    match port with
    | c :: _ => if is_char ":" c then bracketed_host_ok hostname else false
    | [] => bracketed_host_ok hostname
    end
  else
    let '(hostname, _, _) := partition ":" hostname_and_port in
    bracketed_host_ok hostname.

(** The checks of [urlsplit] on the network location; [false] is its
    [ValueError]. *)
Definition netloc_ok (netloc : list ascii) : bool :=
  match has "[" netloc, has "]" netloc with
  | true, true => bracketed_netloc_ok netloc
  | false, false => true
  | _, _ => false
  end.

(** *** [urlparse(url).path] *)

(** [_WHATWG_C0_CONTROL_OR_SPACE], stripped from the left of the URL. *)
Definition c0_control_or_space (c : ascii) : bool := (Py.code c <=? 32)%N.

(** [_UNSAFE_URL_BYTES_TO_REMOVE]: tab, carriage return and line feed,
    removed wherever they stand. *)
Definition unsafe_byte (c : ascii) : bool :=
  Py.code_is 9 c || Py.code_is 13 c || Py.code_is 10 c.

Definition cleaned (url : list ascii) : list ascii :=
  List.filter (fun c => negb (unsafe_byte c)) (Py.lstrip_by c0_control_or_space url).

Definition scheme_char (c : ascii) : bool :=
  Py.isasciialpha c || Py.isdecimal c
  || is_char "+" c || is_char "-" c || is_char "." c.

(** [(scheme, rest)]: a leading [name:] is a scheme when it starts with
    an ASCII letter and consists of scheme characters. *)
Definition split_scheme (url : list ascii) : list ascii * list ascii :=
  match break (is_char ":") url with
  | (c :: pre, _ :: rest) =>
      if Py.isasciialpha c && forallb scheme_char (c :: pre)
      then (map Py.lower_char (c :: pre), rest)
      else ([], url)
  | _ => ([], url)
  end.

(** [_splitnetloc(url, 2)] for a URL that starts with [//]: the network
    location ends at the first of [/], [?] and [#]. *)
Definition split_netloc (url : list ascii) : option (list ascii * list ascii) :=
  match url with
  | "/"%char :: "/"%char :: t =>
      Some (break (fun c => is_char "/" c || is_char "?" c || is_char "#" c) t)
  | _ => None
  end.

Definition uses_params : list string :=
  [""; "ftp"; "hdl"; "prospero"; "http"; "imap"; "https"; "shttp"; "rtsp";
   "rtspu"; "sip"; "sips"; "mms"; "sftp"; "tel"].

(** [_splitparams]: cuts the path at the first [;] of its last segment. *)
Definition split_params (path : list ascii) : list ascii :=
  let '(last_rev, head_rev) := break (is_char "/") (rev path) in
  let last := rev last_rev in
  let head := rev head_rev in
  (head ++ fst (break (is_char ";") last))%list.

(** [None] is the [ValueError] of [urlsplit]. *)
Definition path_chars (url : list ascii) : option (list ascii) :=
  let '(scheme, rest) := split_scheme (cleaned url) in
  let rest :=
    match split_netloc rest with
    | Some (netloc, rest) => if netloc_ok netloc then Some rest else None
    | None => Some rest
    end in
  match rest with
  | None => None
  | Some rest =>
      let rest := fst (break (is_char "#") rest) in
      let rest := fst (break (is_char "?") rest) in
      Some (if bool_decide (Py.str scheme ∈ uses_params) then split_params rest else rest)
  end.

Definition path (url : string) : option string :=
  option_map Py.str (path_chars (Py.chars url)).

End Url.

(* ===================================================================== *)
(** ** Data model                                                         *)
(* ===================================================================== *)

(** The [model_data] dictionary that travels through the stages.  A field
    is [None] while its key is absent. *)
Record model_data : Type := ModelData {
  model_id : option string;
  name : option string;
  division : option string;
  profile_url : option string;
  thumbnail : option string;
  thumbnail_alt : option string;
  divisions_meta : option string;
  letter_group : option (option string);   (* the value may be Python's None *)
  slug : option string;
  attributes : option (gmap string string);
  gallery_images : option (list string);
  images : option (list string)
}.

(** [model_data.update({'attributes': a, 'gallery_images': g})] *)
Definition update_profile (m : model_data) (a : gmap string string) (g : list string) : model_data :=
  {| model_id := model_id m; name := name m; division := division m;
     profile_url := profile_url m; thumbnail := thumbnail m;
     thumbnail_alt := thumbnail_alt m; divisions_meta := divisions_meta m;
     letter_group := letter_group m; slug := slug m;
     attributes := Some a; gallery_images := Some g; images := images m |}.

(** [model_data.update({'images': paths})] *)
Definition update_images (m : model_data) (paths : list string) : model_data :=
  {| model_id := model_id m; name := name m; division := division m;
     profile_url := profile_url m; thumbnail := thumbnail m;
     thumbnail_alt := thumbnail_alt m; divisions_meta := divisions_meta m;
     letter_group := letter_group m; slug := slug m;
     attributes := attributes m; gallery_images := gallery_images m;
     images := Some paths |}.

(** One line of [models.jsonl]. *)
Record record : Type := Record_ {
  r_model_id : string;
  r_name : string;
  r_division : string;
  r_profile_url : string;
  r_thumbnail : string;
  r_attributes : gmap string string;
  r_images : list string
}.

Inductive exn : Type :=
| KeyError (key : string)
| ValueError
| TypeError
| OverflowError
| WebDriverException
| OSError.

Inductive outcome (A : Type) : Type :=
| Returns (a : A)
| Raises (e : exn).
Arguments Returns {A} a.
Arguments Raises {A} e.

(** The configured [request_delay] as [time.sleep] takes it: a number of
    seconds within the range of the clock, which is refused when it is
    negative, or a value that [time.sleep] refuses whatever its sign,
    with the exception it raises ([ValueError] for a float that is not
    a number, [OverflowError] for a number beyond the range of the
    clock, [TypeError] for a value that is no number). *)
Inductive delay : Type :=
| Seconds (s : Q)
| Refused (e : exn).

(** The parts of [self.config] read by the modelled functions, with
    values of the types the defaults have; [request_delay] alone is
    kept as [time.sleep] takes it.  [_load_config] merges the
    user's file section by section, so a key of the [validation] section
    is absent ([None]) when the file has that section without the key;
    [max_images_per_model] is read with [get] and a default. *)
Record config : Type := Config {
  base_url : string;
  request_delay : delay;             (* config.get('request_delay', 1.5) *)
  max_retries : Z;                   (* config.get('max_retries', 3) *)
  max_images_per_model : option Z;   (* config['limits']['max_images_per_model'], when set *)
  min_images_per_model : option Z;   (* config['validation']['min_images_per_model'] *)
  required_divisions : option (list string);
                                     (* config['validation']['required_divisions'] *)
  expected_attributes : list string
}.

Definition default_config : config :=
  {| base_url := "https://apmmodels.com";
     request_delay := Seconds (3 # 2);
     max_retries := 3%Z;
     max_images_per_model := Some 15%Z;
     min_images_per_model := Some 1%Z;
     required_divisions := Some ["ima"; "mai"; "dev"];
     expected_attributes := ["height"; "bust"; "waist"; "hips"; "shoes"; "hair"; "eyes"] |}.

(** [self.stats] *)
Record stats : Type := Stats {
  models_found : nat;
  models_processed : nat;
  models_failed : nat;
  images_downloaded : nat;
  images_failed : nat
}.

(** The elements handed to the extractors, as far as the extractors
    look into them. *)
Record img_tag : Type := Img {
  img_src : option string;     (* img.get('src') *)
  img_alt : option string      (* img.get('alt') *)
}.

Record a_tag : Type := Anchor {
  a_strings : list string;     (* the text nodes below the link, in order *)
  a_href : option string;
  a_img : option img_tag       (* link.find('img') *)
}.

Record li_tag : Type := Li {
  li_data_id : option string;
  li_data_divisions : option string;
  li_a : option a_tag;         (* entry.find('a') *)
  li_img : option img_tag      (* entry.find('img') *)
}.

(** [tag.get_text(strip=True)]: every text node stripped, the empty ones
    dropped, the rest joined. *)
Definition get_text_strip (strings : list string) : string :=
  String.concat "" (filter (fun s => s ≠ "") (map Py.strip strings)).

(* ===================================================================== *)
(** ** Stage 1: index extraction                                          *)
(* ===================================================================== *)

Definition division_alt : Re.regex :=
  Re.Group (Re.Alt (Re.lit "ima") (Re.Alt (Re.lit "mai") (Re.lit "dev"))).

Definition digits : Re.regex := Re.Plus (Re.CSet false [Re.D]).

(** [r'/models/(ima|mai|dev)/'], [r'/(ima|mai|dev)-\d+'], [r'/(ima|mai|dev)/'] *)
Definition patterns : list Re.regex :=
  [ Re.Seq (Re.lit "/models/") (Re.Seq division_alt (Re.Chr "/"));
    Re.Seq (Re.Chr "/") (Re.Seq division_alt (Re.Seq (Re.Chr "-") digits));
    Re.Seq (Re.Chr "/") (Re.Seq division_alt (Re.Chr "/")) ].

(** The loop over [patterns]: the first pattern that matches decides. *)
Fixpoint first_division (ps : list Re.regex) (url : string) : string :=
  match ps with
  | [] => "unknown"
  | pattern :: rest =>
      match Re.search pattern url with
      | Some g => Re.group 1 g
      | None => first_division rest url
      end
  end.

Definition _extract_division_from_url (url : string) : string :=
  first_division patterns url.

(** [r'/(ima|mai|dev)-(\d+)-'] *)
Definition id_pattern : Re.regex :=
  Re.Seq (Re.Chr "/")
    (Re.Seq division_alt (Re.Seq (Re.Chr "-") (Re.Seq (Re.Group digits) (Re.Chr "-")))).

Definition id_from_url (url : string) : string :=
  match Re.search id_pattern url with
  | Some g => Re.group 2 g
  | None => ""
  end.

Section Extractors.

(** [urllib.parse.urljoin], and [self.base_url]. *)
(** [urljoin(base, url)]; [None] is the [ValueError] it raises on a
    reference it cannot split. *)
Variable urljoin : string -> string -> option string.
Variable base : string.

Definition absolute (url : string) : option string :=
  if negb (Py.startswith "http" url) then urljoin base url else Some url.

Definition thumbnail_of (img : option img_tag) : option string :=
  match img with
  | Some i =>
      let thumbnail_url := default "" (img_src i) in
      if negb (String.eqb thumbnail_url "") && negb (Py.startswith "http" thumbnail_url)
      then urljoin base thumbnail_url
      else Some thumbnail_url
  | None => Some ""
  end.

(** Both extractors run in a [try] whose handler returns [None]: an
    entry whose URL or thumbnail cannot be joined is dropped. *)
Definition _extract_model_from_entry (entry : li_tag) (letter : option string)
  : option model_data :=
  match li_a entry with
  | None => None
  | Some link =>
      let model_name := get_text_strip (a_strings link) in
      if String.eqb model_name "" then None else
      let profile_url := Py.strip (default "" (a_href link)) in
      if String.eqb profile_url "" then None else
      match absolute profile_url with
      | None => None
      | Some profile_url =>
      let division := _extract_division_from_url profile_url in
      let model_id := default "" (li_data_id entry) in
      let model_id :=
        if String.eqb model_id "" then id_from_url profile_url else model_id in
      let divisions_meta := default "" (li_data_divisions entry) in
      match thumbnail_of (li_img entry) with
      | None => None
      | Some thumbnail_url =>
      let thumbnail_alt :=
        match li_img entry with
        | Some i => default "" (img_alt i)
        | None => ""
        end in
      Some {| model_id := Some model_id; name := Some model_name;
              division := Some division; profile_url := Some profile_url;
              thumbnail := Some thumbnail_url; thumbnail_alt := Some thumbnail_alt;
              divisions_meta := Some divisions_meta; letter_group := Some letter;
              slug := Some (slugify_name model_name);
              attributes := None; gallery_images := None; images := None |}
      end
      end
  end.

Definition _extract_model_from_link (link_elem : a_tag) : option model_data :=
  let img_tag := a_img link_elem in
  let alt := match img_tag with Some i => img_alt i | None => None end in
  let model_name :=
    if Py.truthy alt then Py.strip (default "" alt)
    else if negb (String.eqb (get_text_strip (a_strings link_elem)) "")
         then get_text_strip (a_strings link_elem)
         else "" in
  if String.eqb model_name "" then None else
  let profile_url := Py.strip (default "" (a_href link_elem)) in
  if String.eqb profile_url "" then None else
  match absolute profile_url with
  | None => None
  | Some profile_url =>
  if negb (existsb (fun div => Py.contains div profile_url) ["ima"; "mai"; "dev"])
  then None else
  let division := _extract_division_from_url profile_url in
  let model_id := id_from_url profile_url in
  match thumbnail_of img_tag with
  | None => None
  | Some thumbnail_url =>
  Some {| model_id := Some model_id; name := Some model_name;
          division := Some division; profile_url := Some profile_url;
          thumbnail := Some thumbnail_url; thumbnail_alt := Some "";
          divisions_meta := Some ""; letter_group := Some (Some "");
          slug := Some (slugify_name model_name);
          attributes := None; gallery_images := None; images := None |}
  end
  end.

End Extractors.

(** The duplicate removal that ends [scrape_alphabet_index]: keeps a
    model when its [profile_url] is not among the URLs seen so far.
    [None] stands for the [KeyError] of [model['profile_url']]. *)
Fixpoint unique_models (models : list model_data) (seen_urls : gset string)
  : option (list model_data) :=
  match models with
  | [] => Some []
  | model :: rest =>
      match profile_url model with
      | None => None
      | Some url =>
          if decide (url ∈ seen_urls)
          then unique_models rest seen_urls
          else match unique_models rest ({[url]} ∪ seen_urls) with
               | Some kept => Some (model :: kept)
               | None => None
               end
      end
  end.

(* ===================================================================== *)
(** ** Image extension                                                    *)
(* ===================================================================== *)

Definition image_extensions : list string := [".jpg"; ".jpeg"; ".png"; ".gif"; ".webp"].

(** The loop of [_get_image_extension] over the known extensions. *)
Fixpoint first_extension (exts : list string) (path : string) : string :=
  match exts with
  | [] => ".jpg"
  | ext :: rest => if Py.contains ext path then ext else first_extension rest path
  end.

(** [None] is the [ValueError] of [urlparse]. *)
Definition _get_image_extension (url : string) : option string :=
  match Url.path url with
  | Some path => Some (first_extension image_extensions (Py.lower path))
  | None => None
  end.

(* ===================================================================== *)
(** ** Validation                                                         *)
(* ===================================================================== *)

(** The expected attributes absent from the item: reported, not judged. *)
Definition missing_attrs (cfg : config) (model : model_data) : list string :=
  let attrs := default ∅ (attributes model) in
  filter (fun attr => attrs !! attr = None) (expected_attributes cfg).

(** The two settings are subscripted, each when the checks before it
    have passed; a missing key raises [KeyError]. *)
Definition validate_model_data (cfg : config) (model : model_data) : outcome bool :=
  if negb (Py.truthy (model_id model)) then Returns false
  else if negb (Py.truthy (name model)) then Returns false
  else if negb (Py.truthy (division model)) then Returns false
  else if negb (Py.truthy (profile_url model)) then Returns false
  else
    match required_divisions cfg with
    | None => Raises (KeyError "required_divisions")
    | Some valid_divisions =>
        if negb (bool_decide (default "" (division model) ∈ valid_divisions))
        then Returns false
        else
          match min_images_per_model cfg with
          | None => Raises (KeyError "min_images_per_model")
          | Some min_images =>
              if (Z.of_nat (length (default [] (images model))) <? min_images)%Z
              then Returns false
              else match missing_attrs cfg model with
                   | _ :: _ => Returns true     (* logged only *)
                   | [] => Returns true
                   end
          end
    end.

(* ===================================================================== *)
(** ** [safe_request]                                                     *)
(* ===================================================================== *)

(** What one call does to the network and the clock; a pause is counted
    in units of the request delay. *)
Inductive net_event : Type :=
| Throttle                (* time.sleep(delay) *)
| Request                 (* session.get(url) *)
| Backoff (units : nat).  (* time.sleep(delay * (attempt + 1)) *)

(** [x or y] for an optional integer [x]. *)
Definition or_int (x : option Z) (y : Z) : Z :=
  match x with
  | Some v => if (v =? 0)%Z then y else v
  | None => y
  end.

(** The loop [for attempt in range(max_retries)] from [attempt] on, with
    [remaining] rounds left; [responds k] tells whether request number
    [k] of the call gets a good response. *)
Fixpoint attempts (responds : nat -> bool) (max_retries : Z) (attempt remaining : nat)
  : option nat * list net_event :=
  match remaining with
  | 0 => (None, [])
  | S remaining' =>
      if responds attempt then (Some attempt, [Throttle; Request])
      else if (Z.of_nat attempt =? max_retries - 1)%Z then (None, [Throttle; Request])
      else let '(response, events) := attempts responds max_retries (S attempt) remaining' in
           (response, Throttle :: Request :: Backoff (attempt + 1) :: events)
  end.

(** [safe_request(url, max_retries)]: the attempt that was answered, if
    any, and the events in order. *)
Definition safe_request (max_retries : option Z) (configured : option Z)
    (responds : nat -> bool) : option nat * list net_event :=
  let max_retries := or_int max_retries (default 3%Z configured) in
  attempts responds max_retries 0 (Z.to_nat max_retries).





(* ===================================================================== *)
(** ** Stages 2 and 3: state, exceptions and the outside world            *)
(* ===================================================================== *)

(** What a run changes: the counters, the lines of [models.jsonl], the
    calls of [_download_image] made, as (URL, file name) in order, and
    whether a browser is kept in [self.driver]. *)
Record scraper : Type := Scraper {
  the_stats : stats;
  models_file : list record;
  requests : list (string * string);
  driver : bool
}.

(** What the outside world does while one item is processed. *)
Record item_env : Type := ItemEnv {
  driver_ready : bool;     (* a browser that has to be started does start *)
  driver_assigned : bool;  (* when it does not: the exception comes after
                              [self.driver] was assigned *)
  page : option (gmap string string * list string);
                           (* attributes and gallery URLs read off the loaded
                              profile page; [None] when loading it raises *)
  mkdir_ok : bool;         (* the item's image directory can be created *)
  answered : string -> string -> nat -> bool;
                           (* for the download of this URL into this file:
                              request number [k] gets a good response *)
  written : string -> string -> bool;
                           (* and the response can be written to the file *)
  append_ok : bool         (* the record can be appended to [models.jsonl] *)
}.

(** Computations that read and change the scraper and may raise; what was
    changed before an exception stays changed. *)
Definition M (A : Type) : Type := scraper -> outcome A * scraper.

Definition ret {A} (a : A) : M A := fun st => (Returns a, st).

Definition raise {A} (e : exn) : M A := fun st => (Raises e, st).

Definition bind {A B} (c : M A) (k : A -> M B) : M B :=
  fun st =>
    match c st with
    | (Returns a, st') => k a st'
    | (Raises e, st') => (Raises e, st')
    end.

(** [try: body  except Exception: handler] *)
Definition try_except {A} (body : M A) (handler : exn -> M A) : M A :=
  fun st =>
    match body st with
    | (Returns a, st') => (Returns a, st')
    | (Raises e, st') => handler e st'
    end.

Notation "'let!' x ':=' c 'in' k" := (bind c (fun x => k))
  (at level 10, x name, c at level 100, k at level 200).

Notation "'run!' c 'in' k" := (bind c (fun _ => k))
  (at level 10, c at level 100, k at level 200).

(** [d[key]] *)
Definition getitem {A} (key : string) (o : option A) : M A :=
  match o with
  | Some v => ret v
  | None => raise (KeyError key)
  end.

Definition modify_stats (f : stats -> stats) : M unit :=
  fun st => (Returns tt, {| the_stats := f (the_stats st);
                            models_file := models_file st;
                            requests := requests st;
                            driver := driver st |}).

(** The state with [self.driver] set or reset. *)
Definition with_driver (d : bool) (st : scraper) : scraper :=
  {| the_stats := the_stats st;
     models_file := models_file st;
     requests := requests st;
     driver := d |}.

Definition set_driver (d : bool) : M unit :=
  fun st => (Returns tt, with_driver d st).

Definition incr_models_processed : M unit :=
  modify_stats (fun s => {| models_found := models_found s;
                            models_processed := models_processed s + 1;
                            models_failed := models_failed s;
                            images_downloaded := images_downloaded s;
                            images_failed := images_failed s |}).

Definition incr_models_failed : M unit :=
  modify_stats (fun s => {| models_found := models_found s;
                            models_processed := models_processed s;
                            models_failed := models_failed s + 1;
                            images_downloaded := images_downloaded s;
                            images_failed := images_failed s |}).

Definition incr_images_downloaded : M unit :=
  modify_stats (fun s => {| models_found := models_found s;
                            models_processed := models_processed s;
                            models_failed := models_failed s;
                            images_downloaded := images_downloaded s + 1;
                            images_failed := images_failed s |}).

Definition incr_images_failed : M unit :=
  modify_stats (fun s => {| models_found := models_found s;
                            models_processed := models_processed s;
                            models_failed := models_failed s;
                            images_downloaded := images_downloaded s;
                            images_failed := images_failed s + 1 |}).

(** [setup_driver]: the browser kept in [self.driver] is returned as it
    is; otherwise one is started and kept.  Starting may raise before
    the assignment to [self.driver] or after it. *)
Definition setup_driver (ready assigned : bool) : M unit :=
  fun st =>
    if driver st then ret tt st
    else if ready then set_driver true st
    else if assigned then (run! set_driver true in raise WebDriverException) st
    else raise WebDriverException st.

(** [driver.get], the waits, parsing and the two detail extractors. *)
Definition load_profile (w : item_env) : M (gmap string string * list string) :=
  match page w with
  | Some p => ret p
  | None => raise WebDriverException
  end.

Definition scrape_model_profile (w : item_env) (model : model_data) : M model_data :=
  run! getitem "profile_url" (profile_url model) in
  run! getitem "name" (name model) in
  run! setup_driver (driver_ready w) (driver_assigned w) in
  try_except
    (let! found := load_profile w in
     ret (update_profile model (fst found) (snd found)))
    (fun _ => ret (update_profile model ∅ [])).

Definition mkdir (w : item_env) : M unit :=
  if mkdir_ok w then ret tt else raise OSError.

(** [time.sleep] takes the configured delay. *)
Definition sleeps (d : delay) : bool :=
  match d with
  | Seconds s => Qle_bool 0 s
  | Refused _ => false
  end.

(** What [_download_image(url, path)] returns: [safe_request] pauses for
    the configured delay before each request, and an exception of
    [time.sleep] ends in the handler of [_download_image] like any other;
    otherwise one of the requests has to be answered and the file has
    to be written. *)
Definition download_succeeds (cfg : config) (w : item_env) (url filename : string) : bool :=
  sleeps (request_delay cfg)
  && bool_decide (is_Some (fst (safe_request None (Some (max_retries cfg))
                                  (answered w url filename))))
  && written w url filename.

(** [_download_image(url, path)]: never raises, whatever [safe_request]
    and the file system do inside its [try]. *)
Definition _download_image (cfg : config) (w : item_env) (url filename : string) : M bool :=
  fun st => (Returns (download_succeeds cfg w url filename),
             {| the_stats := the_stats st;
                models_file := models_file st;
                requests := requests st ++ [(url, filename)];
                driver := driver st |}).

Definition image_extension (url : string) : M string :=
  match _get_image_extension url with
  | Some ext => ret ext
  | None => raise ValueError
  end.

(** One download inside its [try], the file named [stem ++ ext]: the
    file name when it succeeded. *)
Definition download_one (cfg : config) (w : item_env) (url stem : string)
  : M (list string) :=
  try_except
    (let! ext := image_extension url in
     let filename := stem ++ ext in
     let! ok := _download_image cfg w url filename in
     if ok then run! incr_images_downloaded in ret [filename]
     else run! incr_images_failed in ret [])
    (fun _ => run! incr_images_failed in ret []).

(** [for i, img_url in enumerate(limited_gallery_images, i)] *)
Fixpoint download_gallery (cfg : config) (w : item_env) (i : nat) (urls : list string)
  : M (list string) :=
  match urls with
  | [] => ret []
  | img_url :: rest =>
      let! got := download_one cfg w img_url ("portfolio" ++ Py.str_of_nat i) in
      let! more := download_gallery cfg w (S i) rest in
      ret (got ++ more)%list
  end.

Definition download_model_images (cfg : config) (w : item_env) (model : model_data)
  : M model_data :=
  run! getitem "name" (name model) in
  let! slug_ := getitem "slug" (slug model) in
  let gallery := default [] (gallery_images model) in
  let thumbnail_url := thumbnail model in
  run! mkdir w in
  let! first :=
    (if Py.truthy thumbnail_url
     then download_one cfg w (default "" thumbnail_url) "thumbnail"
     else ret []) in
  let max_total_images := default 15%Z (max_images_per_model cfg) in
  let max_portfolio_images := (max_total_images - 1)%Z in
  let limited_gallery_images := Py.slice_to gallery max_portfolio_images in
  let! others := download_gallery cfg w 1 limited_gallery_images in
  let downloaded_files := (first ++ others)%list in
  let image_paths := map (fun filename => "images/" ++ slug_ ++ "/" ++ filename) downloaded_files in
  ret (update_images model image_paths).

Definition record_of (model : model_data) : record :=
  {| r_model_id := default "" (model_id model);
     r_name := default "" (name model);
     r_division := default "" (division model);
     r_profile_url := default "" (profile_url model);
     r_thumbnail := default "" (thumbnail model);
     r_attributes := default ∅ (attributes model);
     r_images := default [] (images model) |}.

Definition append_record (w : item_env) (r : record) : M unit :=
  fun st =>
    if append_ok w
    then (Returns tt, {| the_stats := the_stats st;
                         models_file := models_file st ++ [r];
                         requests := requests st;
                         driver := driver st |})
    else (Raises OSError, st).

Definition save_model_metadata (w : item_env) (model : model_data) : M bool :=
  try_except
    (run! append_record w (record_of model) in
     run! getitem "name" (name model) in      (* the debug message *)
     ret true)
    (fun _ => ret false).

(** A computation that touches no state. *)
Definition lift {A} (o : outcome A) : M A := fun st => (o, st).

Definition process_single_model (cfg : config) (w : item_env) (model : model_data)
  : M (option model_data) :=
  try_except
    (let! model := scrape_model_profile w model in
     let! model := download_model_images cfg w model in
     let! valid := lift (validate_model_data cfg model) in
     if negb valid
     then run! incr_models_failed in ret None
     else
       let! saved := save_model_metadata w model in
       if saved
       then run! incr_models_processed in ret (Some model)
       else run! incr_models_failed in ret None)
    (fun _ => run! incr_models_failed in ret None).

(** [time.sleep(d)]: raises [ValueError] on a negative number. *)
Definition sleep (d : delay) : M unit :=
  match d with
  | Seconds s => if Qle_bool 0 s then ret tt else raise ValueError
  | Refused e => raise e
  end.

(** The loop of [run_parallel_processing] from item number [i] on, of
    [total] items; [env i] is the world during item [i].  The list
    [processed_models] is appended to in place before the pause between
    two items, so the handler of the loop's [try], when it is the pause
    that raised, leaves the appended list. *)
Fixpoint process_models (cfg : config) (env : nat -> item_env) (total i : nat)
    (models : list model_data) (processed_models : list model_data)
  : M (list model_data) :=
  match models with
  | [] => ret processed_models
  | model :: rest =>
      let! processed_models :=
        try_except
          (run! getitem "name" (name model) in
           let! result := process_single_model cfg (env i) model in
           let processed_models :=
             match result with
             | Some r => (processed_models ++ [r])%list
             | None => processed_models
             end in
           try_except
             (run! (if Nat.ltb i total then sleep (request_delay cfg) else ret tt) in
              ret processed_models)
             (fun _ => run! incr_models_failed in ret processed_models))
          (fun _ => run! incr_models_failed in ret processed_models) in
      process_models cfg env total (S i) rest processed_models
  end.

Definition run_parallel_processing (cfg : config) (env : nat -> item_env)
    (models : list model_data) : M (list model_data) :=
  process_models cfg env (length models) 1 models [].

(* ===================================================================== *)
(** ** Stage 1 as a whole                                                 *)
(* ===================================================================== *)

(** What the selectors of [scrape_alphabet_index] find in the parsed
    index page. *)
Record letter_group_tag : Type := LetterGroup {
  letter_text : string;                      (* letter_group.get_text(strip=True) *)
  models_container : option (list li_tag)    (* the entries of the div.models-inner
                                                found next to or around the letter *)
}.

Record index_page : Type := IndexPage {
  letter_groups : list letter_group_tag;     (* soup.select(selectors['letter_group']) *)
  all_model_entries : list li_tag;           (* soup.select('li.model-entry') *)
  alternative_elements : list (list a_tag)   (* soup.select(selector), one list for each
                                                of the five alternative selectors *)
}.

(** What the outside world does during the index stage. *)
Record index_env : Type := IndexEnv {
  index_driver : bool;            (* a browser that has to be started does start *)
  index_driver_assigned : bool;   (* when it does not: [self.driver] was assigned *)
  loaded : option index_page      (* the index page as parsed; [None] when loading
                                     or parsing it raises *)
}.

Definition set_models_found (n : nat) : M unit :=
  modify_stats (fun s => {| models_found := n;
                            models_processed := models_processed s;
                            models_failed := models_failed s;
                            images_downloaded := images_downloaded s;
                            images_failed := images_failed s |}).

Section Index.

Variable urljoin : string -> string -> option string.
Variable base : string.

(** Method 1: the entries below each letter group. *)
Definition from_letter_groups (page : index_page) : list model_data :=
  flat_map (fun g =>
              match models_container g with
              | Some model_entries =>
                  omap (fun entry =>
                          _extract_model_from_entry urljoin base entry (Some (letter_text g)))
                       model_entries
              | None => []
              end)
           (letter_groups page).

(** Method 2: all entries of the page. *)
Definition from_all_entries (page : index_page) : list model_data :=
  omap (fun entry => _extract_model_from_entry urljoin base entry None)
       (all_model_entries page).

(** Method 3: the links of the first alternative selector that finds any. *)
Fixpoint from_alternatives (found : list (list a_tag)) : list model_data :=
  match found with
  | [] => []
  | elements :: rest =>
      match elements with
      | [] => from_alternatives rest
      | _ :: _ => omap (_extract_model_from_link urljoin base) elements
      end
  end.

Definition collect_models (page : index_page) : list model_data :=
  let models := from_letter_groups page in
  let models := match models with [] => from_all_entries page | _ :: _ => models end in
  let models :=
    match models with [] => from_alternatives (alternative_elements page) | _ :: _ => models end in
  models.

(** [scrape_alphabet_index]: the browser is set up before the [try];
    an exception inside it, while the page is loaded or in the duplicate
    removal, yields the empty list. *)
Definition scrape_alphabet_index (w : index_env) : M (list model_data) :=
  run! setup_driver (index_driver w) (index_driver_assigned w) in
  match loaded w with
  | None => ret []
  | Some page =>
      match unique_models (collect_models page) ∅ with
      | Some models => run! set_models_found (length models) in ret models
      | None => ret []
      end
  end.

End Index.

(* ===================================================================== *)
(** ** Auxiliary definitions for the statements                           *)
(* ===================================================================== *)

(** The characters [a-z], [0-9] and [_]. *)
Definition ascii_slug_char (c : ascii) : bool :=
  Py.between 97 122 c || Py.between 48 57 c || Py.code_is 95 c.

(** The sets of the two patterns of [slugify_name]. *)
Definition special_set : Re.cset := Re.CSet true [Re.W; Re.S_; Re.C "-"].
Definition separator_set : Re.cset := Re.CSet false [Re.C "-"; Re.S_].

(** The first two steps of [slugify_name] on character lists. *)
Definition slug_step1 (name : string) : list ascii :=
  List.filter (fun c => negb (Re.in_cset special_set c)) (map Py.lower_char (Py.chars name)).

Definition slug_step2 (name : string) : list ascii :=
  Re.sub_chars separators (Py.chars "_") (slug_step1 name) 0.

Definition is_division (d : string) : Prop := d = "ima" \/ d = "mai" \/ d = "dev".

(** [urljoin] for a base without a path and a reference that starts with
    a slash; used in the examples only. *)
Definition urljoin_root (base url : string) : option string := Some (base ++ url).

Definition site : string := "https://apmmodels.com".

(** <li class="model-entry" data-id="1234"><a href="/w/models/dev/dev-1234-jane-doe">
    Jane Doe <img src="/img/jane.jpg" alt="Jane"></a></li> *)
Definition jane_entry : li_tag :=
  {| li_data_id := Some "1234"; li_data_divisions := Some "dev";
     li_a := Some {| a_strings := [" Jane Doe "];
                     a_href := Some "/w/models/dev/dev-1234-jane-doe";
                     a_img := Some {| img_src := Some "/img/jane.jpg"; img_alt := Some "Jane" |} |};
     li_img := Some {| img_src := Some "/img/jane.jpg"; img_alt := Some "Jane" |} |}.

(** Two entries of different models whose link texts have no word
    character. *)
Definition question_marks_entry : li_tag :=
  {| li_data_id := Some "77"; li_data_divisions := None;
     li_a := Some {| a_strings := ["???"];
                     a_href := Some "https://apmmodels.com/w/models/dev/dev-77-x";
                     a_img := None |};
     li_img := Some {| img_src := Some "https://apmmodels.com/img/77.jpg"; img_alt := None |} |}.

Definition exclamation_marks_entry : li_tag :=
  {| li_data_id := Some "78"; li_data_divisions := None;
     li_a := Some {| a_strings := ["!!!"];
                     a_href := Some "https://apmmodels.com/w/models/dev/dev-78-y";
                     a_img := None |};
     li_img := Some {| img_src := Some "https://apmmodels.com/img/78.jpg"; img_alt := None |} |}.

(** <a href="https://apmmodels.com/w/models/dev/dev-1234-jane-doe">Jane Doe
    <img src="https://apmmodels.com/img/jane.jpg" alt="Portrait"></a> *)
Definition jane_link : a_tag :=
  {| a_strings := ["Jane Doe"];
     a_href := Some "https://apmmodels.com/w/models/dev/dev-1234-jane-doe";
     a_img := Some {| img_src := Some "https://apmmodels.com/img/jane.jpg";
                      img_alt := Some "Portrait" |} |}.

(** An entry with an image description and no link text. *)
Definition untitled_entry : li_tag :=
  {| li_data_id := Some "5"; li_data_divisions := None;
     li_a := Some {| a_strings := ["  "];
                     a_href := Some "https://apmmodels.com/w/models/dev/dev-5-ann";
                     a_img := Some {| img_src := None; img_alt := Some "Ann" |} |};
     li_img := Some {| img_src := None; img_alt := Some "Ann" |} |}.

(** [s.endswith(p)] holds when [s = t ++ p] for some [t]. *)
Definition ends_with (p s : string) : Prop := exists t, s = t ++ p.

(** The URL that keys the duplicate removal. *)
Definition url_of (model : model_data) : string := default "" (profile_url model).

(** [model_data] with one key replaced. *)
Definition set_attributes (m : model_data) (a : option (gmap string string)) : model_data :=
  {| model_id := model_id m; name := name m; division := division m;
     profile_url := profile_url m; thumbnail := thumbnail m;
     thumbnail_alt := thumbnail_alt m; divisions_meta := divisions_meta m;
     letter_group := letter_group m; slug := slug m;
     attributes := a; gallery_images := gallery_images m; images := images m |}.

Definition set_model_id (m : model_data) (i : option string) : model_data :=
  {| model_id := i; name := name m; division := division m;
     profile_url := profile_url m; thumbnail := thumbnail m;
     thumbnail_alt := thumbnail_alt m; divisions_meta := divisions_meta m;
     letter_group := letter_group m; slug := slug m;
     attributes := attributes m; gallery_images := gallery_images m; images := images m |}.

(** *** What the stages compute, without the state *)

(** The item after [scrape_model_profile] returned. *)
Definition profile_of (w : item_env) (m : model_data) : model_data :=
  match page w with
  | Some found => update_profile m (fst found) (snd found)
  | None => update_profile m ∅ []
  end.

(** The call of [_download_image] for one URL: none when the URL has
    no extension because [urlparse] refuses it. *)
Definition request_for (url stem : string) : list (string * string) :=
  match _get_image_extension url with
  | Some ext => [(url, stem ++ ext)]
  | None => []
  end.

(** The download of the thumbnail, when the item has one. *)
Definition thumbnail_request (m : model_data) : list (string * string) :=
  if Py.truthy (thumbnail m)
  then request_for (default "" (thumbnail m)) "thumbnail"
  else [].

(** The downloads of the gallery URLs, numbered from [i]. *)
Fixpoint gallery_requests (i : nat) (urls : list string) : list (string * string) :=
  match urls with
  | [] => []
  | u :: rest =>
      (request_for u ("portfolio" ++ Py.str_of_nat i) ++ gallery_requests (S i) rest)%list
  end.

(** The URLs [download_model_images] goes through: the thumbnail, when
    there is one, and the gallery within the limit. *)
Definition attempted_urls (cfg : config) (m : model_data) : list string :=
  ((if Py.truthy (thumbnail m) then [default "" (thumbnail m)] else [])
     ++ Py.slice_to (default [] (gallery_images m))
          (default 15%Z (max_images_per_model cfg) - 1)%Z)%list.

Definition limited_gallery (cfg : config) (m : model_data) : list string :=
  Py.slice_to (default [] (gallery_images m))
              (default 15%Z (max_images_per_model cfg) - 1)%Z.

(** The files that were fetched among the requested ones. *)
Definition fetched (cfg : config) (w : item_env) (reqs : list (string * string))
  : list string :=
  map snd (List.filter (fun r => download_succeeds cfg w (fst r) (snd r)) reqs).

Definition image_paths (cfg : config) (w : item_env) (m : model_data)
    (reqs : list (string * string)) : list string :=
  map (fun filename => "images/" ++ default "" (slug m) ++ "/" ++ filename)
      (fetched cfg w reqs).

(** The item after [download_model_images] returned. *)
Definition downloaded (cfg : config) (w : item_env) (m : model_data) : model_data :=
  update_images m
    (image_paths cfg w m
       (thumbnail_request m ++ gallery_requests 1 (limited_gallery cfg m))%list).

(** The item as it reaches validation. *)
Definition staged (cfg : config) (w : item_env) (m : model_data) : model_data :=
  downloaded cfg w (profile_of w m).

(** [validate_model_data] returns [True]. *)
Definition accepts (cfg : config) (m : model_data) : bool :=
  match validate_model_data cfg m with
  | Returns b => b
  | Raises _ => false
  end.

(** Everything an item needs to end up in [models.jsonl]; [d] tells
    whether a browser is kept when the item's turn comes. *)
Definition passes (cfg : config) (d : bool) (w : item_env) (m : model_data) : bool :=
  bool_decide (is_Some (profile_url m)) && bool_decide (is_Some (name m))
  && bool_decide (is_Some (slug m))
  && (d || driver_ready w) && mkdir_ok w
  && accepts cfg (staged cfg w m) && append_ok w.

(** Whether a browser is kept after the item: [setup_driver] is reached
    when the item has its [profile_url] and [name]. *)
Definition driver_after (d : bool) (w : item_env) (m : model_data) : bool :=
  d || (bool_decide (is_Some (profile_url m)) && bool_decide (is_Some (name m))
        && (driver_ready w || driver_assigned w)).

(** Whether a browser is kept after the items, numbered from [i]. *)
Fixpoint driver_through (env : nat -> item_env) (d : bool) (i : nat)
    (models : list model_data) : bool :=
  match models with
  | [] => d
  | m :: rest => driver_through env (driver_after d (env i) m) (S i) rest
  end.

(** The items of a run that end up in [models.jsonl], item numbers from [i]. *)
Fixpoint succeeded (cfg : config) (env : nat -> item_env) (d : bool) (i : nat)
    (models : list model_data) : list model_data :=
  match models with
  | [] => []
  | m :: rest =>
      ((if passes cfg d (env i) m then [staged cfg (env i) m] else [])
         ++ succeeded cfg env (driver_after d (env i) m) (S i) rest)%list
  end.

(** The items after which the run pauses: all but the last, as far as
    they have a [name] for the log line that starts their turn. *)
Definition paused (models : list model_data) : list model_data :=
  filter (fun m => is_Some (name m)) (removelast models).

(** The items counted in [models_failed] a second time, by the handler
    of the loop when the pause after them raises. *)
Definition counted_twice (cfg : config) (models : list model_data) : nat :=
  if sleeps (request_delay cfg) then 0 else length (paused models).

(** The same count along the loop: the items from number [i] on, of
    [total], after which the pause raises. *)
Fixpoint twice_from (cfg : config) (total i : nat) (models : list model_data) : nat :=
  match models with
  | [] => 0
  | m :: rest =>
      (if bool_decide (is_Some (name m)) && Nat.ltb i total
          && negb (sleeps (request_delay cfg))
       then 1 else 0) + twice_from cfg total (S i) rest
  end.

(** The state a run over [models] is in when the turn of item [j]
    (counted from 0) comes. *)
Definition reached (cfg : config) (env : nat -> item_env) (models : list model_data)
    (j : nat) (st : scraper) : scraper :=
  snd (process_models cfg env (length models) 1 (take j models) [] st).

Definition processed_of (st : scraper) : nat := models_processed (the_stats st).
Definition failed_of (st : scraper) : nat := models_failed (the_stats st).

(** The stage leaves the item counters and [models.jsonl] alone. *)
Definition models_untouched (st st' : scraper) : Prop :=
  models_file st' = models_file st
  /\ processed_of st' = processed_of st
  /\ failed_of st' = failed_of st.

Definition fresh : scraper :=
  {| the_stats := Stats 0 0 0 0 0; models_file := []; requests := []; driver := false |}.

(** The state of a scraper whose browser is running. *)
Definition browsing : scraper :=
  {| the_stats := Stats 0 0 0 0 0; models_file := []; requests := []; driver := true |}.

(** An item as the index stage leaves it. *)
Definition index_item (id nm url thumb : string) : model_data :=
  {| model_id := Some id; name := Some nm; division := Some (_extract_division_from_url url);
     profile_url := Some url; thumbnail := Some thumb; thumbnail_alt := Some "";
     divisions_meta := Some ""; letter_group := Some None;
     slug := Some (slugify_name nm);
     attributes := None; gallery_images := None; images := None |}.

Definition gallery_of (n : nat) : list string :=
  map (fun k => "https://apmmodels.com/img/g" ++ Py.str_of_nat k ++ ".png") (seq 1 n).

(** A world in which everything works and the profile shows [n] images. *)
Definition fine (n : nat) : item_env :=
  {| driver_ready := true; driver_assigned := false;
     page := Some (∅, gallery_of n); mkdir_ok := true;
     answered := fun _ _ _ => true; written := fun _ _ => true; append_ok := true |}.

(** A world in which the browser cannot be started. *)
Definition no_driver : item_env :=
  {| driver_ready := false; driver_assigned := false; page := None; mkdir_ok := true;
     answered := fun _ _ _ => true; written := fun _ _ => true; append_ok := true |}.

(** A world in which loading the profile page raises. *)
Definition page_error : item_env :=
  {| driver_ready := true; driver_assigned := false; page := None; mkdir_ok := true;
     answered := fun _ _ _ => true; written := fun _ _ => true; append_ok := true |}.

Definition with_max (k : Z) : config :=
  {| base_url := site; request_delay := Seconds (3 # 2); max_retries := 3%Z;
     max_images_per_model := Some k; min_images_per_model := Some 1%Z;
     required_divisions := Some ["ima"; "mai"; "dev"]; expected_attributes := [] |}.

Definition jane : model_data :=
  index_item "1234" "Jane Doe" "https://apmmodels.com/w/models/dev/dev-1234-jane-doe"
             "https://apmmodels.com/img/jane.jpeg".
Definition mary : model_data :=
  index_item "1300" "Mary Major" "https://apmmodels.com/w/models/ima/ima-1300-mary-major"
             "https://apmmodels.com/img/mary.jpg".
Definition ann : model_data :=
  index_item "1400" "Ann Other" "https://apmmodels.com/w/models/mai/mai-1400-ann-other"
             "https://apmmodels.com/img/ann.png".


(** No browser can be started for item 1 of a run; for the later items
    one can. *)
Definition first_start_fails (i : nat) : item_env :=
  if Nat.eqb i 1 then no_driver else fine 3.


(** The configuration after a user's file that says only
    [validation: {min_images_per_model: 2}]: the [validation] section of
    the defaults is replaced as a whole. *)
Definition stricter_config : config :=
  {| base_url := site; request_delay := Seconds (3 # 2); max_retries := 3%Z;
     max_images_per_model := Some 15%Z; min_images_per_model := Some 2%Z;
     required_divisions := None;
     expected_attributes := ["height"; "bust"; "waist"; "hips"; "shoes"; "hair"; "eyes"] |}.

(** [request_delay: -1] and a validation section with a minimum of no
    images in the user's file. *)
Definition negative_delay_no_minimum : config :=
  {| base_url := site; request_delay := Seconds (-1 # 1); max_retries := 3%Z;
     max_images_per_model := Some 15%Z; min_images_per_model := Some 0%Z;
     required_divisions := Some ["ima"; "mai"; "dev"];
     expected_attributes := ["height"; "bust"; "waist"; "hips"; "shoes"; "hair"; "eyes"] |}.

(** [request_delay: -1] in the user's file. *)
Definition negative_delay : config :=
  {| base_url := site; request_delay := Seconds (-1 # 1); max_retries := 3%Z;
     max_images_per_model := Some 15%Z; min_images_per_model := Some 1%Z;
     required_divisions := Some ["ima"; "mai"; "dev"];
     expected_attributes := ["height"; "bust"; "waist"; "hips"; "shoes"; "hair"; "eyes"] |}.


(** A second entry for the profile of [jane], found under another name. *)
Definition jane_again : model_data :=
  index_item "1234" "J. Doe" "https://apmmodels.com/w/models/dev/dev-1234-jane-doe" "".

(** [jane] as she reaches validation in a working world. *)
Definition jane_staged : model_data := staged default_config (fine 3) jane.


(* ===================================================================== *)
(** ** Stage 2: what is read off a profile page                           *)
(* ===================================================================== *)

(** [name_mapping] of [_normalize_attribute_name]. *)
Definition name_mapping : gmap string string :=
  list_to_map
    [("height", "height"); ("bust", "bust"); ("chest", "bust"); ("waist", "waist");
     ("hips", "hips"); ("shoes", "shoes"); ("shoe", "shoes"); ("hair", "hair");
     ("hair color", "hair"); ("eyes", "eyes"); ("eye color", "eyes");
     ("eye colour", "eyes")].

Definition _normalize_attribute_name (name : string) : string :=
  let name := Py.strip (Py.lower name) in
  default name (name_mapping !! name).

(** A table row: its [td] and [th] cells, each with its text nodes. *)
Definition row_tag : Type := list (list string).

(** One pass of the loop over the rows of the features table. *)
Definition add_feature (attributes : gmap string string) (row : row_tag)
  : gmap string string :=
  match row with
  | name_cell :: value_cell :: _ =>
      let feature_name := Py.lower (get_text_strip name_cell) in
      let feature_value := get_text_strip value_cell in
      if negb (String.eqb feature_name "") && negb (String.eqb feature_value "")
      then <[_normalize_attribute_name feature_name := feature_value]> attributes
      else attributes
  | _ => attributes
  end.

(** The first selector that finds an element decides. *)
Fixpoint first_found {A} (found : list (option A)) : option A :=
  match found with
  | [] => None
  | Some x :: _ => Some x
  | None :: rest => first_found rest
  end.

(** [_extract_model_attributes]; [found] holds [soup.select_one(selector)]
    for the eight table selectors in order, each table as its rows. *)
Definition _extract_model_attributes (found : list (option (list row_tag)))
  : gmap string string :=
  match first_found found with
  | Some rows => fold_left add_feature rows ∅
  | None => ∅
  end.

(** [list(dict.fromkeys(l))]: the first occurrence of each element. *)
Fixpoint fromkeys (l : list string) (seen : gset string) : list string :=
  match l with
  | [] => []
  | x :: rest =>
      if decide (x ∈ seen) then fromkeys rest seen
      else x :: fromkeys rest ({[x]} ∪ seen)
  end.

(** The first selector that finds any image decides. *)
Fixpoint first_nonempty {A} (found : list (list A)) : list A :=
  match found with
  | [] => []
  | [] :: rest => first_nonempty rest
  | (x :: l) :: _ => x :: l
  end.

Section Gallery.

Variable urljoin : string -> string -> option string.
Variable base : string.

(** The loop over the images of the selector that matched; an image
    whose [src] cannot be joined is skipped by the handler of its [try]. *)
Definition gallery_sources (images : list img_tag) : list string :=
  omap (fun img =>
          let src := Py.strip (default "" (img_src img)) in
          if String.eqb src "" then None else absolute urljoin base src)
       images.

(** [_extract_gallery_images]; [found] holds [soup.select(selector)] for
    the seven image selectors in order. *)
Definition _extract_gallery_images (found : list (list img_tag)) : list string :=
  fromkeys (gallery_sources (first_nonempty found)) ∅.

End Gallery.

(* ===================================================================== *)
(** ** [run_scraper]                                                      *)
(* ===================================================================== *)

(** The dictionary [run_scraper] returns; its ['stats'] entry is
    [self.stats], the counters of the state. *)
Record report : Type := Report {
  success : bool;
  report_models : list model_data;
  report_error : option exn
}.

(** The list the pipeline goes on with after the limits. *)
Definition limit_models (test_mode : bool) (max_models : option Z)
    (models : list model_data) : list model_data :=
  if test_mode then Py.slice_to models 3%Z
  else match max_models with
       | Some k => if (k =? 0)%Z then models else Py.slice_to models k
       | None => models
       end.

Section Run.

Variable urljoin : string -> string -> option string.
Variable base : string.

(** [close_driver]: the browser is quit and [self.driver] reset. *)
Definition close_driver : M unit := set_driver false.

(** [run_scraper]: the body of its [try], the handler that turns an
    exception into a failure report, and [close_driver] in the
    [finally]; quitting the browser and closing the session are taken to
    return. *)
Definition run_scraper (cfg : config) (iw : index_env)
    (env : nat -> item_env) (test_mode : bool) (max_models : option Z)
  : scraper -> report * scraper :=
  fun st =>
    let body :=
      let! models := scrape_alphabet_index urljoin base iw in
      match models with
      | [] => ret {| success := false; report_models := []; report_error := None |}
      | _ :: _ =>
          let models := limit_models test_mode max_models models in
          let! processed_models := run_parallel_processing cfg env models in
          ret {| success := true; report_models := processed_models; report_error := None |}
      end in
    let '(result, st') :=
      match body st with
      | (Returns r, st') => (r, st')
      | (Raises e, st') =>
          ({| success := false; report_models := []; report_error := Some e |}, st')
      end in
    (result, snd (close_driver st')).

End Run.

(* ===================================================================== *)
(** ** [_load_config]                                                     *)
(* ===================================================================== *)

(** YAML values as [yaml.safe_load] returns them. *)
#[warnings="-register-all"]
Inductive yaml : Type :=
| YNull
| YBool (b : bool)
| YInt (z : Z)
| YFloat (literal : string)
| YStr (s : string)
| YList (l : list yaml)
| YMap (m : list (string * yaml)).

(** [d.get(key)] on a nested mapping. *)
Fixpoint ymap_get (key : string) (m : list (string * yaml)) : option yaml :=
  match m with
  | [] => None
  | (k, v) :: rest => if String.eqb k key then Some v else ymap_get key rest
  end.

Definition selectors_default : yaml :=
  YMap [("alphabet_index",
         YMap [("letter_group", YStr "div.models > div.letter");
               ("model_list_items", YStr "li.model-entry");
               ("model_name", YStr "li.model-entry a");
               ("profile_url", YStr "li.model-entry a::attr(href)");
               ("model_id", YStr "li.model-entry::attr(data-id)");
               ("divisions_meta", YStr "li.model-entry::attr(data-divisions)");
               ("thumbnail_url", YStr "li.model-entry img::attr(src)");
               ("thumbnail_alt", YStr "li.model-entry img::attr(alt)")]);
        ("profile_page",
         YMap [("feature_rows", YStr "table.model-features tr.model-feature");
               ("feature_name", YStr ".model-feature-name");
               ("feature_value", YStr ".model-feature-value");
               ("gallery_images", YStr "div.picture-frame img::attr(src)")])].

(** [default_config] of [_load_config]. *)
Definition default_settings : gmap string yaml :=
  list_to_map
    [("base_url", YStr "https://apmmodels.com");
     ("index_url", YStr "https://apmmodels.com/w/models/dev");
     ("user_agent", YStr "Mozilla/5.0 (Windows NT 10.0; Win64; x64) AppleWebKit/537.36 (KHTML, like Gecko) Chrome/91.0.4472.124 Safari/537.36");
     ("headless", YBool true);
     ("max_workers", YInt 4);
     ("request_delay", YFloat "1.5");
     ("max_retries", YInt 3);
     ("timeout", YInt 30);
     ("divisions", YList [YStr "ima"; YStr "mai"; YStr "dev"]);
     ("selectors", selectors_default);
     ("expected_attributes",
      YList [YStr "height"; YStr "bust"; YStr "waist"; YStr "hips"; YStr "shoes";
             YStr "hair"; YStr "eyes"]);
     ("validation",
      YMap [("min_images_per_model", YInt 1);
            ("required_divisions", YList [YStr "ima"; YStr "mai"; YStr "dev"])]);
     ("limits", YMap [("max_images_per_model", YInt 15)])].

(** [_load_config]: [None] when no path was given or the file does not
    exist; [Some None] when reading the file raised, or
    [default_config.update] raised before it wrote a key (an empty file,
    a scalar); [Some (Some user)] with the top-level keys that
    [default_config.update(user_config)] wrote: it lets the file decide
    every top-level key it has and leaves the others alone. *)
Definition _load_config (file : option (option (gmap string yaml))) : gmap string yaml :=
  match file with
  | Some (Some user_config) => user_config ∪ default_settings
  | _ => default_settings
  end.

(** [config[section][key]]; [None] when a subscript raises. *)
Definition config_item (settings : gmap string yaml) (section key : string) : option yaml :=
  match settings !! section with
  | Some (YMap m) => ymap_get key m
  | _ => None
  end.

(** Examples for the profile page. *)
Definition features_table : list row_tag :=
  [ [["Height"]; ["178 cm"]];
    [[" Chest "]; ["92"]];
    [["Eye Colour"]; ["Blue"]];
    [["Notes"]];
    [["Hair"]; [" "]];
    [["Bust"]; ["94"]] ].

Definition picture (src : string) : img_tag := {| img_src := Some src; img_alt := None |}.

Definition frames : list img_tag :=
  [picture "/img/a.jpg"; picture " "; picture "https://apmmodels.com/img/b.jpg";
   picture "/img/a.jpg"; {| img_src := None; img_alt := Some "x" |}].


(** An index page with five entries, one of them twice. *)
Definition entry_for (id nm : string) : li_tag :=
  {| li_data_id := Some id; li_data_divisions := None;
     li_a := Some {| a_strings := [nm];
                     a_href := Some ("/w/models/dev/dev-" ++ id ++ "-x");
                     a_img := None |};
     li_img := Some {| img_src := Some ("/img/" ++ id ++ ".jpg"); img_alt := None |} |}.

Definition five_entries : index_page :=
  {| letter_groups := [];
     all_model_entries :=
       [entry_for "1" "Ann"; entry_for "2" "Bea"; entry_for "1" "Ann"; entry_for "3" "Cy";
        entry_for "4" "Di"; entry_for "5" "Eve"];
     alternative_elements := [] |}.


(** What holds of every entry once it is in the dictionary. *)
Definition clean_entry (k v : string) : Prop :=
  k <> "" /\ v <> "" /\ _normalize_attribute_name k = k.


(** An index stage in which the browser starts and the page loads. *)
Definition working_index (page : index_page) : index_env :=
  {| index_driver := true; index_driver_assigned := false; loaded := Some page |}.

(** The computation leaves [models_found] as it is. *)
Definition keeps_found {A} (c : M A) : Prop :=
  forall st, models_found (the_stats (snd (c st))) = models_found (the_stats st).

(** A user file that sets one key of the validation section. *)
Definition stricter_validation : gmap string yaml :=
  {[ "validation" := YMap [("min_images_per_model", YInt 2)] ]}.


(* ===================================================================== *)
(** * Properties                                                          *)
(* ===================================================================== *)

(** ** Characters *)

Ltac ascii_cases c :=
  destruct c as [[] [] [] [] [] [] [] []]; vm_compute;
  try reflexivity; try discriminate; try (intuition congruence).

Lemma chars_str (l : list ascii) : Py.chars (Py.str l) = l.
Proof. apply list_ascii_of_string_of_list_ascii. Qed.

Lemma str_chars (s : string) : Py.str (Py.chars s) = s.
Proof. apply string_of_list_ascii_of_string. Qed.

Lemma chars_nil_iff (s : string) : Py.chars s = [] <-> s = "".
Proof.
  split; intros H.
  - rewrite <- (str_chars s), H. reflexivity.
  - subst s. reflexivity.
Qed.

Lemma isword_lower_char (c : ascii) : Py.isword (Py.lower_char c) = Py.isword c.
Proof. ascii_cases c. Qed.

Lemma isupper_lower_char (c : ascii) : Py.isupper (Py.lower_char c) = false.
Proof. ascii_cases c. Qed.

Lemma isascii_lower_char (c : ascii) : Py.isascii (Py.lower_char c) = Py.isascii c.
Proof. ascii_cases c. Qed.

Lemma lower_char_underscore (c : ascii) : Py.lower_char c = "_"%char <-> c = "_"%char.
Proof. ascii_cases c. Qed.

Lemma isword_not_separator (c : ascii) :
  Py.isword c = true -> Py.isspace c = false /\ c <> "-"%char.
Proof. ascii_cases c. Qed.

Lemma ascii_word_char (c : ascii) :
  Py.isascii c = true -> Py.isword c = true -> Py.isupper c = false ->
  ascii_slug_char c = true.
Proof. ascii_cases c. Qed.

(** ** [str.strip] *)

Lemma lstrip_by_incl p l x : In x (Py.lstrip_by p l) -> In x l.
Proof.
  induction l as [|c t IH]; simpl; [tauto|].
  destruct (p c); simpl; tauto.
Qed.

Lemma lstrip_by_keeps p l x : In x l -> p x = false -> In x (Py.lstrip_by p l).
Proof.
  induction l as [|c t IH]; simpl; [tauto|].
  intros [->|Hin] Hp.
  - rewrite Hp. left. reflexivity.
  - destruct (p c); [auto | right; assumption].
Qed.

Lemma lstrip_by_head p l c t : Py.lstrip_by p l = c :: t -> p c = false.
Proof.
  induction l as [|a l IH]; simpl; [discriminate|].
  destruct (p a) eqn:Ha; [exact IH|].
  intros [= <- <-]. exact Ha.
Qed.

Lemma strip_by_incl p l x : In x (Py.strip_by p l) -> In x l.
Proof.
  unfold Py.strip_by. rewrite <- in_rev. intros H.
  apply lstrip_by_incl in H. rewrite <- in_rev in H.
  eapply lstrip_by_incl; eassumption.
Qed.

Lemma strip_by_keeps p l x : In x l -> p x = false -> In x (Py.strip_by p l).
Proof.
  intros Hin Hp. unfold Py.strip_by. rewrite <- in_rev.
  apply lstrip_by_keeps; [|assumption].
  rewrite <- in_rev. apply lstrip_by_keeps; assumption.
Qed.

Lemma strip_by_nonempty p l :
  Py.strip_by p l <> [] -> exists x, In x (Py.strip_by p l) /\ p x = false.
Proof.
  unfold Py.strip_by. intros H.
  destruct (Py.lstrip_by p (rev (Py.lstrip_by p l))) as [|c t] eqn:E.
  - exfalso. apply H. reflexivity.
  - exists c. split.
    + rewrite <- in_rev. left. reflexivity.
    + eapply lstrip_by_head; eassumption.
Qed.

Lemma not_underscore_set (c : ascii) :
  bool_decide (c ∈ Py.chars "_") = false <-> c <> "_"%char.
Proof.
  rewrite bool_decide_eq_false. unfold Py.chars; simpl.
  rewrite list_elem_of_singleton. tauto.
Qed.

(** ** [re.sub] with the two patterns of [slugify_name] *)

Lemma in_special_set (c : ascii) :
  Re.in_cset special_set c = negb (Py.isword c || Py.isspace c || Ascii.eqb "-" c).
Proof.
  unfold Re.in_cset; simpl.
  rewrite orb_false_r, orb_assoc. reflexivity.
Qed.

Lemma in_separator_set (c : ascii) :
  Re.in_cset separator_set c = Ascii.eqb "-" c || Py.isspace c.
Proof. unfold Re.in_cset; simpl. rewrite orb_false_r. reflexivity. Qed.

(** Deleting the matches of a one-character class is a filter. *)
Lemma sub_one_delete (cs : Re.cset) (s : list ascii) :
  Re.sub_chars (Re.One cs) [] s 0 = List.filter (fun c => negb (Re.in_cset cs c)) s.
Proof.
  induction s as [|c t IH]; simpl; [reflexivity|].
  destruct (Re.in_cset cs c); simpl.
  - rewrite Nat.sub_diag. exact IH.
  - rewrite IH. reflexivity.
Qed.

Lemma run_length_le cs s : Re.run_length cs s <= length s.
Proof.
  induction s as [|c t IH]; simpl; [lia|].
  destruct (Re.in_cset cs c); simpl; lia.
Qed.

Lemma run_length_take cs s x :
  In x (take (Re.run_length cs s) s) -> Re.in_cset cs x = true.
Proof.
  induction s as [|c t IH]; simpl; [tauto|].
  destruct (Re.in_cset cs c) eqn:Hc; simpl; [|tauto].
  intros [<-|H]; auto.
Qed.

Lemma skip_after_run cs (t : list ascii) :
  length t - length (drop (Re.run_length cs t) t) = Re.run_length cs t.
Proof.
  rewrite length_drop. pose proof (run_length_le cs t). lia.
Qed.

(** Every character of the result is the replacement or a character of
    the input outside the class. *)
Lemma sub_plus_from cs repl s skip x :
  In x (Re.sub_chars (Re.Plus cs) repl s skip) ->
  In x repl \/ (In x s /\ Re.in_cset cs x = false).
Proof.
  revert skip. induction s as [|c t IH]; intros skip; simpl; [tauto|].
  destruct skip as [|k].
  - destruct (Re.in_cset cs c) eqn:Hc; simpl.
    + rewrite in_app_iff. intros [H|H]; [tauto|].
      apply IH in H. tauto.
    + intros [<-|H]; [tauto|]. apply IH in H. tauto.
  - intros H. apply IH in H. tauto.
Qed.

(** A character outside the class survives, as long as the characters
    still to be skipped are inside it. *)
Lemma sub_plus_keeps cs repl s skip x :
  (forall y, In y (take skip s) -> Re.in_cset cs y = true) ->
  In x s -> Re.in_cset cs x = false ->
  In x (Re.sub_chars (Re.Plus cs) repl s skip).
Proof.
  revert skip. induction s as [|c t IH]; intros skip Hskip Hin Hx; simpl; [tauto|].
  destruct skip as [|k].
  - destruct (Re.in_cset cs c) eqn:Hc; simpl.
    + rewrite in_app_iff. right.
      destruct Hin as [->|Hin]; [congruence|].
      apply IH; [|assumption..].
      rewrite skip_after_run. apply run_length_take.
    + destruct Hin as [->|Hin]; [left; reflexivity|right].
      apply IH; [|assumption..]. simpl. tauto.
  - simpl in Hskip.
    destruct Hin as [->|Hin].
    + rewrite (Hskip x) in Hx; [discriminate|left; reflexivity].
    + apply IH; [|assumption..]. intros y Hy. apply Hskip. right. exact Hy.
Qed.

(** ** [slugify_name] *)

Lemma slugify_name_steps (name : string) :
  Py.chars (slugify_name name)
  = Py.strip_by (fun c => bool_decide (c ∈ Py.chars "_")) (slug_step2 name).
Proof.
  unfold slugify_name, Py.strip_chars, Re.sub, Py.lower, slug_step2, slug_step1.
  rewrite !chars_str. unfold special_chars.
  change (Py.chars "") with (@nil ascii).
  rewrite sub_one_delete. reflexivity.
Qed.

Lemma slug_step1_char (name : string) (c : ascii) :
  In c (slug_step1 name) <->
  exists c0, In c0 (Py.chars name) /\ c = Py.lower_char c0
             /\ (Py.isword c || Py.isspace c || Ascii.eqb "-" c) = true.
Proof.
  unfold slug_step1. rewrite filter_In, in_map_iff, in_special_set, negb_involutive.
  split.
  - intros [(c0 & <- & Hin) Hk]. exists c0. auto.
  - intros (c0 & Hin & -> & Hk). split; [exists c0; auto|assumption].
Qed.

Lemma slug_step2_char (name : string) (c : ascii) :
  In c (slug_step2 name) -> c <> "_"%char ->
  exists c0, In c0 (Py.chars name) /\ c = Py.lower_char c0 /\ Py.isword c = true.
Proof.
  unfold slug_step2, separators. intros H Hne.
  apply sub_plus_from in H. destruct H as [H|[H Hsep]].
  - simpl in H. destruct H as [<-|[]]. congruence.
  - apply slug_step1_char in H. destruct H as (c0 & Hin & -> & Hk).
    exists c0. split; [assumption|]. split; [reflexivity|].
    fold separator_set in Hsep. rewrite in_separator_set in Hsep.
    apply orb_false_elim in Hsep. destruct Hsep as [H1 H2].
    rewrite H1, H2, !orb_false_r in Hk. exact Hk.
Qed.

Lemma slug_char_cases (name : string) (c : ascii) :
  In c (Py.chars (slugify_name name)) ->
  c = "_"%char \/
  exists c0, In c0 (Py.chars name) /\ c = Py.lower_char c0 /\ Py.isword c = true.
Proof.
  rewrite slugify_name_steps. intros H. apply strip_by_incl in H.
  destruct (Ascii.ascii_dec c "_") as [->|Hne]; [left; reflexivity|right].
  apply slug_step2_char; assumption.
Qed.

Lemma word_char_survives (name : string) (c0 : ascii) :
  In c0 (Py.chars name) -> Py.isword c0 = true -> c0 <> "_"%char ->
  In (Py.lower_char c0) (Py.chars (slugify_name name)).
Proof.
  intros Hin Hw Hne.
  assert (Hw' : Py.isword (Py.lower_char c0) = true) by (rewrite isword_lower_char; exact Hw).
  destruct (isword_not_separator _ Hw') as [Hsp Hdash].
  rewrite slugify_name_steps. apply strip_by_keeps.
  - unfold slug_step2, separators. apply sub_plus_keeps.
    + simpl. tauto.
    + apply slug_step1_char. exists c0. rewrite Hw'. auto.
    + fold separator_set. rewrite in_separator_set, Hsp, orb_false_r.
      apply Ascii.eqb_neq. congruence.
  - apply not_underscore_set. rewrite lower_char_underscore. exact Hne.
Qed.

Lemma slugify_name_nonempty_iff (name : string) :
  slugify_name name <> "" <->
  exists c, In c (Py.chars name) /\ Py.isword c = true /\ c <> "_"%char.
Proof.
  split.
  - intros H.
    assert (Hne : Py.chars (slugify_name name) <> []).
    { intros E. apply H. apply chars_nil_iff. exact E. }
    rewrite slugify_name_steps in Hne.
    apply strip_by_nonempty in Hne. destruct Hne as (x & Hx & Hp).
    apply not_underscore_set in Hp. apply strip_by_incl in Hx.
    destruct (slug_step2_char _ _ Hx Hp) as (c0 & Hin & -> & Hw).
    exists c0. split; [assumption|]. split.
    + rewrite <- isword_lower_char. exact Hw.
    + intros ->. apply Hp. reflexivity.
  - intros (c & Hin & Hw & Hne) E.
    pose proof (word_char_survives _ _ Hin Hw Hne) as H.
    rewrite E in H. exact H.
Qed.

(** ** The matcher *)

Lemma strip_prefix_app p l t : Py.strip_prefix p l = Some t <-> l = (p ++ t)%list.
Proof.
  revert l. induction p as [|a p IH]; intros l; simpl.
  - split; [intros [= ->]; reflexivity | intros ->; reflexivity].
  - destruct l as [|b l]; [split; discriminate|].
    destruct (Ascii.eqb_spec a b) as [->|Hne].
    + rewrite IH. split; [intros ->; reflexivity | intros [= ->]; reflexivity].
    + split; [discriminate | intros [= -> _]; congruence].
Qed.

Lemma contains_chars_iff p l :
  Py.contains_chars p l = true <-> exists pre post, l = (pre ++ p ++ post)%list.
Proof.
  induction l as [|c t IH]; simpl.
  - destruct (Py.strip_prefix p []) as [r|] eqn:E.
    + apply strip_prefix_app in E. split; [|reflexivity].
      intros _. exists [], r. exact E.
    + split; [discriminate|]. intros (pre & post & H).
      destruct pre; [|discriminate]. simpl in H.
      apply strip_prefix_app in H. congruence.
  - destruct (Py.strip_prefix p (c :: t)) as [r|] eqn:E.
    + apply strip_prefix_app in E. split; [|reflexivity].
      intros _. exists [], r. exact E.
    + rewrite IH. split.
      * intros (pre & post & ->). exists (c :: pre), post. reflexivity.
      * intros (pre & post & H). destruct pre as [|a pre].
        -- simpl in H. apply strip_prefix_app in H. congruence.
        -- injection H as -> ->. exists pre, post. reflexivity.
Qed.

Lemma in_matches_chr c s rest g :
  In (rest, g) (Re.matches (Re.Chr c) s) <-> s = c :: rest /\ g = [].
Proof.
  simpl. destruct s as [|c' t]; [simpl; split; [tauto|intros [? _]; discriminate]|].
  destruct (Ascii.eqb_spec c c') as [->|Hne]; simpl.
  - split; [intros [[= -> <-]|[]]; auto | intros [[= ->] ->]; auto].
  - split; [tauto | intros [[= ? _] _]; congruence].
Qed.

Lemma in_matches_seq r1 r2 s rest g :
  In (rest, g) (Re.matches (Re.Seq r1 r2) s) <->
  exists mid g1 g2, In (mid, g1) (Re.matches r1 s) /\ In (rest, g2) (Re.matches r2 mid)
                    /\ g = (g1 ++ g2)%list.
Proof.
  simpl. rewrite in_flat_map. split.
  - intros ([mid g1] & H1 & H2). apply in_map_iff in H2.
    destruct H2 as ([rest' g2] & [= -> <-] & H2). exists mid, g1, g2. auto.
  - intros (mid & g1 & g2 & H1 & H2 & ->). exists (mid, g1). split; [assumption|].
    apply in_map_iff. exists (rest, g2). auto.
Qed.

Lemma in_matches_alt r1 r2 s x :
  In x (Re.matches (Re.Alt r1 r2) s) <-> In x (Re.matches r1 s) \/ In x (Re.matches r2 s).
Proof. simpl. apply in_app_iff. Qed.

Lemma in_matches_group r s rest g :
  In (rest, g) (Re.matches (Re.Group r) s) <->
  exists g', In (rest, g') (Re.matches r s)
             /\ g = (g' ++ [Py.str (take (length s - length rest) s)])%list.
Proof.
  simpl. rewrite in_map_iff. split.
  - intros ([rest' g'] & [= -> <-] & H). exists g'. auto.
  - intros (g' & H & ->). exists (rest, g'). auto.
Qed.

Lemma in_matches_lit c l s rest g :
  In (rest, g) (Re.matches (Re.lit_chars c l) s) <-> s = (c :: l ++ rest)%list /\ g = [].
Proof.
  revert c s. induction l as [|c' l IH]; intros c s.
  - simpl Re.lit_chars. apply in_matches_chr.
  - simpl Re.lit_chars. rewrite in_matches_seq. split.
    + intros (mid & g1 & g2 & H1 & H2 & ->).
      apply in_matches_chr in H1. destruct H1 as [-> ->].
      apply IH in H2. destruct H2 as [-> ->]. auto.
    + intros [-> ->]. exists (c' :: l ++ rest)%list, [], [].
      rewrite in_matches_chr, IH. auto.
Qed.

Lemma in_matches_plus cs s rest g :
  In (rest, g) (Re.matches (Re.Plus cs) s) -> g = [].
Proof.
  simpl. generalize (Re.run_length cs s). intros k.
  induction k as [|k IH]; simpl; [tauto|].
  intros [[= _ <-]|H]; auto.
Qed.

Lemma search_chars_inv r s g :
  Re.search_chars r s = Some g ->
  exists pre s' rest, s = (pre ++ s')%list /\ In (rest, g) (Re.matches r s').
Proof.
  induction s as [|c t IH]; simpl.
  - destruct (Re.matches r []) as [|[rest g'] ms] eqn:E; [discriminate|].
    intros [= ->]. exists [], [], rest. rewrite E. simpl. auto.
  - destruct (Re.matches r (c :: t)) as [|[rest g'] ms] eqn:E.
    + intros H. destruct (IH H) as (pre & s' & rest & -> & Hin).
      exists (c :: pre), s', rest. auto.
    + intros [= ->]. exists [], (c :: t), rest. rewrite E. simpl. auto.
Qed.

Lemma search_chars_none r pre s' :
  Re.search_chars r (pre ++ s') = None -> Re.matches r s' = [].
Proof.
  induction pre as [|c pre IH]; simpl.
  - destruct s' as [|c t]; simpl; destruct (Re.matches r _) as [|[? ?] ?]; congruence.
  - destruct (Re.matches r (c :: pre ++ s')) as [|[? ?] ?]; [exact IH|discriminate].
Qed.

(** The group [(ima|mai|dev)] captures one of its three words. *)
Lemma in_matches_division_alt s rest g :
  In (rest, g) (Re.matches division_alt s) <->
  exists d, (d = "ima" \/ d = "mai" \/ d = "dev")
            /\ s = (Py.chars d ++ rest)%list /\ g = [d].
Proof.
  unfold division_alt. rewrite in_matches_group.
  setoid_rewrite in_matches_alt. setoid_rewrite in_matches_alt.
  unfold Re.lit; simpl Py.chars. setoid_rewrite in_matches_lit.
  split.
  - intros (g' & [[-> ->] | [[-> ->] | [-> ->]]] & ->); simpl.
    all: replace (S (S (S (length rest))) - length rest) with 3 by lia.
    all: simpl; eauto 10.
  - intros (d & [-> | [-> | ->]] & -> & ->); exists []; simpl.
    all: replace (S (S (S (length rest))) - length rest) with 3 by lia.
    all: simpl; auto 10.
Qed.

(** ** [_extract_division_from_url] *)

Lemma in_matches_pattern1 s rest g :
  In (rest, g) (Re.matches (Re.Seq (Re.lit "/models/") (Re.Seq division_alt (Re.Chr "/"))) s) <->
  exists d, is_division d
            /\ s = (Py.chars "/models/" ++ Py.chars d ++ "/"%char :: rest)%list /\ g = [d].
Proof.
  split.
  - intros H. apply in_matches_seq in H. destruct H as (mid & g1 & g2 & H1 & H2 & ->).
    apply in_matches_lit in H1. destruct H1 as [-> ->].
    apply in_matches_seq in H2. destruct H2 as (mid' & g3 & g4 & H3 & H4 & ->).
    apply in_matches_division_alt in H3. destruct H3 as (d & Hd & -> & ->).
    apply in_matches_chr in H4. destruct H4 as [-> ->].
    exists d. auto.
  - intros (d & Hd & -> & ->).
    apply in_matches_seq.
    exists (Py.chars d ++ "/"%char :: rest)%list, [], [d]. split.
    { apply in_matches_lit. auto. }
    split; [|reflexivity].
    apply in_matches_seq. exists ("/"%char :: rest), [d], []. split.
    { apply in_matches_division_alt. exists d. auto. }
    split; [|reflexivity]. apply in_matches_chr. auto.
Qed.

Lemma pattern_captures_division p s rest g :
  In p patterns -> In (rest, g) (Re.matches p s) -> exists d, is_division d /\ g = [d].
Proof.
  unfold patterns. simpl. intros [<- | [<- | [<- | []]]] H.
  - apply in_matches_pattern1 in H. destruct H as (d & Hd & _ & ->). eauto.
  - apply in_matches_seq in H. destruct H as (mid & g1 & g2 & H1 & H2 & ->).
    apply in_matches_chr in H1. destruct H1 as [_ ->].
    apply in_matches_seq in H2. destruct H2 as (mid' & g3 & g4 & H3 & H4 & ->).
    apply in_matches_division_alt in H3. destruct H3 as (d & Hd & _ & ->).
    apply in_matches_seq in H4. destruct H4 as (mid'' & g5 & g6 & H5 & H6 & ->).
    apply in_matches_chr in H5. destruct H5 as [_ ->].
    apply in_matches_plus in H6. subst g6. exists d. auto.
  - apply in_matches_seq in H. destruct H as (mid & g1 & g2 & H1 & H2 & ->).
    apply in_matches_chr in H1. destruct H1 as [_ ->].
    apply in_matches_seq in H2. destruct H2 as (mid' & g3 & g4 & H3 & H4 & ->).
    apply in_matches_division_alt in H3. destruct H3 as (d & Hd & _ & ->).
    apply in_matches_chr in H4. destruct H4 as [_ ->]. exists d. auto.
Qed.

Lemma search_captures_division p url g :
  In p patterns -> Re.search p url = Some g -> is_division (Re.group 1 g).
Proof.
  intros Hp H. apply search_chars_inv in H. destruct H as (pre & s' & rest & _ & Hin).
  destruct (pattern_captures_division _ _ _ _ Hp Hin) as (d & Hd & ->). exact Hd.
Qed.

Lemma first_division_first_match ps url pre p post g :
  ps = (pre ++ p :: post)%list ->
  (forall q, In q pre -> Re.search q url = None) ->
  Re.search p url = Some g ->
  first_division ps url = Re.group 1 g.
Proof.
  intros -> Hpre Hp. induction pre as [|q pre IH]; simpl.
  - rewrite Hp. reflexivity.
  - rewrite (Hpre q) by (left; reflexivity). apply IH.
    intros q' Hq'. apply Hpre. right. exact Hq'.
Qed.

Lemma first_division_no_match ps url :
  (forall q, In q ps -> Re.search q url = None) -> first_division ps url = "unknown".
Proof.
  induction ps as [|q ps IH]; simpl; intros H; [reflexivity|].
  rewrite (H q) by (left; reflexivity). apply IH. intros q' Hq'. apply H. right. exact Hq'.
Qed.

Lemma first_division_range ps url :
  (forall q, In q ps -> In q patterns) ->
  is_division (first_division ps url) \/ first_division ps url = "unknown".
Proof.
  induction ps as [|q ps IH]; simpl; intros H; [right; reflexivity|].
  destruct (Re.search q url) as [g|] eqn:E.
  - left. eapply search_captures_division; [|exact E]. apply H. left. reflexivity.
  - apply IH. intros q' Hq'. apply H. right. exact Hq'.
Qed.

Lemma models_dev_leftmost (url : string) :
  Py.contains "/models/dev/" url = true ->
  Py.contains "/models/ima/" url = false ->
  Py.contains "/models/mai/" url = false ->
  Re.search (Re.Seq (Re.lit "/models/") (Re.Seq division_alt (Re.Chr "/"))) url = Some ["dev"].
Proof.
  unfold Py.contains, Re.search. intros Hdev Hima Hmai.
  apply contains_chars_iff in Hdev. destruct Hdev as (pre & post & Hs).
  destruct (Re.search_chars _ (Py.chars url)) as [g|] eqn:E.
  - apply search_chars_inv in E. destruct E as (pre' & s' & rest & Hs' & Hin).
    apply in_matches_pattern1 in Hin. destruct Hin as (d & Hd & -> & ->).
    destruct Hd as [-> | [-> | ->]]; [| |reflexivity]; exfalso.
    + assert (H : Py.contains_chars (Py.chars "/models/ima/") (Py.chars url) = true)
        by (apply contains_chars_iff; exists pre', rest; rewrite Hs'; reflexivity).
      congruence.
    + assert (H : Py.contains_chars (Py.chars "/models/mai/") (Py.chars url) = true)
        by (apply contains_chars_iff; exists pre', rest; rewrite Hs'; reflexivity).
      congruence.
  - exfalso. rewrite Hs in E. apply search_chars_none in E.
    assert (H : In (post, ["dev"])
                   (Re.matches (Re.Seq (Re.lit "/models/") (Re.Seq division_alt (Re.Chr "/")))
                      (Py.chars "/models/dev/" ++ post)%list)).
    { apply in_matches_pattern1. exists "dev". unfold is_division. auto. }
    rewrite E in H. exact H.
Qed.

(** C5 (amended).  [_extract_division_from_url] goes through its three
    patterns in order and returns group 1 of the first one that matches
    anywhere in the URL; when none matches the result is "unknown"; so
    the result is always one of "ima", "mai", "dev" and "unknown".  A URL
    that contains "/models/dev/" and contains neither "/models/ima/" nor
    "/models/mai/" yields "dev". *)
Theorem extract_division_first_match (url : string) :
  (forall pre p post g,
      patterns = (pre ++ p :: post)%list ->
      (forall q, In q pre -> Re.search q url = None) ->
      Re.search p url = Some g ->
      _extract_division_from_url url = Re.group 1 g)
  /\ ((forall q, In q patterns -> Re.search q url = None) ->
      _extract_division_from_url url = "unknown")
  /\ In (_extract_division_from_url url) ["ima"; "mai"; "dev"; "unknown"]
  /\ (Py.contains "/models/dev/" url = true ->
      Py.contains "/models/ima/" url = false ->
      Py.contains "/models/mai/" url = false ->
      _extract_division_from_url url = "dev").
Proof.
  unfold _extract_division_from_url. repeat split.
  - intros pre p post g. apply first_division_first_match.
  - apply first_division_no_match.
  - destruct (first_division_range patterns url) as [[H|[H|H]]|H]; [auto|..];
      rewrite H; simpl; auto.
  - intros Hdev Hima Hmai.
    apply (first_division_first_match patterns url []
             (Re.Seq (Re.lit "/models/") (Re.Seq division_alt (Re.Chr "/")))
             (tl patterns) ["dev"]).
    + reflexivity.
    + intros q [].
    + apply models_dev_leftmost; assumption.
Qed.

Lemma extract_division_first_match_witness :
  _extract_division_from_url "https://apmmodels.com/w/models/dev/dev-1234-jane-doe" = "dev"
  /\ _extract_division_from_url "https://apmmodels.com/contact" = "unknown".
Proof.
  split.
  - apply (extract_division_first_match
             "https://apmmodels.com/w/models/dev/dev-1234-jane-doe"); reflexivity.
  - apply (extract_division_first_match "https://apmmodels.com/contact").
    intros q Hq. simpl in Hq.
    destruct Hq as [<- | [<- | [<- | []]]]; reflexivity.
Defined.

(** C5, as stated, fails: the leftmost match of the first pattern decides,
    so an earlier "/models/ima/" wins over a later "/models/dev/". *)
Lemma models_dev_url_yields_ima :
  ~ (forall url, Py.contains "/models/dev/" url = true ->
                 _extract_division_from_url url = "dev").
Proof.
  intros H.
  specialize (H "https://apmmodels.com/models/ima/x/models/dev/y" eq_refl).
  vm_compute in H. discriminate H.
Qed.

(** ** The slug *)

(** C3 (amended).  [slugify_name] is a function of the name alone; every
    character of its result is a word character (the class [\w]) that is
    neither an upper-case letter, nor white space, nor a hyphen; when the
    name consists of ASCII characters, every character of the result is
    one of [a-z], [0-9] and [_]; and "Jane D'Oe-Smith" gives
    "jane_doe_smith". *)
Theorem slugify_name_charset :
  (forall n1 n2, n1 = n2 -> slugify_name n1 = slugify_name n2)
  /\ (forall name c,
        In c (Py.chars (slugify_name name)) ->
        (Py.isword c = true /\ Py.isupper c = false /\ Py.isspace c = false /\ c <> "-"%char)
        /\ ((forall a, In a (Py.chars name) -> Py.isascii a = true) ->
            ascii_slug_char c = true))
  /\ slugify_name "Jane D'Oe-Smith" = "jane_doe_smith".
Proof.
  split; [intros n1 n2 ->; reflexivity|].
  split; [|vm_compute; reflexivity].
  intros nm c Hc. destruct (slug_char_cases _ _ Hc) as [->|(c0 & Hin & -> & Hw)].
  - split; [|reflexivity]. repeat split; try reflexivity. discriminate.
  - destruct (isword_not_separator _ Hw) as [Hsp Hdash].
    split; [auto using isupper_lower_char|].
    intros Hascii. apply ascii_word_char; [|assumption|apply isupper_lower_char].
    rewrite isascii_lower_char. apply Hascii. exact Hin.
Qed.

Lemma slugify_name_charset_witness :
  ascii_slug_char "j" = true /\ Py.isword "j" = true.
Proof.
  destruct slugify_name_charset as (_ & H & _).
  destruct (H "Jane D'Oe-Smith" "j"%char) as [(Hw & _) Ha].
  - vm_compute. left. reflexivity.
  - split; [|exact Hw]. apply Ha.
    intros a Ha'. vm_compute in Ha'.
    repeat (destruct Ha' as [<-|Ha']; [reflexivity|]). destruct Ha'.
Defined.

(** C3, as stated, fails: [\w] also keeps word characters that are no
    letters, digits or underscores, such as the fraction one quarter
    (code point 188). *)
Lemma slugify_name_keeps_fraction :
  ~ (forall name c,
        In c (Py.chars (slugify_name name)) ->
        Py.islower c || Py.isdigit c || Py.code_is 95 c = true).
Proof.
  intros H.
  specialize (H (String "188"%char "") "188"%char).
  vm_compute in H. specialize (H (or_introl eq_refl)). discriminate H.
Qed.

(** The step of an extractor at which a URL is made absolute. *)
Ltac joined H :=
  match type of H with
  | match ?o with Some _ => _ | None => None end = Some _ =>
      destruct o eqn:?; [|discriminate H]
  end.

(** All the steps of an extractor that returned an item. *)
Ltac extracted H :=
  repeat first
    [ joined H
    | match type of H with
      | (if ?b then _ else _) = Some _ => destruct b eqn:?; [discriminate H|]
      end ].

Lemma extracted_name_and_slug urljoin base m :
  (exists entry letter, _extract_model_from_entry urljoin base entry letter = Some m)
  \/ (exists link, _extract_model_from_link urljoin base link = Some m) ->
  exists n, name m = Some n /\ n <> "" /\ slug m = Some (slugify_name n).
Proof.
  intros [(entry & letter & H)|(link & H)].
  - unfold _extract_model_from_entry in H.
    destruct (li_a entry) as [link|]; [|discriminate].
    destruct (String.eqb_spec (get_text_strip (a_strings link)) "") as [|Hn]; [discriminate|].
    destruct (String.eqb (Py.strip (default "" (a_href link))) ""); [discriminate|].
    joined H.
    joined H.
    injection H as <-. simpl. eauto.
  - unfold _extract_model_from_link in H.
    match type of H with
    | (if String.eqb ?n "" then _ else _) = _ =>
        destruct (String.eqb_spec n "") as [|Hn]; [discriminate|]
    end.
    destruct (String.eqb (Py.strip (default "" (a_href link))) ""); [discriminate|].
    joined H.
    destruct (negb (existsb _ _)); [discriminate|].
    joined H.
    injection H as <-. simpl. eauto.
Qed.

(** An item produced by either index extractor has a non-empty name
    and the slug of that name; the slug is non-empty exactly when the
    name contains a word character other than the underscore; and the
    slug consists of word characters only, so it holds no path
    separator, dot or white space. *)
Lemma extracted_slug_nonempty_iff urljoin base m :
  (exists entry letter, _extract_model_from_entry urljoin base entry letter = Some m)
  \/ (exists link, _extract_model_from_link urljoin base link = Some m) ->
  exists n, name m = Some n /\ n <> "" /\ slug m = Some (slugify_name n)
            /\ (slugify_name n <> "" <->
                exists c, In c (Py.chars n) /\ Py.isword c = true /\ c <> "_"%char)
            /\ (forall c, In c (Py.chars (slugify_name n)) -> Py.isword c = true).
Proof.
  intros H. destruct (extracted_name_and_slug _ _ _ H) as (n & Hn & Hne & Hs).
  exists n. split; [exact Hn|]. split; [exact Hne|]. split; [exact Hs|].
  split; [apply slugify_name_nonempty_iff|].
  intros c Hc. destruct (slug_char_cases _ _ Hc) as [->|(c0 & _ & _ & Hw)];
    [reflexivity|exact Hw].
Qed.

(** C9 at two entries named "???" and "!!!": the extractor accepts
    both names, the slug of both is empty, and their images are written
    side by side to the shared image root, [images//thumbnail.jpg] and
    [images//portfolio1.png] for the one and for the other, although
    they are different models with different thumbnails. *)
Theorem empty_slug_shares_image_root :
  exists m1 m2,
    _extract_model_from_entry urljoin_root site question_marks_entry None = Some m1
    /\ _extract_model_from_entry urljoin_root site exclamation_marks_entry None = Some m2
    /\ name m1 = Some "???" /\ name m2 = Some "!!!"
    /\ profile_url m1 <> profile_url m2 /\ thumbnail m1 <> thumbnail m2
    /\ slug m1 = Some "" /\ slug m2 = Some ""
    /\ images (staged default_config (fine 1) m1)
       = Some ["images//thumbnail.jpg"; "images//portfolio1.png"]
    /\ images (staged default_config (fine 1) m2)
       = Some ["images//thumbnail.jpg"; "images//portfolio1.png"].
Proof.
  eexists _, _. split; [vm_compute; reflexivity|]. split; [vm_compute; reflexivity|].
  vm_compute. repeat split; congruence.
Qed.

(** ** Where the name comes from *)

(** C8 (amended).  The entry extractor takes the name from the link text
    alone and rejects an entry whose link text is empty, whatever the
    image says.  The link extractor takes the stripped image description
    when the link has an image with a non-empty [alt], and the link text
    otherwise. *)
Theorem extracted_name_source urljoin base :
  (forall entry letter m,
      _extract_model_from_entry urljoin base entry letter = Some m ->
      exists link, li_a entry = Some link
                   /\ name m = Some (get_text_strip (a_strings link))
                   /\ get_text_strip (a_strings link) <> "")
  /\ (forall entry letter link,
        li_a entry = Some link -> get_text_strip (a_strings link) = "" ->
        _extract_model_from_entry urljoin base entry letter = None)
  /\ (forall link img m,
        _extract_model_from_link urljoin base link = Some m ->
        a_img link = Some img -> Py.truthy (img_alt img) = true ->
        name m = Some (Py.strip (default "" (img_alt img))))
  /\ (forall link m,
        _extract_model_from_link urljoin base link = Some m ->
        (forall img, a_img link = Some img -> Py.truthy (img_alt img) = false) ->
        name m = Some (get_text_strip (a_strings link))).
Proof.
  repeat split.
  - intros entry letter m H. unfold _extract_model_from_entry in H.
    destruct (li_a entry) as [link|]; [|discriminate].
    destruct (String.eqb_spec (get_text_strip (a_strings link)) "") as [|Hn]; [discriminate|].
    destruct (String.eqb (Py.strip (default "" (a_href link))) ""); [discriminate|].
    joined H.
    joined H.
    injection H as <-. exists link. auto.
  - intros entry letter link Hl Ht. unfold _extract_model_from_entry.
    rewrite Hl, Ht. reflexivity.
  - intros link img m H Hi Ha. unfold _extract_model_from_link in H.
    rewrite Hi in H. rewrite Ha in H.
    destruct (String.eqb (Py.strip (default "" (img_alt img))) ""); [discriminate|].
    destruct (String.eqb (Py.strip (default "" (a_href link))) ""); [discriminate|].
    joined H.
    destruct (negb (existsb _ _)); [discriminate|].
    joined H.
    injection H as <-. reflexivity.
  - intros link m H Hi. unfold _extract_model_from_link in H.
    assert (Ha : Py.truthy (match a_img link with Some i => img_alt i | None => None end) = false).
    { destruct (a_img link) as [img|]; [apply Hi; reflexivity|reflexivity]. }
    rewrite Ha in H.
    destruct (String.eqb_spec (get_text_strip (a_strings link)) "") as [E|E]; simpl in H.
    + discriminate.
    + apply String.eqb_neq in E. rewrite E in H.
      destruct (String.eqb (Py.strip (default "" (a_href link))) ""); [discriminate|].
      joined H.
      match type of H with (if ?b then _ else _) = _ => destruct b end; [discriminate|].
      joined H.
      injection H as <-. reflexivity.
Qed.

Lemma extracted_name_source_witness :
  (exists m, _extract_model_from_entry urljoin_root site jane_entry (Some "J") = Some m
             /\ name m = Some "Jane Doe")
  /\ _extract_model_from_entry urljoin_root site untitled_entry None = None
  /\ (exists m, _extract_model_from_link urljoin_root site jane_link = Some m
                /\ name m = Some "Portrait").
Proof.
  destruct (extracted_name_source urljoin_root site) as (H1 & H2 & H3 & _).
  split; [|split].
  - destruct (_extract_model_from_entry urljoin_root site jane_entry (Some "J"))
      as [m|] eqn:E; [|vm_compute in E; discriminate E].
    exists m. split; [reflexivity|].
    destruct (H1 _ _ _ E) as (link & Hl & Hn & _).
    injection Hl as <-. rewrite Hn. vm_compute. reflexivity.
  - apply (H2 untitled_entry None
             {| a_strings := ["  "];
                a_href := Some "https://apmmodels.com/w/models/dev/dev-5-ann";
                a_img := Some {| img_src := None; img_alt := Some "Ann" |} |});
      vm_compute; reflexivity.
  - destruct (_extract_model_from_link urljoin_root site jane_link)
      as [m|] eqn:E; [|vm_compute in E; discriminate E].
    exists m. split; [reflexivity|].
    rewrite (H3 jane_link {| img_src := Some "https://apmmodels.com/img/jane.jpg";
                             img_alt := Some "Portrait" |} m E eq_refl eq_refl).
    vm_compute. reflexivity.
Defined.

(** C8, as stated, fails: with a non-empty link text the link extractor
    still prefers the image description. *)
Lemma link_name_prefers_alt :
  ~ (forall urljoin base link m,
        _extract_model_from_link urljoin base link = Some m ->
        get_text_strip (a_strings link) <> "" ->
        name m = Some (get_text_strip (a_strings link))).
Proof.
  intros H.
  assert (E : exists m, _extract_model_from_link urljoin_root site jane_link = Some m
                        /\ name m = Some "Portrait").
  { eexists. split; vm_compute; reflexivity. }
  destruct E as (m & Hm & Hn).
  specialize (H urljoin_root site jane_link m Hm).
  rewrite Hn in H.
  assert (T : get_text_strip (a_strings jane_link) = "Jane Doe") by (vm_compute; reflexivity).
  rewrite T in H.
  assert (F : Some "Portrait" = Some "Jane Doe") by (apply H; discriminate).
  discriminate F.
Qed.

(** ** The stages on the state *)

Lemma models_untouched_refl st : models_untouched st st.
Proof. repeat split. Qed.

Lemma models_untouched_trans st1 st2 st3 :
  models_untouched st1 st2 -> models_untouched st2 st3 -> models_untouched st1 st3.
Proof. unfold models_untouched. intros (-> & -> & ->) (-> & -> & ->). auto. Qed.

Lemma with_driver_same st : with_driver (driver st) st = st.
Proof. destruct st. reflexivity. Qed.

Lemma with_driver_fields d st :
  the_stats (with_driver d st) = the_stats st
  /\ models_file (with_driver d st) = models_file st
  /\ requests (with_driver d st) = requests st
  /\ driver (with_driver d st) = d.
Proof. repeat split. Qed.

(** [setup_driver] returns when a browser is kept or starts, and then a
    browser is kept; otherwise it raises, and a browser is kept when the
    exception came after the assignment. *)
Lemma setup_driver_returns ready assigned st :
  driver st || ready = true ->
  setup_driver ready assigned st = (Returns tt, with_driver true st).
Proof.
  unfold setup_driver. intros H. destruct (driver st) eqn:E.
  - rewrite <- E, with_driver_same. reflexivity.
  - simpl in H. rewrite H. reflexivity.
Qed.

Lemma setup_driver_raises ready assigned st :
  driver st || ready = false ->
  setup_driver ready assigned st = (Raises WebDriverException, with_driver assigned st).
Proof.
  unfold setup_driver. intros H. destruct (driver st) eqn:E; [discriminate H|].
  simpl in H. rewrite H. destruct assigned; [reflexivity|].
  rewrite <- E, with_driver_same. reflexivity.
Qed.

Lemma fetched_app cfg w rs1 rs2 : fetched cfg w (rs1 ++ rs2) = (fetched cfg w rs1 ++ fetched cfg w rs2)%list.
Proof.
  unfold fetched. rewrite List.filter_app, List.map_app. reflexivity.
Qed.

Lemma download_one_spec cfg w url stem st :
  exists st', download_one cfg w url stem st = (Returns (fetched cfg w (request_for url stem)), st')
              /\ requests st' = (requests st ++ request_for url stem)%list
              /\ models_untouched st st'
              /\ driver st' = driver st.
Proof.
  unfold download_one, try_except, bind, image_extension, request_for, _download_image, fetched.
  destruct (_get_image_extension url) as [ext|]; simpl.
  - destruct (download_succeeds cfg w url (stem ++ ext)); simpl; eexists; repeat split.
  - eexists. rewrite app_nil_r. repeat split.
Qed.

Lemma download_gallery_spec cfg w urls : forall i st,
  exists st', download_gallery cfg w i urls st = (Returns (fetched cfg w (gallery_requests i urls)), st')
              /\ requests st' = (requests st ++ gallery_requests i urls)%list
              /\ models_untouched st st'
              /\ driver st' = driver st.
Proof.
  induction urls as [|u rest IH]; intros i st; simpl.
  - exists st. rewrite app_nil_r. repeat split.
  - unfold bind.
    destruct (download_one_spec cfg w u ("portfolio" ++ Py.str_of_nat i) st)
      as (st1 & -> & Hr1 & Hu1 & Hd1).
    destruct (IH (S i) st1) as (st2 & -> & Hr2 & Hu2 & Hd2).
    exists st2. split; [|split; [|split]].
    + unfold ret. rewrite <- fetched_app. reflexivity.
    + rewrite Hr2, Hr1, <- app_assoc. reflexivity.
    + eapply models_untouched_trans; eassumption.
    + congruence.
Qed.

Lemma download_model_images_spec cfg w m st :
  is_Some (name m) -> is_Some (slug m) -> mkdir_ok w = true ->
  exists st', download_model_images cfg w m st = (Returns (downloaded cfg w m), st')
              /\ requests st'
                 = (requests st ++ thumbnail_request m
                      ++ gallery_requests 1 (limited_gallery cfg m))%list
              /\ models_untouched st st'
              /\ driver st' = driver st.
Proof.
  intros [n Hn] [s Hs] Hmk.
  unfold download_model_images, downloaded, image_paths, thumbnail_request, limited_gallery,
    mkdir, bind.
  rewrite Hn, Hs, Hmk. simpl.
  destruct (Py.truthy (thumbnail m)).
  - destruct (download_one_spec cfg w (default "" (thumbnail m)) "thumbnail" st)
      as (st1 & -> & Hr1 & Hu1 & Hd1).
    destruct (download_gallery_spec cfg w
                (Py.slice_to (default [] (gallery_images m))
                   (default 15%Z (max_images_per_model cfg) - 1)%Z) 1 st1)
      as (st2 & -> & Hr2 & Hu2 & Hd2).
    exists st2. split; [|split; [|split]].
    + unfold ret. rewrite fetched_app. reflexivity.
    + rewrite Hr2, Hr1, <- app_assoc. reflexivity.
    + eapply models_untouched_trans; eassumption.
    + congruence.
  - unfold ret at 1.
    destruct (download_gallery_spec cfg w
                (Py.slice_to (default [] (gallery_images m))
                   (default 15%Z (max_images_per_model cfg) - 1)%Z) 1 st)
      as (st2 & -> & Hr2 & Hu2 & Hd2).
    exists st2. split; [|split]; auto.
Qed.

Lemma download_model_images_raises cfg w m st :
  bool_decide (is_Some (name m)) && bool_decide (is_Some (slug m)) && mkdir_ok w = false ->
  exists e, download_model_images cfg w m st = (Raises e, st).
Proof.
  unfold download_model_images, mkdir, bind. intros H.
  destruct (name m) as [n|]; simpl; [|eauto].
  destruct (slug m) as [s|]; simpl; [|eauto].
  destruct (mkdir_ok w); simpl; [|eauto].
  rewrite !bool_decide_eq_true_2 in H by eauto. discriminate H.
Qed.

(** [scrape_model_profile] returns when the item has its two keys and a
    browser is kept or starts; whatever it does, it leaves the state as
    it was but for the browser. *)
Lemma scrape_model_profile_returns w m st :
  is_Some (profile_url m) -> is_Some (name m) -> driver st || driver_ready w = true ->
  scrape_model_profile w m st = (Returns (profile_of w m), with_driver true st).
Proof.
  intros [u Hu] [n Hn] Hd.
  unfold scrape_model_profile, profile_of, setup_driver, load_profile, try_except, bind.
  rewrite Hu, Hn. simpl.
  destruct (driver st) eqn:E; simpl.
  - rewrite <- E, with_driver_same. destruct (page w) as [found|]; reflexivity.
  - simpl in Hd. rewrite Hd. simpl. destruct (page w) as [found|]; reflexivity.
Qed.

Lemma scrape_model_profile_raises w m st :
  bool_decide (is_Some (profile_url m)) && bool_decide (is_Some (name m))
  && (driver st || driver_ready w) = false ->
  exists e, scrape_model_profile w m st
            = (Raises e, with_driver (driver_after (driver st) w m) st).
Proof.
  unfold scrape_model_profile, setup_driver, bind, driver_after. intros H.
  destruct (profile_url m) as [u|]; simpl;
    [|rewrite orb_false_r, with_driver_same; eauto].
  destruct (name m) as [n|]; simpl;
    [|rewrite orb_false_r, with_driver_same; eauto].
  rewrite !bool_decide_eq_true_2 in * by eauto. simpl in *.
  destruct (driver st) eqn:E; [discriminate H|]. simpl in *. rewrite H. simpl.
  destruct (driver_assigned w); simpl; [eauto|].
  rewrite <- E, with_driver_same. eauto.
Qed.

Lemma scrape_model_profile_cases w m st :
  (scrape_model_profile w m st = (Returns (profile_of w m), with_driver true st)
   /\ bool_decide (is_Some (profile_url m)) && bool_decide (is_Some (name m))
      && (driver st || driver_ready w) = true)
  \/ ((exists e, scrape_model_profile w m st
                 = (Raises e, with_driver (driver_after (driver st) w m) st))
      /\ bool_decide (is_Some (profile_url m)) && bool_decide (is_Some (name m))
         && (driver st || driver_ready w) = false).
Proof.
  destruct (bool_decide (is_Some (profile_url m)) && bool_decide (is_Some (name m))
            && (driver st || driver_ready w)) eqn:E.
  - left. split; [|reflexivity].
    apply andb_prop in E. destruct E as [E Hd]. apply andb_prop in E. destruct E as [Hu Hn].
    apply bool_decide_eq_true in Hu. apply bool_decide_eq_true in Hn.
    apply scrape_model_profile_returns; assumption.
  - right. split; [|reflexivity]. apply scrape_model_profile_raises. exact E.
Qed.

Lemma driver_after_fetched d w m :
  bool_decide (is_Some (profile_url m)) && bool_decide (is_Some (name m))
  && (d || driver_ready w) = true ->
  driver_after d w m = true.
Proof.
  unfold driver_after. intros H.
  apply andb_prop in H. destruct H as [-> H].
  destruct d; [reflexivity|]. simpl in H. rewrite H. reflexivity.
Qed.

Lemma save_model_metadata_spec w m st :
  is_Some (name m) ->
  (append_ok w = true /\
   exists st', save_model_metadata w m st = (Returns true, st')
               /\ models_file st' = (models_file st ++ [record_of m])%list
               /\ the_stats st' = the_stats st
               /\ driver st' = driver st)
  \/ (append_ok w = false /\ save_model_metadata w m st = (Returns false, st)).
Proof.
  intros [n Hn]. unfold save_model_metadata, try_except, bind, append_record.
  destruct (append_ok w); [left|right]; split; try reflexivity.
  rewrite Hn. simpl. eexists. repeat split.
Qed.

Lemma profile_of_keys w m :
  name (profile_of w m) = name m /\ slug (profile_of w m) = slug m
  /\ profile_url (profile_of w m) = profile_url m.
Proof. unfold profile_of. destruct (page w); repeat split. Qed.

(** What [process_single_model] does, by whether the item [passes]. *)
Lemma process_single_model_spec cfg w m st :
  exists st',
    process_single_model cfg w m st
    = (Returns (if passes cfg (driver st) w m then Some (staged cfg w m) else None), st')
    /\ (if passes cfg (driver st) w m
        then models_file st' = (models_file st ++ [record_of (staged cfg w m)])%list
             /\ processed_of st' = processed_of st + 1
             /\ failed_of st' = failed_of st
        else models_file st' = models_file st
             /\ processed_of st' = processed_of st
             /\ failed_of st' = failed_of st + 1)
    /\ driver st' = driver_after (driver st) w m.
Proof.
  unfold process_single_model, try_except, bind, passes.
  destruct (scrape_model_profile_cases w m st) as [[-> E]|[(e & ->) E]].
  2:{ apply andb_false_iff in E.
      assert (E' : bool_decide (is_Some (profile_url m)) && bool_decide (is_Some (name m))
                   && bool_decide (is_Some (slug m)) && (driver st || driver_ready w) = false).
      { destruct (bool_decide (is_Some (profile_url m))), (bool_decide (is_Some (name m))),
          (bool_decide (is_Some (slug m))), (driver st || driver_ready w); simpl in *;
          destruct E as [E|E]; try discriminate; reflexivity. }
      rewrite E'. simpl. eexists. split; [reflexivity|]. repeat split. }
  pose proof (driver_after_fetched _ _ _ E) as Hafter.
  apply andb_prop in E. destruct E as [E Hd]. apply andb_prop in E. destruct E as [Hu Hn].
  rewrite Hu, Hn, Hd, Hafter. simpl.
  apply bool_decide_eq_true in Hn.
  destruct (profile_of_keys w m) as (Kn & Ks & _).
  destruct (bool_decide (is_Some (slug m))) eqn:Hs; simpl.
  2:{ destruct (download_model_images_raises cfg w (profile_of w m) (with_driver true st))
        as (e & ->).
      { rewrite Ks, Hs. apply andb_false_iff. left. apply andb_false_iff. right. reflexivity. }
      simpl. eexists. split; [reflexivity|]. repeat split. }
  apply bool_decide_eq_true in Hs.
  destruct (mkdir_ok w) eqn:Hmk; simpl.
  2:{ destruct (download_model_images_raises cfg w (profile_of w m) (with_driver true st))
        as (e & ->).
      { rewrite Hmk. apply andb_false_r. }
      simpl. eexists. split; [reflexivity|]. repeat split. }
  destruct (download_model_images_spec cfg w (profile_of w m) (with_driver true st))
    as (st1 & -> & _ & (Hf & Hp & Hq) & Hd1);
    [rewrite Kn; assumption | rewrite Ks; assumption | assumption |].
  fold (staged cfg w m). unfold lift, accepts.
  simpl in Hd1. unfold processed_of, failed_of in *. simpl in Hf, Hp, Hq.
  destruct (validate_model_data cfg (staged cfg w m)) as [[|]|e] eqn:Hv; simpl.
  2,3: eexists; (split; [reflexivity|]); simpl;
       repeat split; assumption || (f_equal; assumption).
  destruct (save_model_metadata_spec w (staged cfg w m) st1)
    as [[Ha (st2 & -> & Hl & Hst & Hd2)]|[Ha ->]].
  { unfold staged, downloaded. simpl. rewrite Kn. assumption. }
  - rewrite Ha. simpl. eexists. split; [reflexivity|].
    simpl. rewrite Hst, Hl, Hf, Hd2.
    repeat split; assumption || (f_equal; assumption).
  - rewrite Ha. simpl. eexists. split; [reflexivity|].
    simpl. repeat split; assumption || (f_equal; assumption).
Qed.

(** ** The run *)

Lemma passes_needs_name cfg d w m : name m = None -> passes cfg d w m = false.
Proof.
  intros H. unfold passes. rewrite H.
  rewrite (bool_decide_eq_false_2 (is_Some None)) by (intros [? ?]; discriminate).
  rewrite andb_false_r. reflexivity.
Qed.

Lemma driver_after_needs_name d w m : name m = None -> driver_after d w m = d.
Proof.
  intros H. unfold driver_after. rewrite H.
  rewrite (bool_decide_eq_false_2 (is_Some None)) by (intros [? ?]; discriminate).
  rewrite andb_false_r, orb_false_r. reflexivity.
Qed.

(** The pause: it returns when [time.sleep] takes the delay, and leaves
    the state as it is anyhow. *)
Lemma sleep_spec d st :
  sleep d st = (if sleeps d then Returns tt else fst (sleep d st), st)
  /\ (sleeps d = false -> exists e, sleep d st = (Raises e, st)).
Proof.
  unfold sleep, sleeps. destruct d as [s|e]; [destruct (Qle_bool 0 s)|];
    split; try reflexivity; try discriminate; eauto.
Qed.

Lemma process_models_spec cfg env total models : forall i acc st,
  exists st',
    process_models cfg env total i models acc st
    = (Returns (acc ++ succeeded cfg env (driver st) i models)%list, st')
    /\ models_file st'
       = (models_file st ++ map record_of (succeeded cfg env (driver st) i models))%list
    /\ processed_of st' = processed_of st + length (succeeded cfg env (driver st) i models)
    /\ failed_of st' + length (succeeded cfg env (driver st) i models)
       = failed_of st + length models + twice_from cfg total i models
    /\ driver st' = driver_through env (driver st) i models.
Proof.
  induction models as [|m rest IH]; intros i acc st.
  - simpl. exists st. rewrite !app_nil_r. repeat split; lia.
  - simpl. unfold bind at 1. unfold try_except at 1. unfold bind at 1.
    destruct (name m) as [n|] eqn:Hn.
    + simpl. unfold bind at 1.
      destruct (process_single_model_spec cfg (env i) m st) as (st1 & -> & H1 & Hd1).
      unfold try_except at 1. unfold bind at 1.
      destruct (Nat.ltb i total) eqn:Hlt; simpl.
      * destruct (sleeps (request_delay cfg)) eqn:Hs.
        -- destruct (sleep_spec (request_delay cfg) st1) as [-> _]. rewrite Hs. simpl.
           destruct (passes cfg (driver st) (env i) m); simpl;
             destruct H1 as (Hl1 & Hp1 & Hf1);
             match goal with |- context [process_models cfg env total (S i) rest ?a st1] =>
               destruct (IH (S i) a st1) as (st2 & -> & Hl2 & Hp2 & Hf2 & Hd2) end;
             exists st2; rewrite Hd1 in *; rewrite Hl2, Hl1, Hp2, Hp1;
             rewrite ?map_app, <- ?app_assoc; simpl; repeat split; try assumption; lia.
        -- destruct (sleep_spec (request_delay cfg) st1) as [_ Hr].
           destruct (Hr Hs) as (e & ->). simpl.
           destruct (passes cfg (driver st) (env i) m); simpl;
             destruct H1 as (Hl1 & Hp1 & Hf1);
             match goal with |- context [process_models cfg env total (S i) rest ?a ?s] =>
               destruct (IH (S i) a s) as (st2 & -> & Hl2 & Hp2 & Hf2 & Hd2) end;
             exists st2; unfold processed_of, failed_of in *; simpl in *;
             rewrite Hd1 in *; rewrite Hl2, Hl1, Hp2, Hp1;
             rewrite ?map_app, <- ?app_assoc; simpl; repeat split; try assumption; lia.
      * destruct (passes cfg (driver st) (env i) m); simpl;
          destruct H1 as (Hl1 & Hp1 & Hf1);
          match goal with |- context [process_models cfg env total (S i) rest ?a st1] =>
            destruct (IH (S i) a st1) as (st2 & -> & Hl2 & Hp2 & Hf2 & Hd2) end;
          exists st2; rewrite Hd1 in *; rewrite Hl2, Hl1, Hp2, Hp1;
          rewrite ?map_app, <- ?app_assoc; simpl; repeat split; try assumption; lia.
    + simpl. rewrite (passes_needs_name _ _ _ _ Hn), (driver_after_needs_name _ _ _ Hn).
      simpl.
      match goal with |- context [process_models cfg env total (S i) rest acc ?s] =>
        destruct (IH (S i) acc s) as (st2 & -> & Hl2 & Hp2 & Hf2 & Hd2) end.
      exists st2. unfold processed_of, failed_of in *. simpl in *.
      repeat split; try assumption; lia.
Qed.

Lemma twice_from_spec cfg total models : forall i,
  i + length models = S total ->
  twice_from cfg total i models = counted_twice cfg models.
Proof.
  unfold counted_twice, paused.
  induction models as [|m rest IH]; intros i H.
  - simpl. destruct (sleeps (request_delay cfg)); reflexivity.
  - destruct rest as [|m' rest'].
    + simpl in *. replace (Nat.ltb i total) with false by (symmetry; apply Nat.ltb_ge; lia).
      rewrite andb_false_r. simpl. destruct (sleeps (request_delay cfg)); reflexivity.
    + change (twice_from cfg total i (m :: m' :: rest'))
        with ((if bool_decide (is_Some (name m)) && Nat.ltb i total
                  && negb (sleeps (request_delay cfg))
               then 1 else 0) + twice_from cfg total (S i) (m' :: rest')).
      rewrite (IH (S i)) by (simpl in *; lia).
      replace (Nat.ltb i total) with true by (symmetry; apply Nat.ltb_lt; simpl in *; lia).
      change (removelast (m :: m' :: rest')) with (m :: removelast (m' :: rest')).
      destruct (sleeps (request_delay cfg)); simpl; [rewrite andb_false_r; reflexivity|].
      rewrite andb_true_r, filter_cons.
      destruct (decide (is_Some (name m))) as [Hn|Hn].
      * rewrite bool_decide_eq_true_2 by exact Hn. reflexivity.
      * rewrite bool_decide_eq_false_2 by exact Hn. reflexivity.
Qed.

(** What a run does, in terms of the items that pass. *)
Lemma run_parallel_processing_spec cfg env models st :
  exists st',
    run_parallel_processing cfg env models st
    = (Returns (succeeded cfg env (driver st) 1 models), st')
    /\ models_file st'
       = (models_file st ++ map record_of (succeeded cfg env (driver st) 1 models))%list
    /\ processed_of st' = processed_of st + length (succeeded cfg env (driver st) 1 models)
    /\ failed_of st' + length (succeeded cfg env (driver st) 1 models)
       = failed_of st + length models + counted_twice cfg models
    /\ driver st' = driver_through env (driver st) 1 models.
Proof.
  unfold run_parallel_processing.
  destruct (process_models_spec cfg env (length models) models 1 [] st)
    as (st' & -> & Hl & Hp & Hf & Hd).
  rewrite twice_from_spec in Hf by lia.
  exists st'. simpl. auto.
Qed.

(** The loop over a list is the loop over its first part followed by
    the loop over the rest, so [reached] is the state in which the turn
    of an item begins. *)
Lemma process_models_app cfg env total l1 l2 : forall i acc st,
  process_models cfg env total i (l1 ++ l2) acc st
  = match process_models cfg env total i l1 acc st with
    | (Returns acc1, st1) => process_models cfg env total (i + length l1) l2 acc1 st1
    | (Raises e, st1) => (Raises e, st1)
    end.
Proof.
  induction l1 as [|m l1 IH]; intros i acc st.
  - simpl. replace (i + 0) with i by lia. reflexivity.
  - simpl. unfold bind.
    match goal with |- context [try_except ?b ?h st] => destruct (try_except b h st) as [[a|e] s] end;
      [|reflexivity].
    rewrite IH. replace (S i + length l1) with (i + S (length l1)) by lia. reflexivity.
Qed.

Lemma run_passes_through_reached cfg env models j st :
  exists acc,
    process_models cfg env (length models) 1 (take j models) [] st
    = (Returns acc, reached cfg env models j st)
    /\ run_parallel_processing cfg env models st
       = process_models cfg env (length models) (1 + length (take j models))
           (drop j models) acc (reached cfg env models j st).
Proof.
  unfold run_parallel_processing, reached.
  destruct (process_models_spec cfg env (length models) (take j models) 1 [] st)
    as (st1 & E & _).
  eexists. split; [rewrite E; reflexivity|].
  rewrite <- (take_drop j models) at 2. rewrite process_models_app, E. reflexivity.
Qed.


(** Every call of [process_single_model] returns, and either it returns
    the item, which then had passed validation and was appended to
    [models.jsonl], and [models_processed] grew by one while
    [models_failed] stayed; or it returns nothing, [models.jsonl] is as
    before, and [models_failed] grew by one while [models_processed]
    stayed. *)
Lemma process_single_model_counts cfg w m st :
  let r := fst (process_single_model cfg w m st) in
  let st' := snd (process_single_model cfg w m st) in
  (exists m', r = Returns (Some m')
              /\ validate_model_data cfg m' = Returns true
              /\ models_file st' = (models_file st ++ [record_of m'])%list
              /\ processed_of st' = processed_of st + 1
              /\ failed_of st' = failed_of st)
  \/ (r = Returns None
      /\ models_file st' = models_file st
      /\ processed_of st' = processed_of st
      /\ failed_of st' = failed_of st + 1).
Proof.
  simpl. destruct (process_single_model_spec cfg w m st) as (st' & -> & H & _). simpl.
  destruct (passes cfg (driver st) w m) eqn:E.
  - left. exists (staged cfg w m). split; [reflexivity|]. split; [|exact H].
    unfold passes in E. apply andb_prop in E. destruct E as [E _].
    apply andb_prop in E. destruct E as [_ E]. unfold accepts in E.
    destruct (validate_model_data cfg (staged cfg w m)) as [[|]|]; congruence.
  - right. split; [reflexivity|exact H].
Qed.

(** Over a run the two counters together grow by the number of items
    and, when [time.sleep] refuses the configured delay, once more for
    every item after which the run pauses. *)
Lemma run_counts cfg env models st :
  let st' := snd (run_parallel_processing cfg env models st) in
  processed_of st' + failed_of st'
  = processed_of st + failed_of st + length models + counted_twice cfg models.
Proof.
  simpl. destruct (run_parallel_processing_spec cfg env models st) as (st' & -> & _ & Hp & Hf & _).
  simpl. lia.
Qed.

(** C10 at a negative [request_delay], in a run over two items: the
    pause after the first item raises inside the [try] of the loop, and
    the handler counts the item as failed once more.  With the default
    validation both items had failed already, no image being downloaded
    with such a delay, and [models_failed] ends at 3; with a minimum of
    no images both items are processed and appended, and the first is
    counted as failed all the same. *)
Theorem negative_delay_counts_item_twice :
  (exists st',
      run_parallel_processing negative_delay (fun _ => fine 3) [jane; mary] fresh
      = (Returns [], st')
      /\ processed_of st' = 0 /\ failed_of st' = 3 /\ models_file st' = [])
  /\ (exists result st',
        run_parallel_processing negative_delay_no_minimum (fun _ => fine 3) [jane; mary] fresh
        = (Returns result, st')
        /\ length result = 2 /\ length (models_file st') = 2
        /\ processed_of st' = 2 /\ failed_of st' = 1).
Proof. split; [eexists|eexists _, _]; vm_compute; repeat split. Qed.







(** A browser that does not start for item 1 of a run without a browser
    kept: [scrape_model_profile] raises for that item, which is counted
    as failed; the browser starts for item 2 and the run goes on. *)
Example failed_browser_start_fails_one_item :
  fst (scrape_model_profile (first_start_fails 1) jane fresh) = Raises WebDriverException
  /\ exists result st',
       run_parallel_processing default_config first_start_fails [jane; mary; ann] fresh
       = (Returns result, st')
       /\ failed_of st' = 1 /\ processed_of st' = 2
       /\ length (models_file st') = 2 /\ length result = 2 /\ driver st' = true.
Proof. split; [reflexivity |]. eexists _, _. vm_compute. repeat split. Qed.

(** A page that fails to load does not by itself fail the item: the
    exception stays inside [scrape_model_profile], and the item goes on
    with no attributes and no gallery. *)
Example page_error_is_absorbed :
  exists st', run_parallel_processing default_config (fun _ => page_error) [jane] fresh
              = (Returns [staged default_config page_error jane], st')
              /\ failed_of st' = 0 /\ processed_of st' = 1.
Proof. eexists. vm_compute. repeat split. Qed.

(** ** The cap on gallery downloads *)

Lemma slice_to_nonneg {A} (l : list A) (k : Z) :
  (0 <= k)%Z -> Py.slice_to l k = take (Z.to_nat k) l.
Proof. intros H. unfold Py.slice_to. destruct (Z.leb_spec 0 k); [reflexivity|lia]. Qed.

Lemma request_for_length url stem : length (request_for url stem) <= 1.
Proof. unfold request_for. destruct (_get_image_extension url); simpl; lia. Qed.

Lemma gallery_requests_length urls : forall i, length (gallery_requests i urls) <= length urls.
Proof.
  induction urls as [|u rest IH]; intros i; simpl; [lia|].
  rewrite length_app. pose proof (request_for_length u ("portfolio" ++ Py.str_of_nat i)).
  specialize (IH (S i)). lia.
Qed.

(** A gallery download is that of a URL of the list that [urlparse]
    takes, numbered by its place in the list. *)
Lemma gallery_requests_in urls : forall i u f,
  In (u, f) (gallery_requests i urls) <->
  exists j ext, urls !! j = Some u /\ _get_image_extension u = Some ext
                /\ f = "portfolio" ++ Py.str_of_nat (i + j) ++ ext.
Proof.
  induction urls as [|a rest IH]; intros i u f; simpl.
  - split; [intros []|intros (j & ext & H & _); discriminate H].
  - rewrite in_app_iff, IH. unfold request_for. split.
    + intros [H|(j & ext & Hj & He & ->)].
      * destruct (_get_image_extension a) as [ext|] eqn:E; [|destruct H].
        destruct H as [[= <- <-]|[]]. exists 0, ext.
        replace (i + 0) with i by lia. auto.
      * exists (S j), ext. replace (i + S j) with (S i + j) by lia. auto.
    + intros ([|j] & ext & Hj & He & ->).
      * injection Hj as ->. rewrite He. left. left.
        replace (i + 0) with i by lia. reflexivity.
      * right. exists j, ext. replace (i + S j) with (S i + j) by lia. auto.
Qed.

(** With a configured maximum of at least one image, the gallery
    downloads attempted are those of the first [max - 1] gallery URLs, in
    order, named portfolio1, portfolio2, ... by their place in the
    gallery; the later URLs are not requested. *)
Lemma gallery_downloads_capped cfg w m st (mx : Z) :
  max_images_per_model cfg = Some mx -> (1 <= mx)%Z ->
  is_Some (name m) -> is_Some (slug m) -> mkdir_ok w = true ->
  let attempted := gallery_requests 1 (take (Z.to_nat (mx - 1)) (default [] (gallery_images m))) in
  requests (snd (download_model_images cfg w m st))
  = (requests st ++ thumbnail_request m ++ attempted)%list
  /\ (Z.of_nat (length attempted) <= mx - 1)%Z
  /\ (forall u f, In (u, f) attempted <->
                  exists j ext,
                    take (Z.to_nat (mx - 1)) (default [] (gallery_images m)) !! j = Some u
                    /\ _get_image_extension u = Some ext
                    /\ f = "portfolio" ++ Py.str_of_nat (1 + j) ++ ext).
Proof.
  intros Hmx Hle Hn Hs Hmk attempted.
  destruct (download_model_images_spec cfg w m st Hn Hs Hmk) as (st' & -> & Hr & _).
  simpl. unfold limited_gallery in Hr. rewrite Hmx in Hr. simpl in Hr.
  rewrite slice_to_nonneg in Hr by lia.
  split; [exact Hr|]. split.
  - unfold attempted.
    pose proof (gallery_requests_length
                  (take (Z.to_nat (mx - 1)) (default [] (gallery_images m))) 1) as H.
    rewrite length_take in H. lia.
  - intros u f. apply gallery_requests_in.
Qed.

(** A maximum of 5, a thumbnail and ten gallery URLs, every download
    succeeding: the thumbnail and four portfolio files. *)
Example five_of_ten :
  images (staged (with_max 5) (fine 10) jane)
  = Some ["images/jane_doe/thumbnail.jpeg"; "images/jane_doe/portfolio1.png";
          "images/jane_doe/portfolio2.png"; "images/jane_doe/portfolio3.png";
          "images/jane_doe/portfolio4.png"].
Proof. vm_compute. reflexivity. Qed.

(** C2 at a configured maximum of 0: the bound [max - 1] is negative and
    the slice [gallery[:-1]] drops the last URL only, so two of three
    gallery URLs are downloaded next to the thumbnail. *)
Theorem zero_maximum_still_downloads :
  requests (snd (download_model_images (with_max 0) (fine 3) (profile_of (fine 3) jane) fresh))
  = [("https://apmmodels.com/img/jane.jpeg", "thumbnail.jpeg");
     ("https://apmmodels.com/img/g1.png", "portfolio1.png");
     ("https://apmmodels.com/img/g2.png", "portfolio2.png")].
Proof. vm_compute. reflexivity. Qed.

(** ** The image extension *)

Lemma first_extension_member exts path :
  In (first_extension exts path) exts \/ first_extension exts path = ".jpg".
Proof.
  induction exts as [|ext rest IH]; simpl; [right; reflexivity|].
  destruct (Py.contains ext path); [left; left; reflexivity|].
  destruct IH; auto.
Qed.

Lemma first_extension_none exts path :
  (forall ext, In ext exts -> Py.contains ext path = false) ->
  first_extension exts path = ".jpg".
Proof.
  induction exts as [|ext rest IH]; simpl; intros H; [reflexivity|].
  rewrite (H ext) by (left; reflexivity). apply IH. intros e He. apply H. right. exact He.
Qed.

Lemma first_extension_found before ext after path :
  (forall e, In e before -> Py.contains e path = false) ->
  Py.contains ext path = true ->
  first_extension (before ++ ext :: after) path = ext.
Proof.
  induction before as [|b before IH]; simpl; intros Hb He.
  - rewrite He. reflexivity.
  - rewrite (Hb b) by (left; reflexivity). apply IH; [|exact He].
    intros e Hin. apply Hb. right. exact Hin.
Qed.

(** For a URL that [urlparse] takes, the extension is one of the five
    known ones; it is the first of them, in the order of the list, that
    occurs anywhere in the lower-cased path, and ".jpg" when none
    occurs.  For a URL that [urlparse] refuses there is none. *)
Lemma image_extension_is_first_occurring url :
  match Url.path url with
  | None => _get_image_extension url = None
  | Some path =>
      exists found,
        _get_image_extension url = Some found
        /\ In found image_extensions
        /\ ((forall ext, In ext image_extensions ->
                         Py.contains ext (Py.lower path) = false) ->
            found = ".jpg")
        /\ (forall before ext after,
              image_extensions = (before ++ ext :: after)%list ->
              (forall e, In e before -> Py.contains e (Py.lower path) = false) ->
              Py.contains ext (Py.lower path) = true ->
              found = ext)
  end.
Proof.
  unfold _get_image_extension. destruct (Url.path url) as [path|]; [|reflexivity].
  eexists. split; [reflexivity|]. split; [|split].
  - destruct (first_extension_member image_extensions (Py.lower path)) as [H|H];
      [exact H|]. rewrite H. left. reflexivity.
  - apply first_extension_none.
  - intros before ext after ->. apply first_extension_found.
Qed.

(** C7 at a URL whose path ends in ".png" and has ".jpg" earlier: the
    extension is ".jpg", and so is that of the file written. *)
Theorem png_path_saved_as_jpg :
  (exists path, Url.path "https://apmmodels.com/img/jane.jpg.png" = Some path
                /\ ends_with ".png" path)
  /\ _get_image_extension "https://apmmodels.com/img/jane.jpg.png" = Some ".jpg"
  /\ thumbnail_request
       (index_item "1234" "Jane Doe" "https://apmmodels.com/w/models/dev/dev-1234-jane-doe"
                   "https://apmmodels.com/img/jane.jpg.png")
     = [("https://apmmodels.com/img/jane.jpg.png", "thumbnail.jpg")].
Proof.
  split; [|split].
  - exists "/img/jane.jpg.png". split; [vm_compute; reflexivity|].
    exists "/img/jane.jpg". reflexivity.
  - vm_compute. reflexivity.
  - vm_compute. reflexivity.
Qed.

Example usual_extensions :
  map _get_image_extension
      ["https://apmmodels.com/img/a.jpeg"; "https://apmmodels.com/img/a.PNG?w=200";
       "https://apmmodels.com/img/a"; "https://apmmodels.com/img/a.webp#top";
       " https://apmmodels.com/img/a.png"; "https://[apmmodels.com/img/a.png"]
  = [Some ".jpeg"; Some ".png"; Some ".jpg"; Some ".webp"; Some ".png"; None].
Proof. vm_compute. reflexivity. Qed.

(** ** Duplicate removal *)

Lemma unique_models_spec models : forall seen : gset string,
  Forall (fun m => is_Some (profile_url m)) models ->
  exists kept,
    unique_models models seen = Some kept
    /\ kept `sublist_of` models
    /\ NoDup (map url_of kept)
    /\ (forall u, In u (map url_of kept) <-> In u (map url_of models) /\ u ∉ seen)
    /\ (forall m, In m kept ->
                  exists before after,
                    models = (before ++ m :: after)%list
                    /\ ~ In (url_of m) (map url_of before)).
Proof.
  induction models as [|m rest IH]; intros seen HF.
  - exists []. simpl. repeat split; try tauto; constructor.
  - apply Forall_cons in HF. destruct HF as [[u Hu] HF].
    assert (Hm : url_of m = u) by (unfold url_of; rewrite Hu; reflexivity).
    simpl. rewrite Hu. destruct (decide (u ∈ seen)) as [Hseen|Hnew].
    + destruct (IH seen HF) as (kept & -> & Hsub & Hnd & Hiff & Hfirst).
      exists kept. split; [reflexivity|]. split; [apply sublist_cons; exact Hsub|].
      split; [exact Hnd|]. split.
      * intros u'. rewrite Hiff. simpl. rewrite Hm. split; [tauto|].
        intros [[->|H] Hn]; [contradiction|tauto].
      * intros m' Hin. destruct (Hfirst m' Hin) as (before & after & -> & Hb).
        exists (m :: before), after. split; [reflexivity|].
        simpl. rewrite Hm. intros [E|E]; [|contradiction].
        assert (Hk : In (url_of m') (map url_of kept)) by (apply in_map; exact Hin).
        apply Hiff in Hk. destruct Hk as [_ Hk]. apply Hk. rewrite <- E. exact Hseen.
    + destruct (IH ({[u]} ∪ seen) HF) as (kept & -> & Hsub & Hnd & Hiff & Hfirst).
      exists (m :: kept). split; [reflexivity|]. split; [apply sublist_skip; exact Hsub|].
      split.
      { simpl. apply NoDup_cons. split; [|exact Hnd].
        rewrite Hm, list_elem_of_In. intros Hk. apply Hiff in Hk. destruct Hk as [_ Hk].
        apply Hk. apply elem_of_union_l, elem_of_singleton. reflexivity. }
      split.
      * intros u'. simpl. rewrite Hm, Hiff. split.
        -- intros [<-|[H Hn]]; [tauto|]. split; [tauto|].
           intros Hs. apply Hn, elem_of_union_r. exact Hs.
        -- intros [[<-|H] Hn]; [tauto|].
           destruct (decide (u = u')) as [->|Hne]; [tauto|].
           right. split; [exact H|].
           rewrite elem_of_union, elem_of_singleton. intros [E|E]; [congruence|tauto].
      * intros m' [<-|Hin].
        -- exists [], rest. split; [reflexivity|]. simpl. tauto.
        -- destruct (Hfirst m' Hin) as (before & after & -> & Hb).
           exists (m :: before), after. split; [reflexivity|].
           simpl. rewrite Hm. intros [E|E]; [|contradiction].
           assert (Hk : In (url_of m') (map url_of kept)) by (apply in_map; exact Hin).
           apply Hiff in Hk. destruct Hk as [_ Hk]. apply Hk.
           apply elem_of_union_l, elem_of_singleton. symmetry. exact E.
Qed.



Example unique_models_keeps_first :
  unique_models [jane; mary; jane_again; ann; mary] ∅ = Some [jane; mary; ann].
Proof. vm_compute. reflexivity. Qed.

(** Every item of the two index extractors has its [profile_url]. *)
Lemma extracted_has_url urljoin base m :
  (exists entry letter, _extract_model_from_entry urljoin base entry letter = Some m)
  \/ (exists link, _extract_model_from_link urljoin base link = Some m) ->
  is_Some (profile_url m).
Proof.
  intros [(entry & letter & H)|(link & H)].
  - unfold _extract_model_from_entry in H.
    destruct (li_a entry) as [link|]; [|discriminate].
    destruct (String.eqb (get_text_strip (a_strings link)) ""); [discriminate|].
    destruct (String.eqb (Py.strip (default "" (a_href link))) ""); [discriminate|].
    joined H.
    joined H.
    injection H as <-. simpl. eauto.
  - unfold _extract_model_from_link in H.
    extracted H.
    injection H as <-. simpl. eauto.
Qed.

(** ** Validation *)

(** With both keys of the [validation] section in place,
    [validate_model_data] returns, and it accepts an item exactly when
    its [model_id], [name], [division] and [profile_url] are present and
    not empty, its division is one of the configured ones, and it has at
    least the configured minimum of images; the attributes of the item
    have no part in the verdict, whatever the configuration. *)
Lemma validate_model_data_iff cfg m valid_divisions min_images :
  required_divisions cfg = Some valid_divisions ->
  min_images_per_model cfg = Some min_images ->
  (exists verdict, validate_model_data cfg m = Returns verdict)
  /\ (validate_model_data cfg m = Returns true <->
      Py.truthy (model_id m) = true /\ Py.truthy (name m) = true
      /\ Py.truthy (division m) = true /\ Py.truthy (profile_url m) = true
      /\ In (default "" (division m)) valid_divisions
      /\ (min_images <= Z.of_nat (length (default [] (images m))))%Z)
  /\ (forall a, validate_model_data cfg (set_attributes m a) = validate_model_data cfg m).
Proof.
  intros Hd Hm. split; [|split].
  - unfold validate_model_data. rewrite Hd, Hm.
    repeat match goal with
           | |- context [if ?b then _ else _] => destruct b
           end; try destruct (missing_attrs cfg m); eauto.
  - unfold validate_model_data. rewrite Hd, Hm.
    destruct (Py.truthy (model_id m)); simpl; [|split; [discriminate|intros [? _]; discriminate]].
    destruct (Py.truthy (name m)); simpl;
      [|split; [discriminate|intros (_ & ? & _); discriminate]].
    destruct (Py.truthy (division m)); simpl;
      [|split; [discriminate|intros (_ & _ & ? & _); discriminate]].
    destruct (Py.truthy (profile_url m)); simpl;
      [|split; [discriminate|intros (_ & _ & _ & ? & _); discriminate]].
    destruct (bool_decide_reflect (default "" (division m) ∈ valid_divisions)) as [Hin|Hin];
      simpl; rewrite list_elem_of_In in Hin;
      [|split; [discriminate|intros (_ & _ & _ & _ & ? & _); contradiction]].
    destruct (Z.ltb_spec (Z.of_nat (length (default [] (images m)))) min_images).
    + split; [discriminate|]. intros (_ & _ & _ & _ & _ & ?). lia.
    + destruct (missing_attrs cfg m); (split; [intros _; repeat split; auto; lia|reflexivity]).
  - intros a. unfold validate_model_data. simpl.
    destruct (missing_attrs cfg (set_attributes m a)), (missing_attrs cfg m); reflexivity.
Qed.

Example validate_model_data_examples :
  validate_model_data default_config jane_staged = Returns true
  /\ validate_model_data default_config (set_model_id jane_staged (Some "")) = Returns false
  /\ missing_attrs default_config jane_staged <> [].
Proof. split; [|split]; vm_compute; congruence. Qed.

(** C6 at the configuration loaded from a file that only says
    [validation: {min_images_per_model: 2}]: the merged settings have no
    [validation.required_divisions]; an item with all four fields, a
    division of the default set and four images is not accepted, and an
    item without images is not answered with [False]: for both the
    subscript raises [KeyError].  In the pipeline every such item is
    counted as failed and none is saved. *)
Theorem partial_validation_section_raises :
  config_item (_load_config (Some (Some stricter_validation))) "validation" "required_divisions"
  = None
  /\ (Py.truthy (model_id jane_staged) = true /\ Py.truthy (name jane_staged) = true
      /\ Py.truthy (division jane_staged) = true /\ Py.truthy (profile_url jane_staged) = true
      /\ In (default "" (division jane_staged)) ["ima"; "mai"; "dev"]
      /\ length (default [] (images jane_staged)) = 4)
  /\ validate_model_data stricter_config jane_staged = Raises (KeyError "required_divisions")
  /\ validate_model_data stricter_config (update_images jane_staged [])
     = Raises (KeyError "required_divisions")
  /\ (exists st',
        process_single_model stricter_config (fine 3) jane fresh = (Returns None, st')
        /\ failed_of st' = 1 /\ processed_of st' = 0 /\ models_file st' = []).
Proof.
  split; [vm_compute; reflexivity|]. split; [vm_compute; tauto|].
  split; [vm_compute; reflexivity|]. split; [vm_compute; reflexivity|].
  eexists. vm_compute. repeat split.
Qed.

(** ** Stage 1 as a whole *)

Lemma collect_models_extracted urljoin base page m :
  In m (collect_models urljoin base page) ->
  (exists entry letter, _extract_model_from_entry urljoin base entry letter = Some m)
  \/ (exists link, _extract_model_from_link urljoin base link = Some m).
Proof.
  assert (H1 : forall m, In m (from_letter_groups urljoin base page) ->
                         exists entry letter,
                           _extract_model_from_entry urljoin base entry letter = Some m).
  { intros x Hx. unfold from_letter_groups in Hx. apply in_flat_map in Hx.
    destruct Hx as (g & _ & Hx). destruct (models_container g) as [es|]; [|destruct Hx].
    apply list_elem_of_In, list_elem_of_omap in Hx. destruct Hx as (entry & _ & Hx). eauto. }
  assert (H2 : forall m, In m (from_all_entries urljoin base page) ->
                         exists entry letter,
                           _extract_model_from_entry urljoin base entry letter = Some m).
  { intros x Hx. unfold from_all_entries in Hx.
    apply list_elem_of_In, list_elem_of_omap in Hx. destruct Hx as (entry & _ & Hx). eauto. }
  assert (H3 : forall found m, In m (from_alternatives urljoin base found) ->
                               exists link, _extract_model_from_link urljoin base link = Some m).
  { intros found. induction found as [|els rest IH]; intros x Hx; [destruct Hx|].
    simpl in Hx. destruct els as [|a els]; [auto|].
    apply list_elem_of_In, list_elem_of_omap in Hx. destruct Hx as (link & _ & Hx). eauto. }
  unfold collect_models. intros H.
  destruct (from_letter_groups urljoin base page) as [|a l] eqn:E1.
  - destruct (from_all_entries urljoin base page) as [|b l'] eqn:E2.
    + right. eapply H3. exact H.
    + left. apply H2. exact H.
  - left. apply H1. exact H.
Qed.

(** The index stage returns one model per profile URL found on the page,
    the first one found, in the order of the page, and counts them. *)
Lemma scrape_alphabet_index_unique urljoin base w page st :
  loaded w = Some page -> driver st || index_driver w = true ->
  exists models st',
    scrape_alphabet_index urljoin base w st = (Returns models, st')
    /\ models_found (the_stats st') = length models
    /\ NoDup (map url_of models)
    /\ (forall u, In u (map url_of models)
                  <-> In u (map url_of (collect_models urljoin base page)))
    /\ models `sublist_of` collect_models urljoin base page.
Proof.
  assert (HF : Forall (fun m => is_Some (profile_url m)) (collect_models urljoin base page)).
  { apply Forall_forall. intros m Hm. apply list_elem_of_In in Hm.
    eapply extracted_has_url, collect_models_extracted. exact Hm. }
  intros Hl Hd.
  destruct (unique_models_spec _ ∅ HF) as (kept & E & Hsub & Hnd & Hiff & _).
  unfold scrape_alphabet_index, bind.
  rewrite (setup_driver_returns _ _ _ Hd), Hl, E.
  eexists kept, _. split; [reflexivity|]. split; [reflexivity|]. split; [exact Hnd|].
  split; [|exact Hsub].
  intros u. rewrite Hiff. split; [tauto|]. intros H. split; [exact H|apply not_elem_of_empty].
Qed.

(* ===================================================================== *)
(** * Further properties of the code                                      *)
(* ===================================================================== *)

(** ** More on [str.strip] and the slug *)

Lemma chars_app (a b : string) : Py.chars (a ++ b) = (Py.chars a ++ Py.chars b)%list.
Proof. induction a as [|c a IH]; simpl; [reflexivity|]. unfold Py.chars in *. simpl. rewrite IH. reflexivity. Qed.

Lemma lstrip_by_split p l :
  exists pre, l = (pre ++ Py.lstrip_by p l)%list /\ (forall x, In x pre -> p x = true).
Proof.
  induction l as [|c t IH]; simpl.
  - exists []. split; [reflexivity|]. intros x [].
  - destruct (p c) eqn:Hc.
    + destruct IH as (pre & E & Hp). exists (c :: pre). split.
      * simpl. rewrite <- E. reflexivity.
      * intros x [<-|Hx]; auto.
    + exists []. split; [reflexivity|]. intros x [].
Qed.

Lemma lstrip_by_fixed p c t : p c = false -> Py.lstrip_by p (c :: t) = c :: t.
Proof. intros H. simpl. rewrite H. reflexivity. Qed.

(** The stripped list neither starts nor ends with a stripped character. *)
Lemma strip_by_edges p l :
  (forall c t, Py.strip_by p l = c :: t -> p c = false)
  /\ (forall c t, Py.strip_by p l = (t ++ [c])%list -> p c = false).
Proof.
  unfold Py.strip_by.
  set (a := Py.lstrip_by p l).
  destruct (lstrip_by_split p (rev a)) as (pre & E & Hpre).
  set (b := Py.lstrip_by p (rev a)) in *.
  split.
  - intros c t Hb.
    assert (Hra : rev a = (pre ++ rev (c :: t))%list).
    { rewrite E. f_equal. rewrite <- Hb, rev_involutive. reflexivity. }
    assert (Ha : a = (c :: t ++ rev pre)%list).
    { rewrite <- (rev_involutive a), Hra, rev_app_distr, rev_involutive. reflexivity. }
    eapply lstrip_by_head. exact Ha.
  - intros c t Hb.
    assert (Hb' : b = c :: rev t).
    { rewrite <- (rev_involutive b), Hb, rev_app_distr. reflexivity. }
    eapply lstrip_by_head. exact Hb'.
Qed.

Lemma strip_by_fixed p l :
  (forall c t, l = c :: t -> p c = false) ->
  (forall c t, l = (t ++ [c])%list -> p c = false) ->
  Py.strip_by p l = l.
Proof.
  intros Hh Hl. unfold Py.strip_by.
  assert (E1 : Py.lstrip_by p l = l).
  { destruct l as [|c t]; [reflexivity|]. apply lstrip_by_fixed. eapply Hh. reflexivity. }
  rewrite E1.
  assert (E2 : Py.lstrip_by p (rev l) = rev l).
  { destruct (rev l) as [|c t] eqn:Er; [reflexivity|]. apply lstrip_by_fixed.
    apply (Hl c (rev t)). rewrite <- (rev_involutive l), Er. reflexivity. }
  rewrite E2. apply rev_involutive.
Qed.

Lemma strip_by_idempotent p l : Py.strip_by p (Py.strip_by p l) = Py.strip_by p l.
Proof. destruct (strip_by_edges p l) as [Hh Hl]. apply strip_by_fixed; assumption. Qed.

(** X1.  A slug never starts and never ends with an underscore. *)
Theorem slug_has_no_edge_underscore (name s : string) :
  slugify_name name <> "_" ++ s /\ slugify_name name <> s ++ "_".
Proof.
  destruct (strip_by_edges (fun c => bool_decide (c ∈ Py.chars "_")) (slug_step2 name))
    as [Hh Hl].
  rewrite <- slugify_name_steps in Hh, Hl.
  split; intros E.
  - assert (H : bool_decide ("_"%char ∈ Py.chars "_") = false).
    { apply (Hh "_"%char (Py.chars s)). rewrite E. reflexivity. }
    vm_compute in H. discriminate H.
  - assert (H : bool_decide ("_"%char ∈ Py.chars "_") = false).
    { apply (Hl "_"%char (Py.chars s)). rewrite E, chars_app. reflexivity. }
    vm_compute in H. discriminate H.
Qed.

Lemma lower_char_idempotent (c : ascii) : Py.lower_char (Py.lower_char c) = Py.lower_char c.
Proof. ascii_cases c. Qed.

Lemma map_fixed {A} (f : A -> A) (l : list A) :
  (forall x, In x l -> f x = x) -> map f l = l.
Proof.
  induction l as [|a l IH]; simpl; intros H; [reflexivity|].
  rewrite (H a) by (left; reflexivity). rewrite IH; [reflexivity|].
  intros x Hx. apply H. right. exact Hx.
Qed.

Lemma filter_fixed {A} (f : A -> bool) (l : list A) :
  (forall x, In x l -> f x = true) -> List.filter f l = l.
Proof.
  induction l as [|a l IH]; simpl; intros H; [reflexivity|].
  rewrite (H a) by (left; reflexivity). rewrite IH; [reflexivity|].
  intros x Hx. apply H. right. exact Hx.
Qed.

Lemma sub_plus_fixed cs repl s :
  (forall x, In x s -> Re.in_cset cs x = false) ->
  Re.sub_chars (Re.Plus cs) repl s 0 = s.
Proof.
  induction s as [|c t IH]; simpl; intros H; [reflexivity|].
  rewrite (H c) by (left; reflexivity). simpl. rewrite IH; [reflexivity|].
  intros x Hx. apply H. right. exact Hx.
Qed.

Lemma slug_char_stable (name : string) (c : ascii) :
  In c (Py.chars (slugify_name name)) ->
  Py.lower_char c = c /\ Py.isword c = true.
Proof.
  intros H. destruct (slug_char_cases _ _ H) as [->|(c0 & _ & -> & Hw)].
  - split; reflexivity.
  - split; [apply lower_char_idempotent|exact Hw].
Qed.

(** X2.  Slugifying a slug changes nothing. *)
Theorem slugify_name_idempotent (name : string) :
  slugify_name (slugify_name name) = slugify_name name.
Proof.
  rewrite <- (str_chars (slugify_name (slugify_name name))).
  rewrite <- (str_chars (slugify_name name)) at 2. f_equal.
  rewrite slugify_name_steps at 1. unfold slug_step2, slug_step1.
  set (L := Py.chars (slugify_name name)).
  assert (HL : forall c, In c L -> Py.lower_char c = c /\ Py.isword c = true)
    by (intros c; apply slug_char_stable).
  rewrite (map_fixed Py.lower_char L) by (intros x Hx; apply HL; exact Hx).
  rewrite filter_fixed.
  2:{ intros x Hx. rewrite in_special_set, negb_involutive.
      destruct (HL x Hx) as [_ ->]. reflexivity. }
  unfold separators. rewrite sub_plus_fixed.
  2:{ intros x Hx. fold separator_set. rewrite in_separator_set.
      destruct (HL x Hx) as [_ Hw]. destruct (isword_not_separator x Hw) as [-> Hd].
      rewrite orb_false_r. apply Ascii.eqb_neq. congruence. }
  unfold L. rewrite slugify_name_steps. apply strip_by_idempotent.
Qed.

(** ** The identifier parsed from the URL *)

Lemma in_longest_first k s rest g :
  In (rest, g) (Re.longest_first k s) <-> g = [] /\ exists j, 1 <= j <= k /\ rest = drop j s.
Proof.
  induction k as [|k IH]; simpl.
  - split; [tauto|]. intros (_ & j & Hj & _). lia.
  - rewrite IH. split.
    + intros [[= <- <-]|(-> & j & Hj & ->)].
      * split; [reflexivity|]. exists (S k). split; [lia|reflexivity].
      * split; [reflexivity|]. exists j. split; [lia|reflexivity].
    + intros (-> & j & Hj & ->).
      destruct (decide (j = S k)) as [->|Hne]; [left; reflexivity|].
      right. split; [reflexivity|]. exists j. split; [lia|reflexivity].
Qed.

Lemma in_matches_plus_iff cs s rest g :
  In (rest, g) (Re.matches (Re.Plus cs) s) <->
  g = [] /\ exists j, 1 <= j <= Re.run_length cs s /\ rest = drop j s.
Proof. simpl. apply in_longest_first. Qed.

Lemma run_prefix_in_class cs s j x :
  j <= Re.run_length cs s -> In x (take j s) -> Re.in_cset cs x = true.
Proof.
  revert j. induction s as [|c t IH]; intros j Hj Hx.
  - rewrite take_nil in Hx. destruct Hx.
  - simpl in Hj. destruct j as [|j]; [destruct Hx|].
    destruct (Re.in_cset cs c) eqn:Hc; [|lia].
    simpl in Hx. destruct Hx as [<-|Hx]; [exact Hc|].
    apply (IH j); [lia|exact Hx].
Qed.

Lemma in_digit_class (c : ascii) :
  Re.in_cset (Re.CSet false [Re.D]) c = Py.isdecimal c.
Proof. unfold Re.in_cset. simpl. rewrite orb_false_r. reflexivity. Qed.

(** A match of [/(ima|mai|dev)-(\d+)-]: what it consumed and captured. *)
Lemma in_matches_id_pattern s rest g :
  In (rest, g) (Re.matches id_pattern s) ->
  exists d ds,
    is_division d /\ ds <> [] /\ (forall c, In c ds -> Py.isdecimal c = true)
    /\ s = ("/"%char :: Py.chars d ++ "-"%char :: ds ++ "-"%char :: rest)%list
    /\ g = [d; Py.str ds].
Proof.
  unfold id_pattern. intros H.
  apply in_matches_seq in H. destruct H as (m1 & g1 & g2 & H1 & H2 & ->).
  apply in_matches_chr in H1. destruct H1 as [-> ->].
  apply in_matches_seq in H2. destruct H2 as (m2 & g3 & g4 & H3 & H4 & ->).
  apply in_matches_division_alt in H3. destruct H3 as (d & Hd & -> & ->).
  apply in_matches_seq in H4. destruct H4 as (m3 & g5 & g6 & H5 & H6 & ->).
  apply in_matches_chr in H5. destruct H5 as [-> ->].
  apply in_matches_seq in H6. destruct H6 as (m4 & g7 & g8 & H7 & H8 & ->).
  apply in_matches_group in H7. destruct H7 as (g9 & H7 & ->).
  apply in_matches_plus_iff in H7. destruct H7 as (-> & j & Hj & ->).
  apply in_matches_chr in H8. destruct H8 as [E ->].
  pose proof (run_length_le (Re.CSet false [Re.D]) m3) as Hle.
  rewrite length_drop.
  replace (length m3 - (length m3 - j)) with j by lia.
  exists d, (take j m3). split; [exact Hd|]. split; [|split; [|split]].
  - intros Et. apply (f_equal length) in Et. rewrite length_take in Et. simpl in Et. lia.
  - intros c Hc. rewrite <- in_digit_class. eapply run_prefix_in_class; [|exact Hc]. lia.
  - rewrite <- E, take_drop. reflexivity.
  - reflexivity.
Qed.

Lemma search_chars_some r pre s' x :
  In x (Re.matches r s') -> Re.search_chars r (pre ++ s') <> None.
Proof.
  intros Hin E. apply search_chars_none in E. rewrite E in Hin. exact Hin.
Qed.

(** X3.  The identifier parsed from a URL consists of decimal digits
    only, and whenever one can be parsed the URL also has a division:
    [_extract_division_from_url] does not answer "unknown". *)
Theorem url_id_is_numeric_and_has_division (url : string) :
  (forall c, In c (Py.chars (id_from_url url)) -> Py.isdecimal c = true)
  /\ (id_from_url url <> "" -> is_division (_extract_division_from_url url)).
Proof.
  unfold id_from_url, Re.search.
  destruct (Re.search_chars id_pattern (Py.chars url)) as [g|] eqn:E.
  2:{ split; [intros c []|intros H; exfalso; apply H; reflexivity]. }
  apply search_chars_inv in E. destruct E as (pre & s' & rest & Hs & Hin).
  apply in_matches_id_pattern in Hin. destruct Hin as (d & ds & Hd & Hne & Hds & -> & ->).
  split.
  - unfold Re.group. simpl. rewrite chars_str. exact Hds.
  - intros _. unfold _extract_division_from_url, patterns. simpl.
    destruct (Re.search (Re.Seq (Re.lit "/models/") (Re.Seq division_alt (Re.Chr "/"))) url)
      as [g1|] eqn:E1.
    { eapply search_captures_division; [|exact E1]. left. reflexivity. }
    destruct (Re.search (Re.Seq (Re.Chr "/") (Re.Seq division_alt (Re.Seq (Re.Chr "-") digits))) url)
      as [g2|] eqn:E2.
    { eapply search_captures_division; [|exact E2]. right. left. reflexivity. }
    exfalso. unfold Re.search in E2. rewrite Hs in E2. revert E2.
    destruct ds as [|c0 ds0]; [congruence|].
    apply (search_chars_some _ pre _ ((ds0 ++ "-"%char :: rest)%list, [d])).
    apply in_matches_seq. eexists _, [], [d]. split; [apply in_matches_chr; eauto|].
    split; [|reflexivity].
    apply in_matches_seq. eexists _, [d], []. split.
    { apply in_matches_division_alt. exists d. eauto. }
    split; [|reflexivity].
    apply in_matches_seq. eexists _, [], []. split; [apply in_matches_chr; eauto|].
    split; [|reflexivity].
    unfold digits. apply in_matches_plus_iff. split; [reflexivity|].
    exists 1. split; [|reflexivity].
    simpl. rewrite in_digit_class, (Hds c0) by (left; reflexivity). lia.
Qed.

Lemma url_id_is_numeric_and_has_division_witness :
  id_from_url "https://apmmodels.com/w/models/dev/dev-1234-jane-doe" = "1234"
  /\ is_division (_extract_division_from_url
                    "https://apmmodels.com/w/models/dev/dev-1234-jane-doe").
Proof.
  split; [vm_compute; reflexivity|].
  apply (url_id_is_numeric_and_has_division
           "https://apmmodels.com/w/models/dev/dev-1234-jane-doe").
  vm_compute. discriminate.
Defined.

(** ** The run as a whole *)

Lemma staged_keeps_index_fields cfg w m :
  model_id (staged cfg w m) = model_id m /\ name (staged cfg w m) = name m
  /\ division (staged cfg w m) = division m /\ profile_url (staged cfg w m) = profile_url m
  /\ thumbnail (staged cfg w m) = thumbnail m /\ slug (staged cfg w m) = slug m.
Proof. unfold staged, downloaded, profile_of. destruct (page w); repeat split. Qed.

Lemma succeeded_in_order cfg env models : forall d i,
  map profile_url (succeeded cfg env d i models) `sublist_of` map profile_url models.
Proof.
  induction models as [|m rest IH]; intros d i; simpl; [constructor|].
  rewrite List.map_app.
  destruct (passes cfg d (env i) m); simpl.
  - destruct (profile_of_keys (env i) m) as (_ & _ & E).
    rewrite E. apply sublist_skip, IH.
  - apply sublist_cons, IH.
Qed.



Lemma removelast_shorter {A} (l : list A) : length (removelast l) = length l - 1.
Proof. induction l as [|a [|b l] IH]; simpl in *; lia. Qed.

Lemma paused_length models : length (paused models) <= length models - 1.
Proof.
  unfold paused. rewrite <- removelast_shorter. apply length_filter.
Qed.

(** X4.  [run_parallel_processing] never raises, whatever the world does
    and whatever keys the items lack.  The items it returns are the ones
    whose records it appended to [models.jsonl], in the order of the
    input, and [models_processed] grows by their number; the lines
    already in the file stay as they are.  [models_failed] grows by the
    number of the other items when [time.sleep] takes the configured
    delay; when it does not, every item with a name but the last is
    counted in [models_failed] once more, returned or not. *)
Theorem run_returns_what_it_persisted cfg env models st :
  exists result st',
    run_parallel_processing cfg env models st = (Returns result, st')
    /\ models_file st' = (models_file st ++ map record_of result)%list
    /\ processed_of st' = processed_of st + length result
    /\ failed_of st' + length result
       = failed_of st + length models
         + (if sleeps (request_delay cfg) then 0 else length (paused models))
    /\ length (paused models) <= length models - 1
    /\ map profile_url result `sublist_of` map profile_url models.
Proof.
  destruct (run_parallel_processing_spec cfg env models st) as (st' & -> & Hl & Hp & Hf & _).
  eexists _, st'. split; [reflexivity|]. simpl.
  repeat split; try assumption; [apply paused_length|apply succeeded_in_order].
Qed.

Lemma driver_through_kept env models : forall i, driver_through env true i models = true.
Proof. induction models as [|m rest IH]; intros i; simpl; [reflexivity|apply IH]. Qed.

(** X5.  With a browser kept, running the same items again in a world
    that behaves the same returns the same items and appends the same
    records a second time: the file is not deduplicated across runs. *)
Theorem rerun_appends_the_records_again cfg env models st :
  driver st = true ->
  exists result st1 st2,
    run_parallel_processing cfg env models st = (Returns result, st1)
    /\ run_parallel_processing cfg env models st1 = (Returns result, st2)
    /\ models_file st2
       = (models_file st ++ map record_of result ++ map record_of result)%list.
Proof.
  intros Hd.
  destruct (run_parallel_processing_spec cfg env models st) as (st1 & E1 & Hl1 & _ & _ & Hd1).
  destruct (run_parallel_processing_spec cfg env models st1) as (st2 & E2 & Hl2 & _).
  rewrite Hd, driver_through_kept in Hd1. rewrite Hd1 in E2, Hl2. rewrite Hd in E1, Hl1.
  eexists _, st1, st2. split; [exact E1|]. split; [exact E2|].
  rewrite Hl2, Hl1, <- app_assoc. reflexivity.
Qed.

Lemma rerun_appends_the_records_again_witness :
  exists result st1 st2,
    run_parallel_processing default_config (fun _ => fine 3) [jane; mary] browsing
    = (Returns result, st1)
    /\ run_parallel_processing default_config (fun _ => fine 3) [jane; mary] st1
       = (Returns result, st2)
    /\ models_file st2 = (map record_of result ++ map record_of result)%list.
Proof.
  apply (rerun_appends_the_records_again default_config (fun _ => fine 3) [jane; mary] browsing).
  reflexivity.
Defined.





(** ** Downloads: order of the stages, counters, the total cap *)

(** X7.  Validation comes after the downloads: an item that reaches
    validation and is not accepted there, be it rejected or because
    validation raises, has made all its calls of [_download_image] all
    the same, one for the thumbnail and one for each gallery URL within
    the limit, as far as [urlparse] takes the URL; it is counted as
    failed and leaves no record. *)
Theorem rejected_item_still_downloads cfg w m st :
  is_Some (profile_url m) -> is_Some (name m) -> is_Some (slug m) ->
  driver st || driver_ready w = true -> mkdir_ok w = true ->
  validate_model_data cfg (staged cfg w m) <> Returns true ->
  exists st',
    process_single_model cfg w m st = (Returns None, st')
    /\ requests st'
       = (requests st ++ thumbnail_request (profile_of w m)
            ++ gallery_requests 1 (limited_gallery cfg (profile_of w m)))%list
    /\ models_file st' = models_file st
    /\ failed_of st' = failed_of st + 1
    /\ processed_of st' = processed_of st.
Proof.
  intros Hu Hn Hs Hd Hmk Hv.
  unfold process_single_model, try_except, bind.
  rewrite (scrape_model_profile_returns w m st Hu Hn Hd).
  destruct (profile_of_keys w m) as (Kn & Ks & _).
  destruct (download_model_images_spec cfg w (profile_of w m) (with_driver true st))
    as (st1 & -> & Hr & (Hf & Hp & Hq) & _);
    [rewrite Kn; assumption | rewrite Ks; assumption | assumption |].
  fold (staged cfg w m). unfold lift.
  unfold processed_of, failed_of in *. simpl in Hr, Hf, Hp, Hq.
  destruct (validate_model_data cfg (staged cfg w m)) as [[|]|e]; [congruence| |];
    simpl; (eexists; split; [reflexivity|]); simpl;
    repeat split; try assumption; rewrite Hq; reflexivity.
Qed.

Lemma rejected_item_still_downloads_witness :
  exists st',
    process_single_model default_config (fine 2) (set_model_id jane (Some "")) fresh
    = (Returns None, st')
    /\ requests st'
       = [("https://apmmodels.com/img/jane.jpeg", "thumbnail.jpeg");
          ("https://apmmodels.com/img/g1.png", "portfolio1.png");
          ("https://apmmodels.com/img/g2.png", "portfolio2.png")]
    /\ models_file st' = [] /\ failed_of st' = 1 /\ processed_of st' = 0.
Proof.
  destruct (rejected_item_still_downloads default_config (fine 2)
              (set_model_id jane (Some "")) fresh) as (st' & E & Hr & H);
    try (eexists; reflexivity); try reflexivity.
  { vm_compute. discriminate. }
  exists st'. split; [exact E|]. split; [|exact H].
  rewrite Hr. vm_compute. reflexivity.
Defined.

Lemma download_one_stats cfg w url stem st :
  images_downloaded (the_stats (snd (download_one cfg w url stem st)))
  = images_downloaded (the_stats st) + length (fetched cfg w (request_for url stem))
  /\ images_failed (the_stats (snd (download_one cfg w url stem st)))
     + length (fetched cfg w (request_for url stem))
     = images_failed (the_stats st) + 1.
Proof.
  unfold download_one, try_except, bind, image_extension, request_for, _download_image, fetched.
  destruct (_get_image_extension url) as [ext|]; simpl; [|lia].
  destruct (download_succeeds cfg w url (stem ++ ext)); simpl; lia.
Qed.

Lemma download_gallery_stats cfg w urls : forall i st,
  images_downloaded (the_stats (snd (download_gallery cfg w i urls st)))
  = images_downloaded (the_stats st) + length (fetched cfg w (gallery_requests i urls))
  /\ images_failed (the_stats (snd (download_gallery cfg w i urls st)))
     + length (fetched cfg w (gallery_requests i urls))
     = images_failed (the_stats st) + length urls.
Proof.
  induction urls as [|u rest IH]; intros i st; simpl; [lia|].
  unfold bind.
  pose proof (download_one_stats cfg w u ("portfolio" ++ Py.str_of_nat i) st) as H1.
  destruct (download_one_spec cfg w u ("portfolio" ++ Py.str_of_nat i) st)
    as (st1 & E1 & _). rewrite E1 in *. simpl in H1.
  pose proof (IH (S i) st1) as H2.
  destruct (download_gallery_spec cfg w rest (S i) st1) as (st2 & E2 & _). rewrite E2 in *.
  simpl in H2. simpl.
  rewrite fetched_app, length_app. lia.
Qed.

Lemma fetched_length cfg w reqs : length (fetched cfg w reqs) <= length reqs.
Proof.
  unfold fetched. rewrite length_map. induction reqs as [|r rs IH]; simpl; [lia|].
  destruct (download_succeeds cfg w (fst r) (snd r)); simpl; lia.
Qed.

Lemma request_for_full url stem :
  is_Some (_get_image_extension url) -> length (request_for url stem) = 1.
Proof. intros [ext H]. unfold request_for. rewrite H. reflexivity. Qed.

Lemma gallery_requests_full urls : forall i,
  (forall u, In u urls -> is_Some (_get_image_extension u)) ->
  length (gallery_requests i urls) = length urls.
Proof.
  induction urls as [|u rest IH]; intros i H; simpl; [reflexivity|].
  rewrite length_app, request_for_full, IH; auto using in_eq, in_cons.
Qed.

(** X8.  When [download_model_images] returns, every URL it went
    through, the thumbnail and the gallery within the limit, is counted
    once: [images_downloaded] has grown by the number of image paths of
    the item, and [images_failed] by the number of the other URLs.  It
    has called [_download_image] at most once for each of these URLs,
    and once for each when [urlparse] takes them all. *)
Theorem image_counters_cover_every_url cfg w m st :
  is_Some (name m) -> is_Some (slug m) -> mkdir_ok w = true ->
  exists m' st' paths,
    download_model_images cfg w m st = (Returns m', st')
    /\ images m' = Some paths
    /\ images_downloaded (the_stats st') = images_downloaded (the_stats st) + length paths
    /\ images_failed (the_stats st') + length paths
       = images_failed (the_stats st) + length (attempted_urls cfg m)
    /\ length (requests st') <= length (requests st) + length (attempted_urls cfg m)
    /\ ((forall u, In u (attempted_urls cfg m) -> is_Some (_get_image_extension u)) ->
        length (requests st') = length (requests st) + length (attempted_urls cfg m)).
Proof.
  intros [n Hn] [s Hs] Hmk.
  destruct (download_model_images_spec cfg w m st) as (st' & E & Hr & _); eauto.
  exists (downloaded cfg w m), st', (image_paths cfg w m
    (thumbnail_request m ++ gallery_requests 1 (limited_gallery cfg m))%list).
  split; [exact E|]. split; [reflexivity|].
  assert (Hst : st' = snd (download_model_images cfg w m st)) by (rewrite E; reflexivity).
  rewrite Hr, !length_app. unfold image_paths. rewrite length_map, fetched_app, length_app.
  rewrite Hst. clear E Hr Hst st'.
  unfold download_model_images, mkdir, bind, thumbnail_request, limited_gallery, attempted_urls.
  rewrite Hn, Hs, Hmk. simpl.
  set (g := Py.slice_to (default [] (gallery_images m))
              (default 15%Z (max_images_per_model cfg) - 1)%Z).
  pose proof (gallery_requests_length g 1) as Hg.
  destruct (Py.truthy (thumbnail m)).
  - pose proof (download_one_stats cfg w (default "" (thumbnail m)) "thumbnail" st) as H1.
    destruct (download_one_spec cfg w (default "" (thumbnail m)) "thumbnail" st)
      as (st1 & E1 & _). rewrite E1 in H1. simpl in H1.
    pose proof (download_gallery_stats cfg w g 1 st1) as H2.
    destruct (download_gallery_spec cfg w g 1 st1) as (st2 & E2 & _).
    rewrite E2 in H2. simpl in H2. simpl. rewrite ?E1. simpl. rewrite ?E2. simpl.
    pose proof (request_for_length (default "" (thumbnail m)) "thumbnail") as Ht.
    repeat split; try lia.
    intros Hall. rewrite request_for_full, gallery_requests_full; [lia| |].
    + intros u Hu. apply Hall. right. exact Hu.
    + apply Hall. left. reflexivity.
  - unfold ret at 1.
    pose proof (download_gallery_stats cfg w g 1 st) as H2.
    destruct (download_gallery_spec cfg w g 1 st) as (st2 & E2 & _).
    rewrite E2 in H2. simpl in H2. simpl. rewrite ?E2. simpl.
    repeat split; try lia.
    intros Hall. rewrite gallery_requests_full; [lia|]. exact Hall.
Qed.

Lemma image_counters_cover_every_url_witness :
  exists m' st' paths,
    download_model_images (with_max 3) (fine 5) (profile_of (fine 5) jane) fresh
    = (Returns m', st')
    /\ images m' = Some paths
    /\ images_downloaded (the_stats st') = length paths
    /\ images_failed (the_stats st') + length paths = 3
    /\ length (requests st') <= 3.
Proof.
  destruct (image_counters_cover_every_url (with_max 3) (fine 5)
              (profile_of (fine 5) jane) fresh)
    as (m' & st' & paths & E & Hi & Hd & Hf & Hr & _);
    try (eexists; reflexivity); try reflexivity.
  exists m', st', paths. simpl in Hd, Hf, Hr.
  repeat split; assumption.
Defined.

(** An image URL that [urlparse] refuses is counted as failed without a
    call of [_download_image]. *)
Example refused_url_is_counted_without_request :
  let m := index_item "1" "Jane Doe" "https://apmmodels.com/w/models/dev/dev-1-jane-doe"
                      "http://[bad/a.png" in
  exists m' st',
    download_model_images default_config (fine 0) (profile_of (fine 0) m) fresh
    = (Returns m', st')
    /\ requests st' = [] /\ images m' = Some []
    /\ images_failed (the_stats st') = 1 /\ images_downloaded (the_stats st') = 0.
Proof. eexists _, _. vm_compute. repeat split. Qed.

(** X9.  With a configured maximum of at least one image, an item never
    gets more image paths than that maximum, thumbnail included, and
    every path lies in the item's own folder [images/<slug>/]. *)
Theorem images_stay_within_maximum cfg w m st mx s :
  max_images_per_model cfg = Some mx -> (1 <= mx)%Z ->
  is_Some (name m) -> slug m = Some s -> mkdir_ok w = true ->
  exists m' st' paths,
    download_model_images cfg w m st = (Returns m', st')
    /\ images m' = Some paths
    /\ (Z.of_nat (length paths) <= mx)%Z
    /\ (forall p, In p paths -> exists filename, p = "images/" ++ s ++ "/" ++ filename).
Proof.
  intros Hmx Hle Hn Hs Hmk.
  destruct (download_model_images_spec cfg w m st) as (st' & E & _); eauto.
  eexists _, st', _. split; [exact E|]. split; [reflexivity|]. split.
  - unfold image_paths. rewrite length_map.
    pose proof (fetched_length cfg w
      (thumbnail_request m ++ gallery_requests 1 (limited_gallery cfg m))%list) as H.
    rewrite length_app in H.
    pose proof (gallery_requests_length (limited_gallery cfg m) 1) as Hg.
    assert (Hl : length (limited_gallery cfg m) <= Z.to_nat (mx - 1)).
    { unfold limited_gallery. rewrite Hmx. simpl.
      rewrite slice_to_nonneg, length_take by lia. lia. }
    assert (Ht : length (thumbnail_request m) <= 1).
    { unfold thumbnail_request. destruct (Py.truthy (thumbnail m)); simpl;
        [apply request_for_length|lia]. }
    lia.
  - intros p Hp. unfold image_paths in Hp. apply in_map_iff in Hp.
    destruct Hp as (f & <- & _). rewrite Hs. simpl. exists f. reflexivity.
Qed.

Lemma images_stay_within_maximum_witness :
  exists m' st' paths,
    download_model_images (with_max 3) (fine 5) (profile_of (fine 5) jane) fresh
    = (Returns m', st')
    /\ images m' = Some paths
    /\ (Z.of_nat (length paths) <= 3)%Z
    /\ (forall p, In p paths -> exists filename, p = "images/" ++ "jane_doe" ++ "/" ++ filename).
Proof.
  apply (images_stay_within_maximum (with_max 3) (fine 5) (profile_of (fine 5) jane) fresh
           3%Z "jane_doe"); try reflexivity; try lia.
  eexists. reflexivity.
Defined.

(** ** Attribute names *)

Lemma isspace_lower_char (c : ascii) : Py.isspace (Py.lower_char c) = Py.isspace c.
Proof. ascii_cases c. Qed.

Lemma lstrip_lower (l : list ascii) :
  Py.lstrip_by Py.isspace (map Py.lower_char l) = map Py.lower_char (Py.lstrip_by Py.isspace l).
Proof.
  induction l as [|c t IH]; simpl; [reflexivity|].
  rewrite isspace_lower_char. destruct (Py.isspace c); [exact IH|reflexivity].
Qed.

Lemma strip_lower (l : list ascii) :
  Py.strip_by Py.isspace (map Py.lower_char l) = map Py.lower_char (Py.strip_by Py.isspace l).
Proof.
  unfold Py.strip_by. rewrite lstrip_lower, <- map_rev, lstrip_lower, map_rev. reflexivity.
Qed.

Lemma lower_lower (l : list ascii) :
  map Py.lower_char (map Py.lower_char l) = map Py.lower_char l.
Proof. rewrite map_map. apply map_ext. intros c. apply lower_char_idempotent. Qed.

(** Lower-casing and stripping, the first line of
    [_normalize_attribute_name]. *)
Lemma clean_twice (s : string) :
  Py.strip (Py.lower (Py.strip (Py.lower s))) = Py.strip (Py.lower s).
Proof.
  unfold Py.strip, Py.lower. rewrite !chars_str.
  rewrite <- strip_lower, lower_lower, strip_by_idempotent. reflexivity.
Qed.

Lemma clean_lower (s : string) :
  Py.strip (Py.lower (Py.lower s)) = Py.strip (Py.lower s).
Proof. unfold Py.strip, Py.lower. rewrite !chars_str, lower_lower. reflexivity. Qed.

Lemma name_mapping_values k v :
  name_mapping !! k = Some v ->
  v <> "" /\ Py.strip (Py.lower v) = v /\ name_mapping !! v = Some v.
Proof.
  intros H. unfold name_mapping in H. apply elem_of_list_to_map_2 in H.
  repeat (apply elem_of_cons in H; destruct H as [[= -> ->]|H];
          [split; [discriminate|split; vm_compute; reflexivity]|]).
  apply elem_of_nil in H. destruct H.
Qed.

Lemma normalize_fixed (s : string) :
  _normalize_attribute_name (_normalize_attribute_name s) = _normalize_attribute_name s.
Proof.
  unfold _normalize_attribute_name.
  destruct (name_mapping !! Py.strip (Py.lower s)) as [v|] eqn:E; simpl.
  - destruct (name_mapping_values _ _ E) as (_ & -> & ->). reflexivity.
  - rewrite clean_twice, E. reflexivity.
Qed.

(** X10.  [_normalize_attribute_name] is idempotent, and it does not
    tell a name from the same name in other letter case or with white
    space around it. *)
Theorem normalize_attribute_name_stable (name : string) :
  _normalize_attribute_name (_normalize_attribute_name name) = _normalize_attribute_name name
  /\ _normalize_attribute_name (Py.lower name) = _normalize_attribute_name name
  /\ _normalize_attribute_name (Py.strip (Py.lower name)) = _normalize_attribute_name name.
Proof.
  split; [apply normalize_fixed|]. unfold _normalize_attribute_name.
  rewrite clean_lower, clean_twice. split; reflexivity.
Qed.

(** ** The attributes of a profile *)

Lemma concat_chars (l : list string) (c : ascii) :
  In c (Py.chars (String.concat "" l)) -> exists s, In s l /\ In c (Py.chars s).
Proof.
  induction l as [|a rest IH]; simpl; [intros []|].
  destruct rest as [|b rest'].
  - intros H. exists a. auto.
  - rewrite chars_app. simpl. rewrite in_app_iff. intros [H|H].
    + exists a. auto.
    + destruct (IH H) as (s & Hs & Hc). exists s. auto.
Qed.

Lemma chars_in_concat (l : list string) (s : string) (c : ascii) :
  In s l -> In c (Py.chars s) -> In c (Py.chars (String.concat "" l)).
Proof.
  induction l as [|a rest IH]; simpl; [intros []|].
  intros Hs Hc. destruct rest as [|b rest'].
  - destruct Hs as [->|[]]. exact Hc.
  - rewrite chars_app. simpl. rewrite in_app_iff.
    destruct Hs as [->|Hs]; [left; exact Hc|right; apply IH; assumption].
Qed.

Lemma get_text_strip_nonspace (strings : list string) :
  get_text_strip strings <> "" ->
  exists c, In c (Py.chars (get_text_strip strings)) /\ Py.isspace c = false.
Proof.
  intros Hne. unfold get_text_strip in *.
  set (pieces := filter (fun s : string => s <> "") (map Py.strip strings)) in *.
  destruct (Py.chars (String.concat "" pieces)) as [|c0 t] eqn:E.
  { exfalso. apply Hne. apply chars_nil_iff. exact E. }
  assert (Hc0 : In c0 (Py.chars (String.concat "" pieces))) by (rewrite E; left; reflexivity).
  destruct (concat_chars _ _ Hc0) as (s & Hs & _).
  assert (Hs' := Hs). apply list_elem_of_In in Hs'. unfold pieces in Hs'.
  apply list_elem_of_filter in Hs'. destruct Hs' as [Hsne Hs'].
  apply list_elem_of_In, in_map_iff in Hs'. destruct Hs' as (x & Hx & _).
  assert (Hl : Py.strip_by Py.isspace (Py.chars x) <> []).
  { intros El. apply Hsne. rewrite <- Hx. unfold Py.strip. rewrite El. reflexivity. }
  apply strip_by_nonempty in Hl. destruct Hl as (y & Hy & Hsp).
  exists y. split; [|exact Hsp].
  rewrite <- E. apply (chars_in_concat pieces s); [exact Hs|].
  rewrite <- Hx. unfold Py.strip. rewrite chars_str. exact Hy.
Qed.

Lemma lower_nonspace (s : string) :
  (exists c, In c (Py.chars s) /\ Py.isspace c = false) ->
  exists c, In c (Py.chars (Py.lower s)) /\ Py.isspace c = false.
Proof.
  intros (c & Hc & Hsp). exists (Py.lower_char c). split.
  - unfold Py.lower. rewrite chars_str. apply in_map. exact Hc.
  - rewrite isspace_lower_char. exact Hsp.
Qed.

Lemma normalize_nonempty (s : string) :
  (exists c, In c (Py.chars s) /\ Py.isspace c = false) ->
  _normalize_attribute_name s <> "".
Proof.
  intros H. apply lower_nonspace in H. destruct H as (c & Hc & Hsp).
  unfold _normalize_attribute_name.
  destruct (name_mapping !! Py.strip (Py.lower s)) as [v|] eqn:E; simpl.
  - apply (name_mapping_values _ _ E).
  - intros E0. apply chars_nil_iff in E0. unfold Py.strip in E0. rewrite chars_str in E0.
    pose proof (strip_by_keeps Py.isspace _ c Hc Hsp) as Hin. rewrite E0 in Hin. exact Hin.
Qed.

Lemma lower_empty (s : string) : Py.lower s = "" -> s = "".
Proof.
  intros H. apply chars_nil_iff in H. unfold Py.lower in H. rewrite chars_str in H.
  apply chars_nil_iff. destruct (Py.chars s); [reflexivity|discriminate H].
Qed.

Lemma add_feature_clean attributes row :
  map_Forall clean_entry attributes -> map_Forall clean_entry (add_feature attributes row).
Proof.
  intros H. unfold add_feature.
  destruct row as [|name_cell [|value_cell rest]]; try exact H.
  destruct (String.eqb_spec (Py.lower (get_text_strip name_cell)) "") as [|Hn]; simpl;
    [exact H|].
  destruct (String.eqb_spec (get_text_strip value_cell) "") as [|Hv]; simpl; [exact H|].
  apply map_Forall_insert_2; [|exact H].
  split; [|split; [exact Hv|apply normalize_fixed]].
  apply normalize_nonempty, lower_nonspace, get_text_strip_nonspace.
  intros E. apply Hn. rewrite E. reflexivity.
Qed.

Lemma fold_add_feature_clean rows : forall attributes,
  map_Forall clean_entry attributes ->
  map_Forall clean_entry (fold_left add_feature rows attributes).
Proof.
  induction rows as [|row rows IH]; intros attributes H; simpl; [exact H|].
  apply IH, add_feature_clean, H.
Qed.

(** X11.  Every entry of the dictionary [_extract_model_attributes]
    returns has a non-empty name and a non-empty value; its name is
    normalized, so none of the variants "chest", "shoe", "hair color",
    "eye color", "eye colour" is ever a key. *)
Theorem extracted_attributes_are_normalized found k v :
  _extract_model_attributes found !! k = Some v ->
  k <> "" /\ v <> "" /\ _normalize_attribute_name k = k
  /\ ~ In k ["chest"; "shoe"; "hair color"; "eye color"; "eye colour"].
Proof.
  intros H.
  assert (Hc : clean_entry k v).
  { unfold _extract_model_attributes in H. destruct (first_found found) as [rows|].
    - eapply (fold_add_feature_clean rows ∅); [apply map_Forall_empty|exact H].
    - rewrite lookup_empty in H. discriminate H. }
  destruct Hc as (Hk & Hv & Hn). repeat split; try assumption.
  intros Hin. simpl in Hin.
  repeat (destruct Hin as [<-|Hin]; [vm_compute in Hn; discriminate Hn|]).
  exact Hin.
Qed.

Lemma extracted_attributes_are_normalized_witness :
  _extract_model_attributes [None; Some features_table] !! "bust" = Some "94"
  /\ _normalize_attribute_name "bust" = "bust".
Proof.
  assert (H : _extract_model_attributes [None; Some features_table] !! "bust" = Some "94")
    by (vm_compute; reflexivity).
  split; [exact H|].
  apply (extracted_attributes_are_normalized _ _ _ H).
Defined.

(** A later row replaces the value an earlier row gave to the same
    normalized name, and rows without two filled cells are passed over. *)
Example features_table_read :
  map_to_list (_extract_model_attributes [None; Some features_table])
  = [("eyes", "Blue"); ("bust", "94"); ("height", "178 cm")].
Proof. vm_compute. reflexivity. Qed.

(** ** The gallery of a profile *)

Lemma fromkeys_spec (l : list string) : forall seen : gset string,
  NoDup (fromkeys l seen)
  /\ fromkeys l seen `sublist_of` l
  /\ (forall u, In u (fromkeys l seen) <-> In u l /\ u ∉ seen).
Proof.
  induction l as [|x rest IH]; intros seen; simpl.
  - split; [constructor|]. split; [constructor|]. intros u. tauto.
  - destruct (decide (x ∈ seen)) as [Hs|Hs].
    + destruct (IH seen) as (Hnd & Hsub & Hiff). split; [exact Hnd|].
      split; [apply sublist_cons; exact Hsub|].
      intros u. rewrite Hiff. split; [tauto|].
      intros [[<-|H] Hn]; [contradiction|tauto].
    + destruct (IH ({[x]} ∪ seen)) as (Hnd & Hsub & Hiff). split; [|split].
      * apply NoDup_cons. split; [|exact Hnd].
        rewrite list_elem_of_In, Hiff. intros [_ Hn]. apply Hn.
        apply elem_of_union_l, elem_of_singleton. reflexivity.
      * apply sublist_skip. exact Hsub.
      * intros u. simpl. rewrite Hiff, elem_of_union, elem_of_singleton. split.
        -- intros [<-|[H Hn]]; [tauto|]. tauto.
        -- intros [[<-|H] Hn]; [tauto|].
           destruct (decide (u = x)) as [->|Hne]; [tauto|]. tauto.
Qed.

(** X12.  The gallery list has no URL twice, holds exactly the URLs of
    the images found by the first selector that found any image, in the
    order of the page, and each of them comes from a non-empty [src],
    made absolute; an image whose [src] cannot be made absolute is left
    out.  Selectors after the first one that matched are never
    consulted, also when that one yields no usable [src]. *)
Theorem gallery_is_deduplicated urljoin base (found : list (list img_tag)) :
  let gallery := _extract_gallery_images urljoin base found in
  NoDup gallery
  /\ gallery `sublist_of` gallery_sources urljoin base (first_nonempty found)
  /\ (forall u, In u gallery <->
                exists img, In img (first_nonempty found)
                            /\ Py.strip (default "" (img_src img)) <> ""
                            /\ absolute urljoin base (Py.strip (default "" (img_src img)))
                               = Some u)
  /\ (forall images rest, images <> [] ->
        _extract_gallery_images urljoin base (images :: rest)
        = _extract_gallery_images urljoin base [images]).
Proof.
  simpl. unfold _extract_gallery_images.
  destruct (fromkeys_spec (gallery_sources urljoin base (first_nonempty found)) ∅)
    as (Hnd & Hsub & Hiff).
  split; [exact Hnd|]. split; [exact Hsub|]. split.
  - intros u. rewrite Hiff. unfold gallery_sources.
    rewrite <- list_elem_of_In, list_elem_of_omap. split.
    + intros [(img & Hi & Hu) _]. exists img. apply list_elem_of_In in Hi.
      destruct (String.eqb_spec (Py.strip (default "" (img_src img))) "") as [|Hne];
        [discriminate|]. auto.
    + intros (img & Hi & Hne & Hu). split; [|apply not_elem_of_empty].
      exists img. split; [apply list_elem_of_In; exact Hi|].
      apply String.eqb_neq in Hne. rewrite Hne. exact Hu.
  - intros images rest Hne. destruct images as [|i images]; [congruence|]. reflexivity.
Qed.

Example frames_gallery :
  _extract_gallery_images urljoin_root site [[]; frames; [picture "/img/z.png"]]
  = ["https://apmmodels.com/img/a.jpg"; "https://apmmodels.com/img/b.jpg"].
Proof. vm_compute. reflexivity. Qed.

Lemma gallery_is_deduplicated_witness :
  _extract_gallery_images urljoin_root site [frames; [picture "/img/z.png"]]
  = _extract_gallery_images urljoin_root site [frames].
Proof.
  apply (gallery_is_deduplicated urljoin_root site []). discriminate.
Defined.

(** ** [safe_request] *)












(** ** Who writes [models_found] *)

Lemma keeps_found_ret {A} (a : A) : keeps_found (ret a).
Proof. intros st. reflexivity. Qed.

Lemma keeps_found_raise {A} (e : exn) : keeps_found (@raise A e).
Proof. intros st. reflexivity. Qed.

Lemma keeps_found_bind {A B} (c : M A) (k : A -> M B) :
  keeps_found c -> (forall a, keeps_found (k a)) -> keeps_found (bind c k).
Proof.
  intros Hc Hk st. unfold bind. specialize (Hc st).
  destruct (c st) as [[a|e] st1]; simpl in *; [|exact Hc].
  rewrite (Hk a st1). exact Hc.
Qed.

Lemma keeps_found_try {A} (body : M A) (handler : exn -> M A) :
  keeps_found body -> (forall e, keeps_found (handler e)) -> keeps_found (try_except body handler).
Proof.
  intros Hb Hh st. unfold try_except. specialize (Hb st).
  destruct (body st) as [[a|e] st1]; simpl in *; [exact Hb|].
  rewrite (Hh e st1). exact Hb.
Qed.

Lemma keeps_found_getitem {A} key (o : option A) : keeps_found (getitem key o).
Proof. destruct o; [apply keeps_found_ret|apply keeps_found_raise]. Qed.

Ltac keeps_found_step :=
  first
    [ apply keeps_found_ret | apply keeps_found_raise | apply keeps_found_getitem
    | apply keeps_found_bind; [|intros ?] | apply keeps_found_try; [|intros ?]
    | (intros st; reflexivity) ].

Lemma keeps_found_download_one cfg w url f : keeps_found (download_one cfg w url f).
Proof.
  unfold download_one, image_extension.
  apply keeps_found_try; [|intros e; repeat keeps_found_step].
  apply keeps_found_bind; [destruct (_get_image_extension url); repeat keeps_found_step|].
  intros ext. apply keeps_found_bind; [intros st; reflexivity|].
  intros [|]; repeat keeps_found_step.
Qed.

Lemma keeps_found_download_gallery cfg w urls : forall i, keeps_found (download_gallery cfg w i urls).
Proof.
  induction urls as [|u rest IH]; intros i; simpl; [apply keeps_found_ret|].
  apply keeps_found_bind; [apply keeps_found_download_one|]. intros got.
  apply keeps_found_bind; [apply IH|]. intros more. apply keeps_found_ret.
Qed.

Lemma keeps_found_setup ready assigned : keeps_found (setup_driver ready assigned).
Proof.
  intros st. unfold setup_driver. destruct (driver st), ready, assigned; reflexivity.
Qed.

Lemma keeps_found_scrape w m : keeps_found (scrape_model_profile w m).
Proof.
  unfold scrape_model_profile, load_profile.
  apply keeps_found_bind; [apply keeps_found_getitem|]. intros _.
  apply keeps_found_bind; [apply keeps_found_getitem|]. intros _.
  apply keeps_found_bind; [apply keeps_found_setup|]. intros _.
  repeat keeps_found_step.
  destruct (page w); repeat keeps_found_step.
Qed.

Lemma keeps_found_download cfg w m : keeps_found (download_model_images cfg w m).
Proof.
  unfold download_model_images, mkdir.
  apply keeps_found_bind; [apply keeps_found_getitem|]. intros n.
  apply keeps_found_bind; [apply keeps_found_getitem|]. intros s.
  apply keeps_found_bind; [destruct (mkdir_ok w); repeat keeps_found_step|]. intros _.
  apply keeps_found_bind.
  { destruct (Py.truthy (thumbnail m)); [apply keeps_found_download_one|apply keeps_found_ret]. }
  intros first. apply keeps_found_bind; [apply keeps_found_download_gallery|].
  intros others. apply keeps_found_ret.
Qed.

Lemma keeps_found_save w m : keeps_found (save_model_metadata w m).
Proof.
  unfold save_model_metadata. apply keeps_found_try; [|intros e; apply keeps_found_ret].
  apply keeps_found_bind.
  { intros st. unfold append_record. destruct (append_ok w); reflexivity. }
  intros _. repeat keeps_found_step.
Qed.

Lemma keeps_found_process cfg w m : keeps_found (process_single_model cfg w m).
Proof.
  unfold process_single_model.
  apply keeps_found_try; [|intros e; repeat keeps_found_step].
  apply keeps_found_bind; [apply keeps_found_scrape|]. intros m1.
  apply keeps_found_bind; [apply keeps_found_download|]. intros m2.
  apply keeps_found_bind; [intros st; reflexivity|]. intros valid.
  destruct (negb valid); [repeat keeps_found_step|].
  apply keeps_found_bind; [apply keeps_found_save|].
  intros [|]; repeat keeps_found_step.
Qed.

Lemma keeps_found_sleep d : keeps_found (sleep d).
Proof. unfold sleep. destruct d as [s|e]; [destruct (Qle_bool 0 s)|]; repeat keeps_found_step. Qed.

Lemma keeps_found_run cfg env total models : forall i acc,
  keeps_found (process_models cfg env total i models acc).
Proof.
  induction models as [|m rest IH]; intros i acc; simpl; [apply keeps_found_ret|].
  apply keeps_found_bind; [|intros acc'; apply IH].
  apply keeps_found_try; [|intros e; repeat keeps_found_step].
  apply keeps_found_bind; [apply keeps_found_getitem|]. intros _.
  apply keeps_found_bind; [apply keeps_found_process|].
  intros result. apply keeps_found_try; [|intros e; repeat keeps_found_step].
  apply keeps_found_bind; [|intros _; apply keeps_found_ret].
  destruct (Nat.ltb i total); [apply keeps_found_sleep|apply keeps_found_ret].
Qed.

(** ** [run_scraper] *)

Lemma collected_have_urls urljoin base page :
  Forall (fun m => is_Some (profile_url m)) (collect_models urljoin base page).
Proof.
  apply Forall_forall. intros m Hm. apply list_elem_of_In in Hm.
  eapply extracted_has_url, collect_models_extracted. exact Hm.
Qed.

Lemma collected_have_names urljoin base page :
  Forall (fun m => is_Some (name m)) (collect_models urljoin base page).
Proof.
  apply Forall_forall. intros m Hm. apply list_elem_of_In in Hm.
  destruct (extracted_name_and_slug urljoin base m) as (n & Hn & _);
    [eapply collect_models_extracted; exact Hm|eauto].
Qed.

Lemma unique_models_nil_iff models kept :
  Forall (fun m => is_Some (profile_url m)) models ->
  unique_models models ∅ = Some kept -> (kept = [] <-> models = []).
Proof.
  intros HF E. destruct (unique_models_spec models ∅ HF) as (kept' & E' & _ & _ & Hiff & _).
  rewrite E in E'. injection E' as <-. split.
  - intros ->. destruct models as [|m rest]; [reflexivity|].
    exfalso. apply (proj2 (Hiff (url_of m))).
    split; [left; reflexivity|apply not_elem_of_empty].
  - intros ->. simpl in E. injection E as <-. reflexivity.
Qed.

Lemma length_slice_to {A} (l : list A) (k : Z) :
  ((0 <= k)%Z -> length (Py.slice_to l k) = Nat.min (Z.to_nat k) (length l))
  /\ ((k < 0)%Z -> length (Py.slice_to l k) = length l - Z.to_nat (- k)).
Proof.
  unfold Py.slice_to. destruct (Z.leb_spec 0 k); split; intros; try lia;
    rewrite length_take; lia.
Qed.

Lemma limit_models_nil test_mode max_models : limit_models test_mode max_models [] = [].
Proof.
  unfold limit_models, Py.slice_to. destruct test_mode; [reflexivity|].
  destruct max_models as [k|]; [|reflexivity].
  destruct (k =? 0)%Z; [reflexivity|]. destruct (0 <=? k)%Z; apply take_nil.
Qed.

Lemma limit_models_named test_mode max_models models :
  Forall (fun m => is_Some (name m)) models ->
  Forall (fun m => is_Some (name m)) (limit_models test_mode max_models models).
Proof.
  intros H. unfold limit_models, Py.slice_to.
  destruct test_mode; [apply Forall_take, H|].
  destruct max_models as [k|]; [|exact H].
  destruct (k =? 0)%Z; [exact H|]. destruct (0 <=? k)%Z; apply Forall_take, H.
Qed.

(** When every item has a name, the run pauses after each but the last. *)
Lemma paused_named models :
  Forall (fun m => is_Some (name m)) models -> length (paused models) = length models - 1.
Proof.
  intros H. unfold paused. rewrite <- removelast_shorter. f_equal.
  assert (Hr : Forall (fun m => is_Some (name m)) (removelast models)).
  { induction H as [|a l Ha Hl IH]; [constructor|].
    destruct l as [|b l]; [constructor|]. simpl in *. constructor; [exact Ha|exact IH]. }
  induction Hr as [|a l Ha Hl IH]; [reflexivity|].
  rewrite filter_cons. destruct (decide (is_Some (name a))); [|contradiction].
  rewrite IH. reflexivity.
Qed.

(** What [run_scraper] does once the browser is up and the index page
    is loaded. *)
Lemma run_scraper_loaded urljoin base cfg iw page env test_mode max_models st :
  loaded iw = Some page -> driver st || index_driver iw = true ->
  exists kept,
    unique_models (collect_models urljoin base page) ∅ = Some kept
    /\ let out := run_scraper urljoin base cfg iw env test_mode max_models st in
       let run := length (limit_models test_mode max_models kept) in
       success (fst out) = negb (bool_decide (kept = []))
       /\ models_found (the_stats (snd out)) = length kept
       /\ processed_of (snd out) + failed_of (snd out)
          = processed_of st + failed_of st + run
            + (if sleeps (request_delay cfg) then 0 else run - 1)
       /\ (kept = [] -> models_file (snd out) = models_file st /\ requests (snd out) = requests st).
Proof.
  intros Hl Hd.
  destruct (unique_models_spec _ ∅ (collected_have_urls urljoin base page))
    as (kept & E & Hsub & _).
  exists kept. split; [exact E|].
  assert (Hnamed : Forall (fun m => is_Some (name m)) kept).
  { apply Forall_forall. intros m Hm.
    eapply (proj1 (Forall_forall _ _) (collected_have_names urljoin base page)).
    eapply elem_of_sublist; [exact Hm|exact Hsub]. }
  unfold run_scraper, scrape_alphabet_index, bind.
  rewrite (setup_driver_returns _ _ _ Hd), Hl, E. simpl.
  destruct kept as [|m kept].
  - simpl. unfold processed_of, failed_of. simpl.
    rewrite limit_models_nil. simpl.
    destruct (sleeps (request_delay cfg)); repeat split; lia.
  - set (st1 := {| the_stats := _; models_file := models_file st;
                   requests := requests st; driver := true |}).
    pose proof (keeps_found_run cfg env
                  (length (limit_models test_mode max_models (m :: kept)))
                  (limit_models test_mode max_models (m :: kept)) 1 [] st1) as Hfound.
    destruct (run_parallel_processing_spec cfg env
                (limit_models test_mode max_models (m :: kept)) st1)
      as (st2 & E2 & _ & Hp & Hf & _).
    unfold run_parallel_processing in *. rewrite E2 in *. simpl in *.
    unfold counted_twice in Hf.
    rewrite (paused_named _ (limit_models_named test_mode max_models _ Hnamed)) in Hf.
    split; [reflexivity|]. split; [exact Hfound|]. split; [|discriminate].
    unfold processed_of, failed_of in *. simpl in *.
    destruct (sleeps (request_delay cfg)); lia.
Qed.

Lemma run_scraper_closes urljoin base cfg iw env test_mode max_models st :
  driver (snd (run_scraper urljoin base cfg iw env test_mode max_models st)) = false.
Proof.
  unfold run_scraper.
  match goal with |- context [let '(_, _) := ?x in _] => destruct x as [r s] end.
  reflexivity.
Qed.

(** X16.  [run_scraper] reports success exactly when a browser is kept
    or could be started, the index page was loaded and at least one
    model was found on it; when it reports failure, no image was
    requested, no record was appended and no item was counted.  In
    either case no browser is kept afterwards. *)
Theorem run_scraper_succeeds_iff urljoin base cfg iw env test_mode max_models st :
  let out := run_scraper urljoin base cfg iw env test_mode max_models st in
  (success (fst out) = true <->
   (driver st = true \/ index_driver iw = true)
   /\ exists page, loaded iw = Some page /\ collect_models urljoin base page <> [])
  /\ (success (fst out) = false ->
      report_models (fst out) = []
      /\ models_file (snd out) = models_file st /\ requests (snd out) = requests st
      /\ processed_of (snd out) = processed_of st /\ failed_of (snd out) = failed_of st)
  /\ driver (snd out) = false.
Proof.
  cbv zeta. split; [|split; [|apply run_scraper_closes]];
    destruct (driver st || index_driver iw) eqn:Hd.
  2,4: unfold run_scraper, scrape_alphabet_index, bind;
       rewrite (setup_driver_raises _ _ _ Hd); simpl.
  2:{ split; [discriminate|]. intros [[H|H] _]; rewrite H in Hd;
        [discriminate Hd|rewrite orb_true_r in Hd; discriminate Hd]. }
  2:{ intros _. repeat split. }
  all: destruct (loaded iw) as [page|] eqn:Hl.
  2,4: unfold run_scraper, scrape_alphabet_index, bind;
       rewrite (setup_driver_returns _ _ _ Hd), Hl; simpl.
  2:{ split; [discriminate|intros (_ & p & ? & _); discriminate]. }
  2:{ intros _. repeat split. }
  all: destruct (run_scraper_loaded urljoin base cfg iw page env test_mode max_models st Hl Hd)
         as (kept & E & Hs & Hfound & Hcount & Hnil);
       pose proof (unique_models_nil_iff _ _ (collected_have_urls urljoin base page) E) as Hiff.
  - rewrite Hs. split.
    + intros H. split; [apply orb_prop in Hd; exact Hd|]. exists page. split; [reflexivity|].
      intros Hc. apply Hiff in Hc. rewrite bool_decide_eq_true_2 in H by exact Hc. discriminate H.
    + intros (_ & p & [= <-] & Hc). rewrite bool_decide_eq_false_2; [reflexivity|].
      intros Hk. apply Hc, Hiff, Hk.
  - rewrite Hs. intros H.
    assert (Hk : kept = []).
    { destruct (decide (kept = [])) as [Hk|Hk]; [exact Hk|].
      rewrite bool_decide_eq_false_2 in H by exact Hk. discriminate H. }
    destruct (Hnil Hk) as [Hf Hr]. subst kept.
    split; [|split; [exact Hf|split; [exact Hr|]]].
    + unfold run_scraper, scrape_alphabet_index, bind.
      rewrite (setup_driver_returns _ _ _ Hd), Hl, E. reflexivity.
    + unfold run_scraper, scrape_alphabet_index, bind.
      rewrite (setup_driver_returns _ _ _ Hd), Hl, E. split; reflexivity.
Qed.

Lemma run_scraper_succeeds_iff_witness :
  success (fst (run_scraper urljoin_root site default_config (working_index five_entries)
                  (fun _ => fine 1) true None fresh)) = true.
Proof.
  apply (run_scraper_succeeds_iff urljoin_root site default_config (working_index five_entries)
           (fun _ => fine 1) true None fresh).
  split; [right; reflexivity|]. exists five_entries. split; [reflexivity|].
  vm_compute. discriminate.
Defined.

(** X17.  In test mode at most three items are put through the
    pipeline, whatever [max_models] says, while [models_found] still
    counts every model of the index: with [n] the smaller of three and
    [models_found], the two item counters together grow by [n] when
    [time.sleep] takes the configured delay, and by [n + (n - 1)] when
    it does not, every item but the last being counted as failed once
    more. *)
Theorem test_mode_runs_three urljoin base cfg page env max_models st :
  let out := run_scraper urljoin base cfg (working_index page) env true max_models st in
  let n := Nat.min 3 (models_found (the_stats (snd out))) in
  processed_of (snd out) + failed_of (snd out)
  = processed_of st + failed_of st + n + (if sleeps (request_delay cfg) then 0 else n - 1).
Proof.
  destruct (run_scraper_loaded urljoin base cfg (working_index page) page env true max_models st)
    as (kept & _ & _ & Hfound & Hcount & _); [reflexivity|apply orb_true_r|].
  cbv zeta in *. rewrite Hcount, Hfound. unfold limit_models.
  rewrite (proj1 (length_slice_to kept 3)) by lia. reflexivity.
Qed.

(** X18.  Outside test mode, a positive [max_models] caps the number of
    items put through the pipeline; no [max_models], or zero, means no
    cap; and a negative one leaves out that many items from the end of
    the index.  The two item counters together grow by the number [n]
    of items put through when [time.sleep] takes the configured delay,
    and by [n + (n - 1)] when it does not. *)
Theorem max_models_caps_the_run urljoin base cfg page env max_models st :
  let out := run_scraper urljoin base cfg (working_index page) env false max_models st in
  let found := models_found (the_stats (snd out)) in
  let done := processed_of (snd out) + failed_of (snd out) in
  let counted n :=
    processed_of st + failed_of st + n + (if sleeps (request_delay cfg) then 0 else n - 1) in
  (max_models = None \/ max_models = Some 0%Z -> done = counted found)
  /\ (forall k, max_models = Some k -> (0 < k)%Z ->
        done = counted (Nat.min (Z.to_nat k) found))
  /\ (forall k, max_models = Some k -> (k < 0)%Z ->
        done = counted (found - Z.to_nat (- k))).
Proof.
  destruct (run_scraper_loaded urljoin base cfg (working_index page) page env false max_models st)
    as (kept & _ & _ & Hfound & Hcount & _); [reflexivity|apply orb_true_r|].
  cbv zeta in *. rewrite Hcount, Hfound. unfold limit_models. repeat split.
  - intros [->| ->]; reflexivity.
  - intros k -> Hk. destruct (Z.eqb_spec k 0); [lia|].
    rewrite (proj1 (length_slice_to kept k)) by lia. reflexivity.
  - intros k -> Hk. destruct (Z.eqb_spec k 0); [lia|].
    rewrite (proj2 (length_slice_to kept k)) by lia. reflexivity.
Qed.

Lemma max_models_caps_the_run_witness :
  let run cfg k := run_scraper urljoin_root site cfg (working_index five_entries)
                     (fun _ => fine 1) false k fresh in
  let done cfg k := processed_of (snd (run cfg k)) + failed_of (snd (run cfg k)) in
  done default_config (Some 0%Z) = 5
  /\ done default_config (Some 2%Z) = 2
  /\ done default_config (Some (-1)%Z) = 4
  /\ done negative_delay (Some 2%Z) = 3.
Proof.
  cbv zeta. split; [|split; [|split]].
  - rewrite (proj1 (max_models_caps_the_run urljoin_root site default_config five_entries
                      (fun _ => fine 1) (Some 0%Z) fresh)) by (right; reflexivity).
    vm_compute. reflexivity.
  - rewrite (proj1 (proj2 (max_models_caps_the_run urljoin_root site default_config five_entries
                             (fun _ => fine 1) (Some 2%Z) fresh)) 2%Z eq_refl) by lia.
    vm_compute. reflexivity.
  - rewrite (proj2 (proj2 (max_models_caps_the_run urljoin_root site default_config five_entries
                             (fun _ => fine 1) (Some (-1)%Z) fresh)) (-1)%Z eq_refl) by lia.
    vm_compute. reflexivity.
  - rewrite (proj1 (proj2 (max_models_caps_the_run urljoin_root site negative_delay five_entries
                             (fun _ => fine 1) (Some 2%Z) fresh)) 2%Z eq_refl) by lia.
    vm_compute. reflexivity.
Defined.

(** ** The items of the index stage *)

Lemma extracted_fields urljoin base m :
  (exists entry letter, _extract_model_from_entry urljoin base entry letter = Some m)
  \/ (exists link, _extract_model_from_link urljoin base link = Some m) ->
  is_Some (model_id m) /\ is_Some (thumbnail m)
  /\ exists u, profile_url m = Some u /\ division m = Some (_extract_division_from_url u).
Proof.
  intros [(entry & letter & H)|(link & H)].
  - unfold _extract_model_from_entry in H.
    destruct (li_a entry) as [link|]; [|discriminate].
    extracted H.
    injection H as <-. simpl. eauto 6.
  - unfold _extract_model_from_link in H.
    extracted H.
    injection H as <-. simpl. eauto 6.
Qed.

(** X19.  Every item the index stage returns carries what the later
    stages read without asking: a non-empty name, the slug of that name,
    a profile URL, an identifier and a thumbnail entry (possibly empty),
    and a division that is "ima", "mai", "dev" or "unknown"; so with a
    browser kept or starting [scrape_model_profile] never raises on it,
    and after the index stage a browser is kept.  The returned items
    have pairwise distinct profile URLs and [models_found] is their
    number. *)
Theorem index_items_are_complete urljoin base iw st models st' m :
  scrape_alphabet_index urljoin base iw st = (Returns models, st') ->
  In m models ->
  (exists n, name m = Some n /\ n <> "" /\ slug m = Some (slugify_name n))
  /\ is_Some (profile_url m) /\ is_Some (model_id m) /\ is_Some (thumbnail m)
  /\ (exists d, division m = Some d /\ In d ["ima"; "mai"; "dev"; "unknown"])
  /\ (forall w st0, driver st0 || driver_ready w = true ->
                    scrape_model_profile w m st0
                    = (Returns (profile_of w m), with_driver true st0))
  /\ driver st' = true
  /\ NoDup (map url_of models)
  /\ models_found (the_stats st') = length models.
Proof.
  intros E Hm. unfold scrape_alphabet_index, bind in E.
  destruct (driver st || index_driver iw) eqn:Hd;
    [rewrite (setup_driver_returns _ _ _ Hd) in E
    |rewrite (setup_driver_raises _ _ _ Hd) in E; discriminate E].
  destruct (loaded iw) as [page|]; [|injection E as <- _; destruct Hm].
  destruct (unique_models_spec _ ∅ (collected_have_urls urljoin base page))
    as (kept & Ek & Hsub & Hnd & _).
  rewrite Ek in E. unfold set_models_found, modify_stats, ret in E. simpl in E.
  injection E as <- <-.
  assert (Hc : In m (collect_models urljoin base page)).
  { apply list_elem_of_In. eapply elem_of_sublist; [|exact Hsub]. apply list_elem_of_In, Hm. }
  apply collect_models_extracted in Hc.
  destruct (extracted_name_and_slug _ _ _ Hc) as (n & Hn & Hne & Hs).
  destruct (extracted_fields _ _ _ Hc) as (Hid & Hth & u & Hu & Hdiv).
  split; [eauto|]. split; [eauto|]. split; [exact Hid|]. split; [exact Hth|].
  split; [|split; [|split; [reflexivity|split; [exact Hnd|reflexivity]]]].
  - exists (_extract_division_from_url u). split; [exact Hdiv|].
    unfold _extract_division_from_url.
    destruct (first_division_range patterns u) as [[H|[H|H]]|H]; [auto|..];
      rewrite H; simpl; auto.
  - intros w st0 Hw. apply scrape_model_profile_returns; eauto.
Qed.

Lemma index_items_are_complete_witness :
  exists models st',
    scrape_alphabet_index urljoin_root site (working_index five_entries) fresh
    = (Returns models, st')
    /\ length models = 5 /\ models_found (the_stats st') = 5
    /\ NoDup (map url_of models).
Proof.
  destruct (scrape_alphabet_index urljoin_root site (working_index five_entries) fresh)
    as [[models|e] st'] eqn:E; [|vm_compute in E; discriminate E].
  exists models, st'. split; [reflexivity|].
  assert (Hl : length models = 5) by (vm_compute in E; injection E as <- _; reflexivity).
  destruct models as [|m rest]; [discriminate Hl|].
  destruct (index_items_are_complete urljoin_root site (working_index five_entries)
              fresh (m :: rest) st' m E)
    as (_ & _ & _ & _ & _ & _ & _ & Hnd & Hf); [left; reflexivity|].
  split; [exact Hl|]. split; [rewrite Hf; exact Hl|exact Hnd].
Defined.

(** ** [_load_config] *)

(** X20.  The user file replaces whole top-level sections: a section it
    does not mention keeps its defaults, but of a section it does mention
    only the file's own keys remain, so a key the file leaves out of that
    section is gone although the defaults have it.  A file that is
    missing or cannot be read gives the defaults. *)
Theorem load_config_replaces_sections (user : gmap string yaml) (section key : string) :
  (user !! section = None ->
   config_item (_load_config (Some (Some user))) section key
   = config_item default_settings section key)
  /\ (forall m, user !! section = Some (YMap m) ->
                config_item (_load_config (Some (Some user))) section key = ymap_get key m)
  /\ _load_config None = default_settings
  /\ _load_config (Some None) = default_settings.
Proof.
  unfold _load_config, config_item. repeat split.
  - intros H. rewrite lookup_union_r by exact H. reflexivity.
  - intros m H. rewrite (lookup_union_Some_l _ _ _ _ H). reflexivity.
Qed.

Lemma load_config_replaces_sections_witness :
  config_item (_load_config (Some (Some stricter_validation))) "validation" "required_divisions"
  = None
  /\ config_item default_settings "validation" "required_divisions"
     = Some (YList [YStr "ima"; YStr "mai"; YStr "dev"])
  /\ config_item (_load_config (Some (Some stricter_validation))) "limits" "max_images_per_model"
     = Some (YInt 15).
Proof.
  split; [|split].
  - rewrite (proj1 (proj2 (load_config_replaces_sections stricter_validation
                             "validation" "required_divisions"))
               [("min_images_per_model", YInt 2)]) by reflexivity.
    reflexivity.
  - vm_compute. reflexivity.
  - rewrite (proj1 (load_config_replaces_sections stricter_validation
                      "limits" "max_images_per_model")) by reflexivity.
    vm_compute. reflexivity.
Defined.

